(** * CORS Anywhere: request admission and response mediation

    A shallow embedding of [lib/cors-anywhere.js]: the URL extractor
    ([parseURL]), the CORS header synthesizer ([withCORS]), the request
    handler returned by [getHandler], the response mediator
    ([onProxyResponse]), the forwarding engine ([proxyRequest] with the
    ['proxyRes'] listener it installs) and the fallback error listener
    installed by [createServer].

    The handler is a function from a request to the calls it makes to the
    configured hooks and to what becomes of the request.  The engine is
    given twice: as the run of one request that is alone on the proxy,
    with the answers of the target as an oracle; and as a machine over the
    proxy object that the requests of a server share, stepped by the
    arrival of requests and of answers.

    Node's [url] and [net] modules, http-proxy and the pattern of
    top-level domains are outside [lib/cors-anywhere.js]; the code is
    embedded over an interface for them, and a model of Node is supplied
    for evaluating concrete requests.  Bodies are not modelled.

    JavaScript strings are byte strings here and are taken to be ASCII
    (case folding touches the letters A-Z only).  Objects used as header
    maps keep their insertion order, which [Object.keys] exposes. *)

From Stdlib Require Import String Ascii List Bool ZArith NArith Lia DecimalString.
Import ListNotations.

Open Scope string_scope.
Open Scope Z_scope.

Set Implicit Arguments.

(* ===================================================================== *)
(** ** Strings *)
(* ===================================================================== *)

Module Str.

Definition lower_ascii (c : ascii) : ascii :=
    let n := nat_of_ascii c in
    if (Nat.leb 65 n && Nat.leb n 90)%bool then ascii_of_nat (n + 32) else c.

  (** [String.prototype.toLowerCase], on ASCII. *)
Fixpoint toLowerCase (s : string) : string :=
    match s with
    | EmptyString => EmptyString
    | String c r => String (lower_ascii c) (toLowerCase r)
    end.

  (** [s.lastIndexOf(p, 0) === 0], i.e. [s] starts with [p]. *)
Definition startsWith (p s : string) : bool := String.prefix p s.

  (** Case-insensitive [startsWith] for a lower-case pattern [p]
      (a literal prefix under the regular-expression flag [i]). *)
Definition startsWith_ci (p s : string) : bool :=
    String.prefix p (toLowerCase (substring 0 (String.length p) s)).

  (** The rest of [s] after the first [n] characters ([s.slice(n)]). *)
Fixpoint slice (n : nat) (s : string) : string :=
    match n, s with
    | O, _ => s
    | S n', String _ r => slice n' r
    | S _, EmptyString => EmptyString
    end.

Definition strip_prefix (p s : string) : option string :=
    if startsWith p s then Some (slice (String.length p) s) else None.

  (** [String.prototype.endsWith]. *)
Definition endsWith (suffix s : string) : bool :=
    let ls := String.length s in
    let lx := String.length suffix in
    (Nat.leb lx ls && String.eqb (slice (ls - lx) s) suffix)%bool.

  (** [Array.prototype.join] on an array of strings. *)
Definition join (sep : string) (l : list string) : string := String.concat sep l.

Definition is_digit (c : ascii) : bool :=
    let n := nat_of_ascii c in (Nat.leb 48 n && Nat.leb n 57)%bool.

  (** The regular-expression class [\s], on ASCII. *)
Definition is_space (c : ascii) : bool :=
    let n := nat_of_ascii c in
    ((Nat.leb 9 n && Nat.leb n 13) || Nat.eqb n 32)%bool.

  (** Decimal rendering of an integral JavaScript number. *)
Definition of_Z (z : Z) : string := NilZero.string_of_int (Z.to_int z).

  (** Value of a string of decimal digits ([None] if some character is not a digit). *)
Fixpoint digits_value (acc : N) (s : string) : option N :=
    match s with
    | EmptyString => Some acc
    | String c r =>
        if is_digit c
        then digits_value (acc * 10 + N.of_nat (nat_of_ascii c - 48))%N r
        else None
    end.

Fixpoint mem (x : string) (l : list string) : bool :=
    match l with
    | [] => false
    | y :: r => (String.eqb x y || mem x r)%bool
    end.

End Str.

(* ===================================================================== *)
(** ** Plain JavaScript objects used as maps *)
(* ===================================================================== *)

(** An object with string keys: the own properties in insertion order.
    Assigning to an existing key keeps its position, assigning to a new key
    appends it, [delete] removes it. *)
Definition Obj (V : Type) := list (string * V).

Module Object.
Section Ops.
Variable V : Type.

Fixpoint get (k : string) (o : Obj V) : option V :=
    match o with
    | [] => None
    | (k', v) :: r => if String.eqb k k' then Some v else get k r
    end.

Definition hasOwnProperty (k : string) (o : Obj V) : bool :=
    match get k o with Some _ => true | None => false end.

Fixpoint set (k : string) (v : V) (o : Obj V) : Obj V :=
    match o with
    | [] => [(k, v)]
    | (k', v') :: r =>
        if String.eqb k k' then (k', v) :: r else (k', v') :: set k v r
    end.

Fixpoint delete (k : string) (o : Obj V) : Obj V :=
    match o with
    | [] => []
    | (k', v') :: r =>
        if String.eqb k k' then delete k r else (k', v') :: delete k r
    end.

  (** A key that is an array index (canonical decimal numeral below
      [2^32 - 1]) and its value. *)
Definition array_index (k : string) : option N :=
    match k with
    | EmptyString => None
    | String c r =>
        if (Ascii.eqb c "0" && negb (String.eqb r ""))%bool then None
        else match Str.digits_value 0 k with
             | Some n => if (n <? 4294967295)%N then Some n else None
             | None => None
             end
    end.

Fixpoint insert_index (n : N) (k : string) (l : list (N * string)) : list (N * string) :=
    match l with
    | [] => [(n, k)]
    | (m, k') :: r =>
        if (n <? m)%N then (n, k) :: l else (m, k') :: insert_index n k r
    end.

Fixpoint index_keys (o : Obj V) : list (N * string) :=
    match o with
    | [] => []
    | (k, _) :: r =>
        match array_index k with
        | Some n => insert_index n k (index_keys r)
        | None => index_keys r
        end
    end.

Fixpoint named_keys (o : Obj V) : list string :=
    match o with
    | [] => []
    | (k, _) :: r =>
        match array_index k with
        | Some _ => named_keys r
        | None => k :: named_keys r
        end
    end.

  (** [Object.keys]: array-index keys in ascending order, then the other
      keys in insertion order. *)
Definition keys (o : Obj V) : list string :=
    map snd (index_keys o) ++ named_keys o.

End Ops.
End Object.

(* ===================================================================== *)
(** ** Header values *)
(* ===================================================================== *)

(** The values found in a response header object: strings, the number that
    [withCORS] stores for [access-control-max-age], and the array Node uses
    for repeated headers such as [set-cookie]. *)
Inductive hval : Type :=
| HStr (s : string)
| HNum (n : Z)
| HArr (l : list string).

Definition hval_truthy (v : hval) : bool :=
  match v with
  | HStr s => negb (String.eqb s "")
  | HNum n => negb (n =? 0)
  | HArr _ => true
  end.

(** String conversion of a header value. *)
Definition hval_string (v : hval) : string :=
  match v with
  | HStr s => s
  | HNum n => Str.of_Z n
  | HArr l => Str.join "," l
  end.

(* ===================================================================== *)
(** ** Parsed URLs and the runtime the proxy is written against *)
(* ===================================================================== *)

Module Url.

(** The object returned by Node's [url.parse]; an absent field is [null]. *)
Record t : Type := mk {
  protocol : option string;
  slashes : bool;
  auth : option string;
  host : option string;
  port : option string;
  hostname : option string;
  hash : option string;
  search : option string;
  pathname : option string;
  path : option string;
  href : string }.

Definition set_host (h : option string) (u : t) : t :=
  mk (protocol u) (slashes u) (auth u) h (port u) (hostname u) (hash u) (search u)
     (pathname u) (path u) (href u).

Definition set_hostname (h : option string) (u : t) : t :=
  mk (protocol u) (slashes u) (auth u) (host u) (port u) h (hash u) (search u)
     (pathname u) (path u) (href u).

End Url.

(** Truthiness of a string-or-null value. *)
Definition truthy (s : option string) : bool :=
  match s with
  | Some v => negb (String.eqb v "")
  | None => false
  end.

(** What the module imports and does not define: Node's [url] and [net]
    modules, and the top-level-domain pattern of
    [lib/regexp-top-level-domain.js], which is taken as a parameter. *)
Class Runtime : Type := {
  url_parse : string -> Url.t;
  url_format : Url.t -> string;
  url_resolve : string -> string -> string;
  net_isIPv4 : string -> bool;
  net_isIPv6 : string -> bool;
  regexp_tld_test : string -> bool }.

(* ===================================================================== *)
(** ** Requests *)
(* ===================================================================== *)

(** Result handed by a [dnsLookup] function to its callback. *)
Inductive Lookup : Type :=
| LookupError (err : string)
| LookupAddress (address : string).

(** [req.corsAnywhereRequestState].  [location] and [proxyBaseUrl] are
    absent until the handler admits the request; [redirectCount_] is absent
    until the first redirect is seen. *)
Record RequestState : Type := mkState {
  getProxyForUrl : string -> option string;
  maxRedirects : Z;
  corsMaxAge : Z;
  dnsLookup : option (string -> Lookup);
  location : option Url.t;
  proxyBaseUrl : option string;
  redirectCount_ : option Z }.

(** The incoming request; [encrypted] is [req.connection.encrypted]. *)
Record Request : Type := mkRequest {
  method : string;
  url : string;
  headers : Obj string;
  encrypted : bool;
  corsAnywhereRequestState : RequestState }.

Definition with_headers (h : Obj string) (r : Request) : Request :=
  mkRequest (method r) (url r) h (encrypted r) (corsAnywhereRequestState r).

Definition with_state (s : RequestState) (r : Request) : Request :=
  mkRequest (method r) (url r) (headers r) (encrypted r) s.

Definition with_method (m : string) (r : Request) : Request :=
  mkRequest m (url r) (headers r) (encrypted r) (corsAnywhereRequestState r).

Definition with_url (u : string) (r : Request) : Request :=
  mkRequest (method r) u (headers r) (encrypted r) (corsAnywhereRequestState r).

(* ===================================================================== *)
(** ** CORS header synthesis *)
(* ===================================================================== *)

(** [if (request.headers[from]) { headers[to] = request.headers[from];
    delete request.headers[from]; }] *)
Definition mirror_request_header (from to : string)
    (hr : Obj hval * Request) : Obj hval * Request :=
  let (h, request) := hr in
  if truthy (Object.get from (headers request))
  then match Object.get from (headers request) with
       | Some v => (Object.set to (HStr v) h,
                    with_headers (Object.delete from (headers request)) request)
       | None => (h, request)
       end
  else (h, request).

(** The header object as it stands when [withCORS] reads [Object.keys]:
    lines 55-67 of the source. *)
Definition withCORS_allow (h : Obj hval) (request : Request) : Obj hval * Request :=
  let h := Object.set "access-control-allow-origin" (HStr "*") h in
  let corsMaxAge := corsMaxAge (corsAnywhereRequestState request) in
  let h := if (String.eqb (method request) "OPTIONS" && negb (corsMaxAge =? 0))%bool
           then Object.set "access-control-max-age" (HNum corsMaxAge) h
           else h in
  mirror_request_header "access-control-request-headers" "access-control-allow-headers"
    (mirror_request_header "access-control-request-method" "access-control-allow-methods"
       (h, request)).

(** [withCORS(headers, request)]: the header object it returns, and the
    request, whose [access-control-request-*] headers it deletes. *)
Definition withCORS (h : Obj hval) (request : Request) : Obj hval * Request :=
  let (h, request) := withCORS_allow h request in
  let h := Object.set "access-control-expose-headers"
             (HStr (Str.join "," (Object.keys h))) h in
  let h := Object.set "access-control-allow-credentials" (HStr "true") h in
  (h, request).

(* ===================================================================== *)
(** ** URL extraction *)
(* ===================================================================== *)

(** [req_url.replace(/^http(s?):\/(?!\/)/, 'http$1://')]: a scheme followed
    by exactly one slash gets its second slash back. *)
Definition repair_single_slash (req_url : string) : string :=
  match Str.strip_prefix "http" req_url with
  | None => req_url
  | Some r =>
      let (s, r1) := match Str.strip_prefix "s" r with
                     | Some r1 => ("s", r1)
                     | None => ("", r)
                     end in
      match Str.strip_prefix ":/" r1 with
      | None => req_url
      | Some r2 =>
          if Str.startsWith "/" r2 then req_url
          else "http" ++ s ++ "://" ++ r2
      end
  end.

(** The capture groups of the pattern in [parseURL]; an unset group is
    [undefined]. *)
Record UrlMatch : Type := mkMatch {
  m_protocol : option string;      (* 1 *)
  m_host : string;                 (* 2 *)
  m_hostname : string;             (* 3 *)
  m_port : option string;          (* 4 *)
  m_path : string }.               (* 5 *)

(** [[\/?]] *)
Definition is_path_start (c : ascii) : bool :=
  (Ascii.eqb c "/" || Ascii.eqb c "?")%bool.

(** [(?=[\/?]|$)] *)
Definition at_path_or_end (s : string) : bool :=
  match s with
  | EmptyString => true
  | String c _ => is_path_start c
  end.

(** Greedy [\d{0,n}]: the digits taken and the rest. *)
Fixpoint take_digits (n : nat) (s : string) : string * string :=
  match n, s with
  | S n', String c r =>
      if Str.is_digit c
      then let (d, rest) := take_digits n' r in (String c d, rest)
      else (EmptyString, s)
  | _, _ => (EmptyString, s)
  end.

(** [(?::(\d{0,5})(?=[\/?]|$))]: the port and what follows it.  Giving
    back digits never helps, since the look-ahead would then face a digit. *)
Definition match_port (s : string) : option (string * string) :=
  match s with
  | String ":" r =>
      let (d, rest) := take_digits 5 r in
      if at_path_or_end rest then Some (d, rest) else None
  | _ => None
  end.

(** The lazy [[^\/?]+?] once its first character is taken, followed by the
    optional port group and by [([\/?][\S\s]*|$)]: the further characters
    of the host name, the port and the path.  The host name is extended by
    one character only when neither the port group nor the path matches
    here. *)
Fixpoint match_host_tail (s : string) : option (string * option string * string) :=
  match match_port s with
  | Some (p, rest) => Some (EmptyString, Some p, rest)
  | None =>
      match s with
      | EmptyString => Some (EmptyString, None, EmptyString)
      | String c r =>
          if is_path_start c then Some (EmptyString, None, s)
          else match match_host_tail r with
               | Some (h, p, rest) => Some (String c h, p, rest)
               | None => None
               end
      end
  end.

(** Groups 2 to 5 matched at the start of [s]. *)
Definition match_host (proto : option string) (s : string) : option UrlMatch :=
  match s with
  | EmptyString => None
  | String c r =>
      if is_path_start c then None
      else match match_host_tail r with
           | Some (h, p, rest) =>
               let hostname := String c h in
               let host := match p with
                           | Some d => hostname ++ ":" ++ d
                           | None => hostname
                           end in
               Some (mkMatch proto host hostname p rest)
           | None => None
           end
  end.

(** The prefix [(?:(https?:)?\/\/)?] under flag [i]: the scheme captured
    (if any) and the rest, or [None] when the group cannot match. *)
Definition match_scheme_slashes (s : string) : option (option string * string) :=
  if Str.startsWith_ci "https://" s then Some (Some (substring 0 6 s), Str.slice 8 s)
  else if Str.startsWith_ci "http://" s then Some (Some (substring 0 5 s), Str.slice 7 s)
  else if Str.startsWith "//" s then Some (None, Str.slice 2 s)
  else None.

(** [req_url.match(/^(?:(https?:)?\/\/)?(([^\/?]+?)(?::(\d{0,5})(?=[\/?]|$))?)([\/?][\S\s]*|$)/i)].
    The optional prefix is tried first; when the rest then fails, the
    match is retried with the prefix left out. *)
Definition url_match (s : string) : option UrlMatch :=
  match match_scheme_slashes s with
  | Some (proto, rest) =>
      match match_host proto rest with
      | Some m => Some m
      | None => match_host None s
      end
  | None => match_host None s
  end.

(** [/^https?:/i.test(s)] *)
Definition has_scheme_ci (s : string) : bool :=
  (Str.startsWith_ci "http:" s || Str.startsWith_ci "https:" s)%bool.

Section WithRuntime.
Context {RT : Runtime}.

(** [parseURL(req_url)]; [None] is [null]. *)
Definition parseURL (req_url : string) : option Url.t :=
  let req_url := repair_single_slash req_url in
  match url_match req_url with
  | None => None
  | Some m =>
      let scheme_added :=
        match m_protocol m with
        | Some _ => Some req_url
        | None =>
            if has_scheme_ci req_url then None
            else
              let req_url :=
                if Str.startsWith "//" req_url then req_url else "//" ++ req_url in
              Some ((match m_port m with
                     | Some "443" => "https:"
                     | _ => "http:"
                     end) ++ req_url)
        end in
      match scheme_added with
      | None => None
      | Some req_url =>
          let parsed := url_parse req_url in
          if truthy (Url.hostname parsed) then Some parsed else None
      end
  end.

(** [isValidHostName(hostname)] *)
Definition isValidHostName (hostname : string) : bool :=
  (regexp_tld_test hostname || net_isIPv4 hostname || net_isIPv6 hostname)%bool.

End WithRuntime.

(* ===================================================================== *)
(** ** The request handler *)
(* ===================================================================== *)

(** The [requireHeader] option as the caller may give it. *)
Inductive RequireHeaderOption : Type :=
| RequireFalsy                              (* null, undefined, '' ... *)
| RequireString (name : string)             (* a string; the empty one is falsy *)
| RequireArray (names : list string)
| RequireOther.                             (* any other truthy value *)

Module corsAnywhere.

(** The [corsAnywhere] object of [getHandler], after the caller's options
    have been copied over the defaults.  The hooks see the request (and the
    parsed location) and answer; what else they do is their own business. *)
Record t : Type := mk {
  handleInitialRequest : option (Request -> option Url.t -> bool);
  getProxyForUrl : string -> option string;
  maxRedirects : Z;
  targetBlacklist : list string;
  targetWhitelist : list string;
  originBlacklist : list string;
  originWhitelist : list string;
  checkRateLimit : option (string -> option string);
  redirectSameOrigin : bool;
  requireHeader : RequireHeaderOption;
  removeHeaders : list string;
  setHeaders : Obj string;
  corsMaxAge : Z;
  helpFile : string;
  dnsLookup : option (string -> Lookup) }.

End corsAnywhere.

(** Lines 301-311: [requireHeader] as an array of lower-case names, or [null]. *)
Definition normalize_requireHeader (o : RequireHeaderOption) : option (list string) :=
  match o with
  | RequireFalsy => None
  | RequireString name =>
      if String.eqb name EmptyString then None else Some [Str.toLowerCase name]
  | RequireArray [] => None
  | RequireArray names => Some (map Str.toLowerCase names)
  | RequireOther => None
  end.

(** What the handler does to the response, or hands the request to. *)
Inductive Outcome : Type :=
| Replied (status : Z) (reason : option string) (headers : Obj hval) (body : string)
    (* res.writeHead(status, reason, headers); res.end(body) *)
| Usage (help_file : string) (headers : Obj hval)
    (* showUsage(help_file, headers, res) *)
| Handled
    (* handleInitialRequest answered the request *)
| Proxied (req : Request).
    (* proxyRequest(req, res, proxy) *)

(** A call of one of the configured hooks, with its argument. *)
Inductive Call : Type :=
| CallHandleInitialRequest (location : option Url.t)
| CallCheckRateLimit (origin : string).

Definition or_empty (s : option string) : string :=
  match s with Some v => v | None => "" end.

(** String concatenation with a value that may be [null] or [undefined]. *)
Definition show (undef : string) (s : option string) : string :=
  match s with Some v => v | None => undef end.

Definition newline : string := String (ascii_of_nat 10) EmptyString.

Definition dquote : string := String (ascii_of_nat 34) EmptyString.

(** [/\.html$/.test(help_file)] and the content type [showUsage] sets. *)
Definition showUsage (help_file : string) (h : Obj hval) : Outcome :=
  let isHtml := Str.endsWith ".html" help_file in
  Usage help_file
        (Object.set "content-type" (HStr (if isHtml then "text/html" else "text/plain")) h).

(** [/^\/https?:\/[^/]/i.test(url)] *)
Definition looks_like_missing_slash (url : string) : bool :=
  match Str.strip_prefix "/" url with
  | None => false
  | Some r =>
      let after (n : nat) :=
        match Str.slice n r with
        | String c _ => negb (Ascii.eqb c "/")
        | EmptyString => false
        end in
      ((Str.startsWith_ci "http:/" r && after 6%nat)
       || (Str.startsWith_ci "https:/" r && after 7%nat))%bool
  end.

(** [/^\/https?:/.test(url)] *)
Definition has_explicit_scheme (url : string) : bool :=
  (Str.startsWith "/http:" url || Str.startsWith "/https:" url)%bool.

(** [location.port > 65535] *)
Definition port_too_large (location : Url.t) : bool :=
  match Url.port location with
  | Some p => match Str.digits_value 0 p with
              | Some n => (65535 <? n)%N
              | None => false
              end
  | None => false
  end.

(** The callback of [targetBlacklist.some] at lines 398-401. *)
Definition blacklist_some_callback (hostname domain : string) : bool :=
  let domain := Str.toLowerCase domain in
  (negb (String.eqb hostname domain) || Str.endsWith ("." ++ domain) hostname)%bool.

(** The callback of [targetWhitelist.some] at lines 410-413. *)
Definition whitelist_some_callback (hostname domain : string) : bool :=
  let domain := Str.toLowerCase domain in
  (String.eqb hostname domain || Str.endsWith ("." ++ domain) hostname)%bool.

(** [/^\s*https/.test(v)]; an absent header is tested as ["undefined"]. *)
Fixpoint forwarded_as_https (v : string) : bool :=
  match v with
  | String c r => if Str.is_space c then forwarded_as_https r else Str.startsWith "https" v
  | EmptyString => false
  end.

(** [location.href[origin.length] === '/' && location.href.lastIndexOf(origin, 0) === 0] *)
Definition same_origin (origin href : string) : bool :=
  (match Str.slice (String.length origin) href with
   | String c _ => Ascii.eqb c "/"
   | EmptyString => false
   end && Str.startsWith origin href)%bool.

Section Handler.
Context {RT : Runtime}.
Variable options : corsAnywhere.t.

(** [hasRequiredHeaders(headers)] *)
Definition hasRequiredHeaders (h : Obj string) : bool :=
  match normalize_requireHeader (corsAnywhere.requireHeader options) with
  | None => true
  | Some names => existsb (fun headerName => Object.hasOwnProperty headerName h) names
  end.

(** The state the handler attaches to the request (lines 319-324). *)
Definition initial_state : RequestState :=
  mkState (corsAnywhere.getProxyForUrl options) (corsAnywhere.maxRedirects options)
          (corsAnywhere.corsMaxAge options) (corsAnywhere.dnsLookup options)
          None None None.

(** Lines 438-452: the request as it is handed to [proxyRequest]. *)
Definition hand_over (req : Request) (location : Url.t) : Request :=
  let isRequestedOverHttps :=
    (encrypted req
     || forwarded_as_https (show "undefined" (Object.get "x-forwarded-proto" (headers req))))%bool in
  let proxyBaseUrl :=
    (if isRequestedOverHttps then "https://" else "http://")
      ++ show "undefined" (Object.get "host" (headers req)) in
  let h := fold_left (fun h header => Object.delete header h)
                     (corsAnywhere.removeHeaders options) (headers req) in
  let h := fold_left (fun h header =>
                        match Object.get header (corsAnywhere.setHeaders options) with
                        | Some v => Object.set header v h
                        | None => h
                        end)
                     (Object.keys (corsAnywhere.setHeaders options)) h in
  let st := corsAnywhereRequestState req in
  with_state (mkState (getProxyForUrl st) (maxRedirects st) (corsMaxAge st) (dnsLookup st)
                      (Some location) (Some proxyBaseUrl) (redirectCount_ st))
             (with_headers h req).

(** Lines 383-452: the checks that use the origin and the target, for a
    request whose target [location] was parsed. *)
Definition policy_checks (req : Request) (cors_headers : Obj hval) (location : Url.t)
    : list Call * Outcome :=
  let origin := match Object.get "origin" (headers req) with
                | Some o => o
                | None => ""
                end in
  if Str.mem origin (corsAnywhere.originBlacklist options) then
    ([], Replied 403 (Some "Forbidden") cors_headers
           ("The origin " ++ dquote ++ origin ++ dquote ++ " was blacklisted by the operator of this proxy."))
  else if (negb (Nat.eqb (length (corsAnywhere.originWhitelist options)) 0)
           && negb (Str.mem origin (corsAnywhere.originWhitelist options)))%bool then
    ([], Replied 403 (Some "Forbidden") cors_headers
           ("The origin " ++ dquote ++ origin ++ dquote ++ " was not whitelisted by the operator of this proxy."))
  else if (Nat.ltb 0 (length (corsAnywhere.targetBlacklist options))
           && negb (existsb (blacklist_some_callback
                               (Str.toLowerCase (or_empty (Url.hostname location))))
                            (corsAnywhere.targetBlacklist options)))%bool then
    ([], Replied 403 (Some "Forbidden") cors_headers
           ("The target URL hostname " ++ dquote ++ or_empty (Url.hostname location)
              ++ dquote ++ " is not allowed by this proxy."))
  else if (Nat.ltb 0 (length (corsAnywhere.targetWhitelist options))
           && negb (existsb (whitelist_some_callback
                               (Str.toLowerCase (or_empty (Url.hostname location))))
                            (corsAnywhere.targetWhitelist options)))%bool then
    ([], Replied 403 (Some "Forbidden") cors_headers
           ("The target URL hostname " ++ dquote ++ or_empty (Url.hostname location)
              ++ dquote ++ " is not allowed by this proxy."))
  else
    let rateLimitMessage :=
      match corsAnywhere.checkRateLimit options with
      | Some check => check origin
      | None => None
      end in
    let calls :=
      match corsAnywhere.checkRateLimit options with
      | Some _ => [CallCheckRateLimit origin]
      | None => []
      end in
    if truthy rateLimitMessage then
      (calls, Replied 429 (Some "Too Many Requests") cors_headers
                ("The origin " ++ dquote ++ origin ++ dquote ++ " has sent too many requests." ++ newline
                   ++ or_empty rateLimitMessage))
    else if (corsAnywhere.redirectSameOrigin options
             && negb (String.eqb origin "")
             && same_origin origin (Url.href location))%bool then
      (calls, Replied 301 (Some "Please use a direct request")
                (Object.set "location" (HStr (Url.href location))
                   (Object.set "cache-control" (HStr "private")
                      (Object.set "vary" (HStr "origin") cors_headers)))
                "")
    else (calls, Proxied (hand_over req location)).

(** Lines 354-381: the checks on a parsed target that come before the
    origin is read. *)
Definition target_checks (req : Request) (cors_headers : Obj hval) (location : Url.t)
    : list Call * Outcome :=
  if match Url.host location with
     | Some h => String.eqb h "iscorsneeded"
     | None => false
     end then
    ([], Replied 200 None [("Content-Type", HStr "text/plain")] "no")
  else if port_too_large location then
    ([], Replied 400 (Some "Invalid port") cors_headers
           ("Port number too large: " ++ show "null" (Url.port location)))
  else if (negb (has_explicit_scheme (url req))
           && negb (isValidHostName (or_empty (Url.hostname location))))%bool then
    ([], Replied 404 (Some "Invalid host") cors_headers
           ("Invalid host: " ++ or_empty (Url.hostname location)))
  else if negb (hasRequiredHeaders (headers req)) then
    ([], Replied 400 (Some "Header required") cors_headers
           ("Missing required request header. Must specify one of: "
              ++ Str.join "," (match normalize_requireHeader (corsAnywhere.requireHeader options) with
                               | Some names => names
                               | None => []
                               end)))
  else policy_checks req cors_headers location.

(** The function returned by [getHandler(options, proxy)]: the hook calls
    it makes, in order, and what becomes of the request. *)
Definition handler (req : Request) : list Call * Outcome :=
  let req := with_state initial_state req in
  let (cors_headers, req) := withCORS [] req in
  if String.eqb (method req) "OPTIONS" then
    ([], Replied 200 None cors_headers "")
  else
    let location := parseURL (Str.slice 1 (url req)) in
    let calls :=
      match corsAnywhere.handleInitialRequest options with
      | Some _ => [CallHandleInitialRequest location]
      | None => []
      end in
    if match corsAnywhere.handleInitialRequest options with
       | Some hook => hook req location
       | None => false
       end then (calls, Handled)
    else
      match location with
      | None =>
          if looks_like_missing_slash (url req) then
            (calls, Replied 400 (Some "Missing slash") cors_headers
                      "The URL is invalid: two slashes are needed after the http(s):.")
          else (calls, showUsage (corsAnywhere.helpFile options) cors_headers)
      | Some location =>
          let (more, outcome) := target_checks req cors_headers location in
          ((calls ++ more)%list, outcome)
      end.

End Handler.

(* ===================================================================== *)
(** ** Responses *)
(* ===================================================================== *)

Module Res.

(** Node's [ServerResponse], as far as the proxy touches it.  Headers are
    kept under their lower-cased name, together with the name as given;
    [writableEnded] exists from Node 12.9 on. *)
Record t : Type := mk {
  headersSent : bool;
  writableEnded : bool;
  statusCode : Z;
  statusMessage : option string;
  headers : Obj (string * hval);
  body : string }.

Definition fresh : t := mk false false 200 None [] EmptyString.

Definition setHeader (name : string) (v : hval) (r : t) : t :=
  mk (headersSent r) (writableEnded r) (statusCode r) (statusMessage r)
     (Object.set (Str.toLowerCase name) (name, v) (headers r)) (body r).

Definition removeHeader (name : string) (r : t) : t :=
  mk (headersSent r) (writableEnded r) (statusCode r) (statusMessage r)
     (Object.delete (Str.toLowerCase name) (headers r)) (body r).

Definition getHeaderNames (r : t) : list string := Object.keys (headers r).

Definition getHeader (name : string) (r : t) : option hval :=
  option_map snd (Object.get (Str.toLowerCase name) (headers r)).

(** [res.writeHead(status, reason, headers)] *)
Definition writeHead (status : Z) (reason : option string) (h : Obj hval) (r : t) : t :=
  let r := fold_left (fun r k => match Object.get k h with
                                 | Some v => setHeader k v r
                                 | None => r
                                 end) (Object.keys h) r in
  mk true (writableEnded r) status
     (match reason with Some m => Some m | None => statusMessage r end)
     (headers r) (body r).

(** [res.end(data)]; headers not sent yet go out with the current status. *)
Definition end_ (data : string) (r : t) : t :=
  mk true true (statusCode r) (statusMessage r) (headers r) (body r ++ data).

End Res.

Module ProxyRes.

(** The response of the target, as http-proxy hands it to its listeners. *)
Record t : Type := mk {
  statusCode : Z;
  headers : Obj hval }.

End ProxyRes.

(* ===================================================================== *)
(** ** Response mediation and redirects *)
(* ===================================================================== *)

(** What [onProxyResponse] does with a response of the target. *)
Inductive Mediated : Type :=
| Redirected (req : Request) (res : Res.t)
    (* lines 194-206: the redirect is followed; proxyRequest(req, res, proxy)
       is called and false is returned *)
| Finalized (proxyRes : ProxyRes.t) (req : Request) (res : Res.t)
    (* true is returned: http-proxy goes on with proxyRes *)
| MediationThrew.
    (* requestState.location is undefined: TypeError *)

(** [requestState.redirectCount_ + 1 || 1] *)
Definition next_redirectCount (c : option Z) : Z :=
  match c with
  | Some c => if c + 1 =? 0 then 1 else c + 1
  | None => 1
  end.

(** [!requestState.redirectCount_] *)
Definition no_redirect_yet (c : option Z) : bool :=
  match c with
  | Some c => c =? 0
  | None => true
  end.

Definition is_redirect_status (statusCode : Z) : bool :=
  ((statusCode =? 301) || (statusCode =? 302) || (statusCode =? 303)
   || (statusCode =? 307) || (statusCode =? 308))%bool.

Definition is_followed_status (statusCode : Z) : bool :=
  ((statusCode =? 301) || (statusCode =? 302) || (statusCode =? 303))%bool.

Definition with_redirectCount (c : Z) (req : Request) : Request :=
  let st := corsAnywhereRequestState req in
  with_state (mkState (getProxyForUrl st) (maxRedirects st) (corsMaxAge st) (dnsLookup st)
                      (location st) (proxyBaseUrl st) (Some c)) req.

Definition with_location (l : Url.t) (req : Request) : Request :=
  let st := corsAnywhereRequestState req in
  with_state (mkState (getProxyForUrl st) (maxRedirects st) (corsMaxAge st) (dnsLookup st)
                      (Some l) (proxyBaseUrl st) (redirectCount_ st)) req.

Definition with_proxyRes_headers (h : Obj hval) (p : ProxyRes.t) : ProxyRes.t :=
  ProxyRes.mk (ProxyRes.statusCode p) h.

Section Mediation.
Context {RT : Runtime}.

(** Lines 216-224: cookies are dropped, the final URL and the CORS headers
    are added. *)
Definition finalize (location : Url.t) (proxyRes : ProxyRes.t) (req : Request) (res : Res.t)
    : Mediated :=
  let h := Object.delete "set-cookie" (ProxyRes.headers proxyRes) in
  let h := Object.delete "set-cookie2" h in
  let h := Object.set "x-final-url" (HStr (Url.href location)) h in
  let (h, req) := withCORS h req in
  Finalized (with_proxyRes_headers h proxyRes) req res.

(** Line 212: the location is made to point back at the proxy. *)
Definition rewrite_location (req : Request) (locationHeader : string) (proxyRes : ProxyRes.t)
    : ProxyRes.t :=
  with_proxyRes_headers
    (Object.set "location"
       (HStr (show "undefined" (proxyBaseUrl (corsAnywhereRequestState req))
                ++ "/" ++ locationHeader))
       (ProxyRes.headers proxyRes))
    proxyRes.

(** [onProxyResponse(proxy, proxyReq, proxyRes, req, res)] up to the nested
    call of [proxyRequest], which the caller of this function makes. *)
Definition onProxyResponse (proxyRes : ProxyRes.t) (req : Request) (res : Res.t) : Mediated :=
  let requestState := corsAnywhereRequestState req in
  match location requestState with
  | None => MediationThrew
  | Some loc =>
      let statusCode := ProxyRes.statusCode proxyRes in
      let res :=
        if (negb (Res.headersSent res) && no_redirect_yet (redirectCount_ requestState))%bool
        then Res.setHeader "x-request-url" (HStr (Url.href loc)) res
        else res in
      if is_redirect_status statusCode then
        match Object.get "location" (ProxyRes.headers proxyRes) with
        | Some v =>
            if hval_truthy v then
              let locationHeader := url_resolve (Url.href loc) (hval_string v) in
              match parseURL locationHeader with
              | Some parsedLocation =>
                  if is_followed_status statusCode then
                    let count := next_redirectCount (redirectCount_ requestState) in
                    let req := with_redirectCount count req in
                    if count <=? maxRedirects requestState then
                      let res :=
                        if negb (Res.headersSent res)
                        then Res.setHeader ("X-CORS-Redirect-" ++ Str.of_Z count)
                               (HStr (Str.of_Z statusCode ++ " " ++ locationHeader)) res
                        else res in
                      let req := with_method "GET" req in
                      let req := with_headers
                                   (Object.delete "content-type"
                                      (Object.set "content-length" "0" (headers req))) req in
                      Redirected (with_location parsedLocation req) res
                    else finalize loc (rewrite_location req locationHeader proxyRes) req res
                  else finalize loc (rewrite_location req locationHeader proxyRes) req res
              | None => finalize loc proxyRes req res
              end
            else finalize loc proxyRes req res
        | None => finalize loc proxyRes req res
        end
      else finalize loc proxyRes req res
  end.

End Mediation.

(* ===================================================================== *)
(** ** The forwarding engine *)
(* ===================================================================== *)

(** [proxyOptions.target]: the parsed location, or the URL of an upstream
    proxy. *)
Inductive Target : Type :=
| TargetLocation (location : Url.t)
| TargetString (url : string).

(** One call [proxy.web(req, res, proxyOptions)]. *)
Record Outbound : Type := mkOutbound {
  out_request : Request;
  out_target : Target;
  out_toProxy : bool;
  out_host : option string }.      (* proxyOptions.headers.host *)

(** What becomes of an outbound exchange: the target answers, the call
    throws (the [catch] at line 141 sees it), or http-proxy reports a
    failure later through its ['error'] event. *)
Inductive Exchange : Type :=
| Responds (proxyRes : ProxyRes.t)
| Throws (err : string)
| Fails (err : string).

(** A listener of the proxy's ['error'] event. *)
Definition ErrorListener : Type := string -> Request -> Res.t -> Res.t.

(** The http-proxy server object: the exchange made by its [n]-th [web]
    call for this request, and the listeners of ['error']. *)
Record HttpProxy : Type := mkProxy {
  web : nat -> Outbound -> Exchange;
  error_listeners : list ErrorListener }.

(** How the handling of an admitted request ends. *)
Inductive Ending : Type :=
| PassedThrough (proxyRes : ProxyRes.t)
    (* onProxyResponse returned true for this (mediated) response *)
| ErrorEmitted (err : string)        (* the 'error' listeners ran *)
| ErrorUnhandled (err : string)      (* 'error' had no listener, or the exception escaped *)
| TypeError                          (* requestState.location is undefined *)
| OutOfFuel.

Record Run : Type := mkRun {
  exchanges : list Outbound;         (* the calls of proxy.web, in order *)
  run_res : Res.t;                   (* the response to the client at the end *)
  ending : Ending }.

(** [proxy.emit('error', err, req, res)], given the listeners of ['error']. *)
Definition emit_error (listeners : list ErrorListener) (err : string) (req : Request)
    (res : Res.t) : Res.t * Ending :=
  match listeners with
  | [] => (res, ErrorUnhandled err)
  | ls => (fold_left (fun r (l : ErrorListener) => l err req r) ls res, ErrorEmitted err)
  end.

(** What http-proxy does with the response once its ['proxyRes'] listeners
    have returned: unless headers were sent it copies status and headers
    onto [res], and unless [res] is finished it pipes the body into it. *)
Definition deliver (proxyRes : ProxyRes.t) (res : Res.t) : Res.t :=
  let res :=
    if Res.headersSent res then res
    else
      let r := fold_left (fun r k => match Object.get k (ProxyRes.headers proxyRes) with
                                     | Some v => Res.setHeader k v r
                                     | None => r
                                     end)
                         (Object.keys (ProxyRes.headers proxyRes)) res in
      Res.mk (Res.headersSent r) (Res.writableEnded r) (ProxyRes.statusCode proxyRes)
             (Res.statusMessage r) (Res.headers r) (Res.body r) in
  if Res.writableEnded res then res else Res.end_ EmptyString res.

(** Lines 110-117: when [onProxyResponse] has returned false, [res] is ended
    unless it already is.  [nested] tells that this [proxyRequest] was
    called from [onProxyResponse]. *)
Definition end_after_redirect (nested : bool) (res : Res.t) : Res.t :=
  if (nested && negb (Res.writableEnded res))%bool then Res.end_ EmptyString res else res.

(** What the synchronous part of [proxyRequest] ends in. *)
Inductive Started : Type :=
| Calls (out : Outbound) (guarded : bool)
    (* proxy.web(req, res, proxyOptions) is called: inside the try block
       (guarded), or from the callback of dnsLookup *)
| LookupFails (req : Request) (err : string).
    (* the callback of dnsLookup emits the error *)

Section Engine.
Context {RT : Runtime}.

(** Lines 83-102: the request and the options of the outbound call. *)
Definition outbound (req : Request) (loc : Url.t) : Outbound :=
  let req := with_url (or_empty (Url.path loc)) req in
  let proxyThroughUrl := getProxyForUrl (corsAnywhereRequestState req) (Url.href loc) in
  if truthy proxyThroughUrl then
    mkOutbound (with_url (Url.href loc) req) (TargetString (or_empty proxyThroughUrl))
               true (Url.host loc)
  else mkOutbound req (TargetLocation loc) false (Url.host loc).

(** Lines 122-143.  [url.parse] returns a parsed location as it is, so the
    assignments to [targetUrl] change the location held by the request
    state when the target is that location. *)
Definition start_exchange (req : Request) (loc : Url.t) : Started :=
  let out := outbound req loc in
  match dnsLookup (corsAnywhereRequestState req) with
  | None => Calls out true
  | Some lookup =>
      let targetUrl := match out_target out with
                       | TargetLocation l => l
                       | TargetString s => url_parse s
                       end in
      match lookup (or_empty (Url.hostname targetUrl)) with
      | LookupError err => LookupFails (out_request out) err
      | LookupAddress address =>
          let targetUrl := Url.set_hostname (Some address) (Url.set_host None targetUrl) in
          let req := match out_target out with
                     | TargetLocation _ => with_location targetUrl (out_request out)
                     | TargetString _ => out_request out
                     end in
          Calls (mkOutbound req (TargetString (url_format targetUrl)) (out_toProxy out)
                            (out_host out))
                false
      end
  end.

Variable proxy : HttpProxy.

(** [proxyRequest(req, res, proxy)] together with the ['proxyRes'] listener
    it installs (lines 108-119), for a request that is alone on the proxy:
    the listener then runs for the answer to this request's own exchange.
    [n] counts the exchanges made before.  The synchronous part runs
    first; a nested call returns to [onProxyResponse], which returns false
    to the listener, which ends [res]; the answer of the target arrives
    after that.  A [dnsLookup] function is taken to call back
    asynchronously, as [dns.lookup] does. *)
Fixpoint proxyRequest (fuel : nat) (n : nat) (nested : bool) (req : Request) (res : Res.t)
    : Run :=
  match fuel with
  | O => mkRun [] res OutOfFuel
  | S fuel =>
      match location (corsAnywhereRequestState req) with
      | None => mkRun [] res TypeError
      | Some loc =>
          match start_exchange req loc with
          | LookupFails req err =>
              let (res, e) := emit_error (error_listeners proxy) err req (end_after_redirect nested res) in
              mkRun [] res e
          | Calls out guarded =>
              let req := out_request out in
              match web proxy n out with
              | Throws err =>
                  if guarded then
                    let (res, e) := emit_error (error_listeners proxy) err req res in
                    mkRun [out] (end_after_redirect nested res) e
                  else mkRun [out] (end_after_redirect nested res) (ErrorUnhandled err)
              | Fails err =>
                  let (res, e) := emit_error (error_listeners proxy) err req (end_after_redirect nested res) in
                  mkRun [out] res e
              | Responds proxyRes =>
                  let res := end_after_redirect nested res in
                  match onProxyResponse proxyRes req res with
                  | MediationThrew => mkRun [out] res TypeError
                  | Finalized proxyRes _ res =>
                      mkRun [out] (deliver proxyRes res) (PassedThrough proxyRes)
                  | Redirected req res =>
                      let r := proxyRequest fuel (S n) true req res in
                      mkRun (out :: exchanges r) (run_res r) (ending r)
                  end
              end
          end
      end
  end.

(** Fuel that suffices for a request in state [st]: one exchange, and one
    more for each redirect the counter still allows. *)
Definition enough_fuel (req : Request) : nat :=
  let st := corsAnywhereRequestState req in
  S (Z.to_nat (maxRedirects st
               - match redirectCount_ st with Some c => c | None => 0 end)).

End Engine.

(* ===================================================================== *)
(** ** The fallback error listener *)
(* ===================================================================== *)

(** Lines 490-512: the listener [createServer] installs for ['error']. *)
Definition default_error_listener : ErrorListener :=
  fun err _req res =>
    if Res.headersSent res then
      if negb (Res.writableEnded res) then Res.end_ EmptyString res else res
    else
      let headerNames := Res.getHeaderNames res in
      let res := fold_left (fun r name => Res.removeHeader name r) headerNames res in
      let res := Res.writeHead 404 None [("Access-Control-Allow-Origin", HStr "*")] res in
      Res.end_ ("Not found because of proxy error: " ++ err) res.

(** [httpProxyOptions.customListeners]: event names and their listeners;
    only the listeners of ['error'] play a part here. *)
Definition CustomListeners : Type := Obj ErrorListener.

(** Lines 484-513: the ['error'] listeners of the proxy that [createServer]
    sets up.  With a [customListeners] option the fallback is not installed. *)
Definition createServer_error_listeners (customListeners : option CustomListeners)
    : list ErrorListener :=
  match customListeners with
  | Some listeners =>
      fold_right (fun event acc =>
                    if String.eqb event "error"
                    then match Object.get event listeners with
                         | Some l => l :: acc
                         | None => acc
                         end
                    else acc)
                 [] (Object.keys listeners)
  | None => [default_error_listener]
  end.

(* ===================================================================== *)
(** ** Requests that overlap *)
(* ===================================================================== *)

(** The request and the response of one client. *)
Record Connection : Type := mkConnection {
  conn_req : Request;
  conn_res : Res.t }.

Module Shared.

(** The proxy object as the requests of a server share it: the connections
    by number; the one-time ['proxyRes'] listeners that are installed, each
    the closure of [proxyRequest] for one connection, in the order of
    [proxy.once]; the listeners of ['error']; and the exchanges started. *)
Record t : Type := mk {
  connections : list Connection;
  pending : list nat;
  on_error : list ErrorListener;
  started : list (nat * Outbound) }.

Definition set_connection (c : nat) (conn : Connection) (s : t) : t :=
  mk (firstn c (connections s) ++ conn :: skipn (S c) (connections s))
     (pending s) (on_error s) (started s).

Definition response (c : nat) (s : t) : Res.t :=
  match nth_error (connections s) c with
  | Some conn => conn_res conn
  | None => Res.fresh
  end.

End Shared.

(** What happens on a server with several clients. *)
Inductive Event : Type :=
| Arrives (c : nat)
    (* the handler calls proxyRequest(req, res, proxy) for connection c *)
| Answers (c : nat) (proxyRes : ProxyRes.t).
    (* the target of the exchange of connection c answers *)

Section Overlap.
Context {RT : Runtime}.

(** [proxyRequest(req, res, proxy)] for connection [c]: the listener is
    installed with [proxy.once] (line 108), then the exchange is started. *)
Definition install_and_start (c : nat) (s : Shared.t) : Shared.t :=
  match nth_error (Shared.connections s) c with
  | None => s
  | Some conn =>
      match location (corsAnywhereRequestState (conn_req conn)) with
      | None => s
      | Some loc =>
          let s := Shared.mk (Shared.connections s) (Shared.pending s ++ [c])
                             (Shared.on_error s) (Shared.started s) in
          match start_exchange (conn_req conn) loc with
          | Calls out _ =>
              Shared.set_connection c (mkConnection (out_request out) (conn_res conn))
                (Shared.mk (Shared.connections s) (Shared.pending s) (Shared.on_error s)
                           (Shared.started s ++ [(c, out)]))
          | LookupFails req err =>
              Shared.set_connection c
                (mkConnection req
                   (fst (emit_error (Shared.on_error s) err req (conn_res conn))))
                s
          end
      end
  end.

Fixpoint remove_first (i : nat) (l : list nat) : list nat :=
  match l with
  | [] => []
  | j :: r => if Nat.eqb i j then r else j :: remove_first i r
  end.

(** The listeners that were installed when ['proxyRes'] is emitted for the
    answer [proxyRes] to connection [c], run in order; each is removed
    before it runs.  Each mediates the answer with the request and response
    it closes over; the answer is one object, so each sees the headers as
    the one before left them.  When [onProxyResponse] returns false the
    listener ends [resInternal], the response of connection [c].  The
    result is [None] when a listener threw. *)
Fixpoint run_listeners (listeners : list nat) (c : nat) (proxyRes : ProxyRes.t)
    (s : Shared.t) : option ProxyRes.t * Shared.t :=
  match listeners with
  | [] => (Some proxyRes, s)
  | i :: listeners =>
      let s := Shared.mk (Shared.connections s) (remove_first i (Shared.pending s))
                         (Shared.on_error s) (Shared.started s) in
      match nth_error (Shared.connections s) i with
      | None => run_listeners listeners c proxyRes s
      | Some conn =>
          match onProxyResponse proxyRes (conn_req conn) (conn_res conn) with
          | MediationThrew => (None, s)
          | Finalized proxyRes req res =>
              run_listeners listeners c proxyRes
                (Shared.set_connection i (mkConnection req res) s)
          | Redirected req res =>
              let s := Shared.set_connection i (mkConnection req res) s in
              let s := install_and_start i s in
              let s := match nth_error (Shared.connections s) c with
                       | Some conn_c =>
                           Shared.set_connection c
                             (mkConnection (conn_req conn_c)
                                           (end_after_redirect true (conn_res conn_c))) s
                       | None => s
                       end in
              run_listeners listeners c proxyRes s
          end
      end
  end.

(** One event.  An answer is first given to the listeners installed at
    that moment and then, by http-proxy, to the response of its
    connection. *)
Definition step (s : Shared.t) (e : Event) : Shared.t :=
  match e with
  | Arrives c => install_and_start c s
  | Answers c proxyRes =>
      match run_listeners (Shared.pending s) c proxyRes s with
      | (None, s) => s
      | (Some proxyRes, s) =>
          match nth_error (Shared.connections s) c with
          | Some conn =>
              Shared.set_connection c
                (mkConnection (conn_req conn) (deliver proxyRes (conn_res conn))) s
          | None => s
          end
      end
  end.

(** The server after a sequence of events, for clients whose requests the
    handler admitted. *)
Definition serve_all (requests : list Request) (events : list Event) : Shared.t :=
  fold_left step events
    (Shared.mk (map (fun req => mkConnection req Res.fresh) requests) []
               (createServer_error_listeners None) []).

End Overlap.


(* ===================================================================== *)
(** ** A model of the Node runtime *)
(* ===================================================================== *)

(** Node's legacy [url.parse], [url.format] and [url.resolve] and
    [net.isIPv4], [net.isIPv6] are not part of this repository.  They are
    modelled here for evaluating the proxy on concrete requests, for
    printable ASCII input that starts with a scheme, which is what
    [parseURL] hands to [url.parse].  Not modelled: IDNA conversion,
    percent-decoding of the user-info part, and the exceptions recent Node
    versions raise for forbidden host characters; tabs and line breaks in
    the authority are treated like the other characters that end a host. *)
Module Node.

Fixpoint split_while (p : ascii -> bool) (s : string) : string * string :=
  match s with
  | String c r =>
      if p c then let (a, b) := split_while p r in (String c a, b)
      else (EmptyString, s)
  | EmptyString => (EmptyString, EmptyString)
  end.

Definition reverse (s : string) : string :=
  string_of_list_ascii (rev (list_ascii_of_string s)).

Definition is_ws (c : ascii) : bool := Nat.ltb (nat_of_ascii c) 33.

Definition trim (s : string) : string :=
  let s := snd (split_while is_ws s) in
  reverse (snd (split_while is_ws (reverse s))).

(** Backslashes before the query or fragment become slashes. *)
Fixpoint slashes_forward (s : string) : string :=
  match s with
  | EmptyString => EmptyString
  | String c r =>
      if (Ascii.eqb c "?" || Ascii.eqb c "#")%bool then s
      else String (if Ascii.eqb c "\" then "/"%char else c) (slashes_forward r)
  end.

Definition is_alnum (c : ascii) : bool :=
  let n := nat_of_ascii c in
  ((Nat.leb 48 n && Nat.leb n 57) || (Nat.leb 65 n && Nat.leb n 90)
   || (Nat.leb 97 n && Nat.leb n 122))%bool.

Definition one_of (chars : string) (c : ascii) : bool :=
  existsb (Ascii.eqb c) (list_ascii_of_string chars).

(** [/^[a-z0-9.+-]+:/i]: the scheme with its colon, and the rest. *)
Definition split_protocol (s : string) : option (string * string) :=
  let (a, r) := split_while (fun c => (is_alnum c || one_of ".+-" c)%bool) s in
  match a, r with
  | String _ _, String ":" r' => Some (a ++ ":", r')
  | _, _ => None
  end.

Definition slashedProtocol (proto : string) : bool :=
  Str.mem proto ["http:"; "https:"; "ftp:"; "gopher:"; "file:"; "ws:"; "wss:"].

(** Characters never allowed in a host name, besides [/ ? #]. *)
Definition is_non_host (c : ascii) : bool :=
  (is_ws c || Ascii.eqb c (ascii_of_nat 34) || one_of "%';<>\^`{|}" c)%bool.

(** The part before the last [@], if any, and the part after it. *)
Fixpoint split_last_at (s : string) : option string * string :=
  match s with
  | EmptyString => (None, EmptyString)
  | String c r =>
      match split_last_at r with
      | (Some a, h) => (Some (String c a), h)
      | (None, h) =>
          if Ascii.eqb c "@" then (Some EmptyString, h) else (None, String c h)
      end
  end.

(** [parseHost]: a trailing [/:[0-9]*$/] is the port. *)
Definition parseHost (host : string) : option string * option string :=
  let (rdigits, rrest) := split_while Str.is_digit (reverse host) in
  match rrest with
  | String ":" rh =>
      let port := reverse rdigits in
      let h := reverse rh in
      (if String.eqb h EmptyString then None else Some h,
       if String.eqb port EmptyString then None else Some port)
  | _ => (if String.eqb host EmptyString then None else Some host, None)
  end.

Definition is_hostname_char (c : ascii) : bool :=
  (is_alnum c || one_of ".-+_" c || Nat.ltb 127 (nat_of_ascii c))%bool.

Definition isIpv6Hostname (h : string) : bool :=
  (Str.startsWith "[" h && Str.endsWith "]" h)%bool.

Definition hex_digit (n : nat) : ascii :=
  ascii_of_nat (if Nat.ltb n 10 then 48 + n else 55 + n).

(** The characters [url.parse] percent-escapes in path, query and fragment. *)
Fixpoint autoEscape (s : string) : string :=
  match s with
  | EmptyString => EmptyString
  | String c r =>
      if (one_of "'<>\^`{|} " c || Ascii.eqb c (ascii_of_nat 34)
          || one_of (String (ascii_of_nat 9) (String (ascii_of_nat 10)
                       (String (ascii_of_nat 13) EmptyString))) c)%bool
      then String "%" (String (hex_digit (nat_of_ascii c / 16))
                         (String (hex_digit (nat_of_ascii c mod 16)) (autoEscape r)))
      else String c (autoEscape r)
  end.

Definition nonempty (s : string) : option string :=
  if String.eqb s EmptyString then None else Some s.

(** [Url.prototype.format] for the fields [url.parse] fills in (a path
    without [?] and [#], a query without [#]). *)
Definition format (u : Url.t) : string :=
  let auth := match Url.auth u with
              | Some a => if String.eqb a EmptyString then "" else a ++ "@"
              | None => ""
              end in
  let authority :=
    if truthy (Url.host u) then auth ++ or_empty (Url.host u)
    else if truthy (Url.hostname u) then
      let hn := or_empty (Url.hostname u) in
      auth
        ++ (if (one_of hn ":" && negb (isIpv6Hostname hn))%bool then "[" ++ hn ++ "]" else hn)
        ++ (if truthy (Url.port u) then ":" ++ or_empty (Url.port u) else "")
    else "" in
  let proto := or_empty (Url.protocol u) in
  let pathname := or_empty (Url.pathname u) in
  let lead := ((Url.slashes u || slashedProtocol proto)
               && (Url.slashes u || negb (String.eqb authority "")))%bool in
  let pathname :=
    if (lead && negb (String.eqb pathname "") && negb (Str.startsWith "/" pathname))%bool
    then "/" ++ pathname else pathname in
  proto ++ (if lead then "//" ++ authority else authority)
        ++ pathname ++ or_empty (Url.search u) ++ or_empty (Url.hash u).

Definition with_href (u : Url.t) : Url.t :=
  Url.mk (Url.protocol u) (Url.slashes u) (Url.auth u) (Url.host u) (Url.port u)
         (Url.hostname u) (Url.hash u) (Url.search u) (Url.pathname u) (Url.path u)
         (format u).

(** [url.parse(s)] *)
Definition parse (s : string) : Url.t :=
  let rest := slashes_forward (trim s) in
  match split_protocol rest with
  | None =>
      (* no scheme: a path *)
      let (before_hash, hash) := split_while (fun c => negb (Ascii.eqb c "#")) rest in
      let (pathname, search) := split_while (fun c => negb (Ascii.eqb c "?")) before_hash in
      Url.mk None false None None None None (nonempty hash) (nonempty search)
             (nonempty pathname) (nonempty (pathname ++ search)) rest
  | Some (proto, rest) =>
      let lowerProto := Str.toLowerCase proto in
      let hostless := String.eqb lowerProto "javascript:" in
      let slashes := (Str.startsWith "//" rest && negb hostless)%bool in
      let rest := if slashes then Str.slice 2 rest else rest in
      let with_host := (negb hostless && (slashes || negb (slashedProtocol proto)))%bool in
      let '(auth, host0, rest) :=
        if with_host then
          let (authority, tail) := split_while (fun c => negb (one_of "/?#" c)) rest in
          let (auth, after) := split_last_at authority in
          let (h, junk) := split_while (fun c => negb (is_non_host c)) after in
          (auth, Some h, junk ++ tail)
        else (None, None, rest) in
      let '(hostname, port, rest) :=
        match host0 with
        | None => (None, None, rest)
        | Some h =>
            let (hn, port) := parseHost h in
            let hn := or_empty hn in
            let ipv6 := isIpv6Hostname hn in
            let (hn, rest) :=
              if ipv6 then (hn, rest)
              else
                let (valid, invalid) := split_while is_hostname_char hn in
                if String.eqb invalid EmptyString then (hn, rest)
                else (valid, "/" ++ invalid ++ rest) in
            let hn := if Nat.ltb 255 (String.length hn) then EmptyString
                      else Str.toLowerCase hn in
            (Some (hn, ipv6), port, rest)
        end in
      let host := match hostname with
                  | Some (hn, _) => Some (hn ++ match port with
                                               | Some p => ":" ++ p
                                               | None => ""
                                               end)
                  | None => None
                  end in
      let '(hostname, rest) :=
        match hostname with
        | Some (hn, true) =>
            (Some (substring 1 (String.length hn - 2) hn),
             if Str.startsWith "/" rest then rest else "/" ++ rest)
        | Some (hn, false) => (Some hn, rest)
        | None => (None, rest)
        end in
      let rest := autoEscape rest in
      let (before_hash, hash) := split_while (fun c => negb (Ascii.eqb c "#")) rest in
      let (pathname, search) := split_while (fun c => negb (Ascii.eqb c "?")) before_hash in
      let pathname :=
        if (slashedProtocol lowerProto && truthy hostname && String.eqb pathname "")%bool
        then "/" else pathname in
      let path := nonempty (pathname ++ search) in
      with_href
        (Url.mk (Some lowerProto) slashes auth host port hostname (nonempty hash)
                (nonempty search) (nonempty pathname) path EmptyString)
  end.

(** [url.resolve(from, to)] for a reference [to] that is absolute, starts
    with [//] or with [/], or is a relative path.  Dot segments are not
    removed, and the user-info part of [from] is not carried over. *)
Definition resolve (from to : string) : string :=
  let t := parse to in
  let f := parse from in
  match Url.protocol t with
  | Some _ => Url.href t
  | None =>
      let origin := or_empty (Url.protocol f) ++ "//" ++ or_empty (Url.host f) in
      if String.eqb (trim to) EmptyString then Url.href f
      else if Str.startsWith "//" (trim to) then
        Url.href (parse (or_empty (Url.protocol f) ++ trim to))
      else if Str.startsWith "/" (trim to) then Url.href (parse (origin ++ trim to))
      else
        let dir := reverse (snd (split_while (fun c => negb (Ascii.eqb c "/"))
                                             (reverse (or_empty (Url.pathname f))))) in
        Url.href (parse (origin ++ dir ++ trim to))
  end.

(** [s.split(sep)] *)
Fixpoint split_on (sep : ascii) (s : string) : list string :=
  match s with
  | EmptyString => [EmptyString]
  | String c r =>
      if Ascii.eqb c sep then EmptyString :: split_on sep r
      else match split_on sep r with
           | x :: l => String c x :: l
           | [] => [String c EmptyString]
           end
  end.

Definition all_chars (p : ascii -> bool) (s : string) : bool :=
  forallb p (list_ascii_of_string s).

(** A decimal octet without leading zero. *)
Definition is_octet (s : string) : bool :=
  (all_chars Str.is_digit s
   && Nat.leb 1 (String.length s) && Nat.leb (String.length s) 3
   && (Nat.eqb (String.length s) 1 || negb (Str.startsWith "0" s))
   && match Str.digits_value 0 s with
      | Some n => (n <=? 255)%N
      | None => false
      end)%bool.

(** [net.isIPv4] *)
Definition isIPv4 (s : string) : bool :=
  let parts := split_on "." s in
  (Nat.eqb (length parts) 4 && forallb is_octet parts)%bool.

Definition is_hex (c : ascii) : bool :=
  (Str.is_digit c || one_of "abcdefABCDEF" c)%bool.

Definition is_hextet (s : string) : bool :=
  (all_chars is_hex s && Nat.leb 1 (String.length s) && Nat.leb (String.length s) 4)%bool.

(** The number of 16-bit groups in a colon-separated run; a dotted quad
    may stand for the last two when [v4_last] holds. *)
Fixpoint count_groups (v4_last : bool) (parts : list string) : option nat :=
  match parts with
  | [] => Some O
  | [p] => if is_hextet p then Some 1%nat
           else if (v4_last && isIPv4 p)%bool then Some 2%nat else None
  | p :: r => if is_hextet p
              then option_map S (count_groups v4_last r)
              else None
  end.

Definition groups_of (v4_last : bool) (s : string) : option nat :=
  if String.eqb s EmptyString then Some O else count_groups v4_last (split_on ":" s).

(** [net.isIPv6], without zone identifiers. *)
Definition isIPv6 (s : string) : bool :=
  match String.index 0 "::" s with
  | None => match groups_of true s with
            | Some n => Nat.eqb n 8
            | None => false
            end
  | Some i =>
      let left := substring 0 i s in
      let right := Str.slice (i + 2) s in
      match String.index 0 "::" right, groups_of false left, groups_of true right with
      | None, Some a, Some b => (negb (Str.startsWith ":" right) && Nat.leb (a + b) 7)%bool
      | _, _, _ => false
      end
  end.

End Node.

(** Modelled from the spec: [lib/regexp-top-level-domain.js] is not among
    the sources.  The spec describes a host name that matches it as a
    plausible public DNS name, one whose last label has the shape of a
    known top-level domain; this stand-in knows the labels com, net and
    org only, and is used for evaluating concrete requests. *)
Definition sample_regexp_tld_test (hostname : string) : bool :=
  let h := Str.toLowerCase hostname in
  (Str.endsWith ".com" h || Str.endsWith ".net" h || Str.endsWith ".org" h)%bool.

(** The runtime used for concrete requests. *)
Definition node : Runtime :=
  {| url_parse := Node.parse;
     url_format := Node.format;
     url_resolve := Node.resolve;
     net_isIPv4 := Node.isIPv4;
     net_isIPv6 := Node.isIPv6;
     regexp_tld_test := sample_regexp_tld_test |}.

(* ===================================================================== *)
(** ** Default options and sample requests *)
(* ===================================================================== *)

(** The defaults of [getHandler] (lines 276-292).  [getProxyForUrl] is the
    function of [proxy-from-env]; without proxy variables in the
    environment it names no proxy. *)
Definition default_options : corsAnywhere.t :=
  corsAnywhere.mk None (fun _ => None) 5 [] [] [] [] None false RequireFalsy [] []
                  0 "/lib/help.txt" None.

Definition with_targetBlacklist (l : list string) (o : corsAnywhere.t) : corsAnywhere.t :=
  corsAnywhere.mk (corsAnywhere.handleInitialRequest o) (corsAnywhere.getProxyForUrl o)
    (corsAnywhere.maxRedirects o) l (corsAnywhere.targetWhitelist o)
    (corsAnywhere.originBlacklist o) (corsAnywhere.originWhitelist o)
    (corsAnywhere.checkRateLimit o) (corsAnywhere.redirectSameOrigin o)
    (corsAnywhere.requireHeader o) (corsAnywhere.removeHeaders o)
    (corsAnywhere.setHeaders o) (corsAnywhere.corsMaxAge o) (corsAnywhere.helpFile o)
    (corsAnywhere.dnsLookup o).

(** A request as Node hands it to the handler: no state attached yet. *)
Definition incoming (method url : string) (headers : Obj string) : Request :=
  mkRequest method url headers false
            (mkState (fun _ => None) 0 0 None None None None).

(* ===================================================================== *)
(** ** Vocabulary of the statements *)
(* ===================================================================== *)

(** The names lines 55-67 of [withCORS] may add. *)
Definition cors_names : list string :=
  ["access-control-allow-origin"; "access-control-max-age";
   "access-control-allow-methods"; "access-control-allow-headers"].

(** The names [withCORS] writes. *)
Definition cors_written : list string :=
  ["access-control-allow-origin"; "access-control-max-age";
   "access-control-allow-methods"; "access-control-allow-headers";
   "access-control-expose-headers"; "access-control-allow-credentials"].

(** The names [withCORS] lists in [access-control-expose-headers]: those of
    the returned object, without the two entries it writes last unless the
    object passed in had them already. *)
Definition exposed (h : Obj hval) (k : string) : bool :=
  (Object.hasOwnProperty k h
   || (negb (String.eqb k "access-control-expose-headers")
       && negb (String.eqb k "access-control-allow-credentials")))%bool.

(** A parsed target without its path: scheme, user-info, host, port and
    host name. *)
Definition up_to_path (u : Url.t)
    : option string * option string * option string * option string * option string :=
  (Url.protocol u, Url.auth u, Url.host u, Url.port u, Url.hostname u).

Definition status_of (o : Outcome) : option Z :=
  match o with
  | Replied status _ _ _ => Some status
  | _ => None
  end.

Definition is_proxied (o : Outcome) : bool :=
  match o with
  | Proxied _ => true
  | _ => false
  end.

Section HandlerVocabulary.
Context {RT : Runtime}.
Variable options : corsAnywhere.t.

(** The request as the checks see it: state attached (lines 319-324) and
    the [access-control-request-*] headers removed by [withCORS]. *)
Definition prepared (req : Request) : Request :=
  snd (withCORS [] (with_state (initial_state options) req)).

(** The [cors_headers] of the handler. *)
Definition cors_headers_of (req : Request) : Obj hval :=
  fst (withCORS [] (with_state (initial_state options) req)).

Definition hook_calls (location : option Url.t) : list Call :=
  match corsAnywhere.handleInitialRequest options with
  | Some _ => [CallHandleInitialRequest location]
  | None => []
  end.

(** No hook is configured, or the hook returns a falsy value. *)
Definition hook_declines (req : Request) (location : option Url.t) : bool :=
  match corsAnywhere.handleInitialRequest options with
  | Some hook => negb (hook req location)
  | None => true
  end.

(** The target is not the probe host, its port is in range, and its host
    name is accepted or the scheme was given (lines 354-375). *)
Definition target_is_proxyable (req : Request) (location : Url.t) : bool :=
  (negb match Url.host location with
        | Some h => String.eqb h "iscorsneeded"
        | None => false
        end
   && negb (port_too_large location)
   && (has_explicit_scheme (url req) || isValidHostName (or_empty (Url.hostname location))))%bool.

(** The request gets as far as the check of the required headers. *)
Definition reaches_header_check (req : Request) (location : Url.t) : bool :=
  (negb (String.eqb (method req) "OPTIONS")
   && hook_declines (prepared req) (Some location)
   && target_is_proxyable req location)%bool.

(** The target lists of lines 396-418 reject the host name. *)
Definition target_lists_reject (location : Url.t) : bool :=
  let hostname := Str.toLowerCase (or_empty (Url.hostname location)) in
  ((Nat.ltb 0 (length (corsAnywhere.targetBlacklist options))
    && negb (existsb (blacklist_some_callback hostname) (corsAnywhere.targetBlacklist options)))
   || (Nat.ltb 0 (length (corsAnywhere.targetWhitelist options))
       && negb (existsb (whitelist_some_callback hostname)
                        (corsAnywhere.targetWhitelist options))))%bool.

(** The names listed in the reply to a request without a required header. *)
Definition required_names : list string :=
  match normalize_requireHeader (corsAnywhere.requireHeader options) with
  | Some names => names
  | None => []
  end.

(** [req.headers.origin || ''] *)
Definition origin_of (req : Request) : string :=
  match Object.get "origin" (headers req) with
  | Some o => o
  | None => ""
  end.

End HandlerVocabulary.

(** Options with a hook that takes every request. *)
Definition greedy_hook_options : corsAnywhere.t :=
  corsAnywhere.mk (Some (fun _ _ => true)) (fun _ => None) 5 [] [] [] [] None false
                  RequireFalsy [] [] 0 "/lib/help.txt" None.

(** Options that require a header and blacklist an origin. *)
Definition strict_options : corsAnywhere.t :=
  corsAnywhere.mk None (fun _ => None) 5 [] [] ["http://bad.test"] [] None false
                  (RequireArray ["X-Requested-With"]) [] [] 0 "/lib/help.txt" None.

(** Options with an origin whitelist and a rate-limit checker. *)
Definition whitelist_options : corsAnywhere.t :=
  corsAnywhere.mk None (fun _ => None) 5 [] [] [] ["http://good.test"]
                  (Some (fun _ => None)) false RequireFalsy [] [] 0 "/lib/help.txt" None.

(** Options with a rate-limit checker only. *)
Definition ratelimit_options : corsAnywhere.t :=
  corsAnywhere.mk None (fun _ => None) 5 [] [] [] []
                  (Some (fun _ => None)) false RequireFalsy [] [] 0 "/lib/help.txt" None.

(** Every name of the object is in lower case, as Node delivers the
    headers of an incoming message and keeps those of a response. *)
Definition lower_case_names (V : Type) (o : Obj V) : Prop :=
  forall k, In k (map fst o) -> Str.toLowerCase k = k.

(** The response carries neither [Set-Cookie] nor [Set-Cookie2]. *)
Definition cookie_free (res : Res.t) : Prop :=
  Res.getHeader "Set-Cookie" res = None /\ Res.getHeader "Set-Cookie2" res = None.

(** A header name that is neither [Set-Cookie] nor [Set-Cookie2], in any
    letter case. *)
Definition no_cookie_name (name : string) : Prop :=
  Str.toLowerCase name <> "set-cookie" /\ Str.toLowerCase name <> "set-cookie2".

(** After mediation no cookie is on its way to the client: neither on the
    response nor among the headers of the target that are let through. *)
Definition cookie_safe (m : Mediated) : Prop :=
  match m with
  | Redirected _ res' => cookie_free res'
  | Finalized proxyRes' _ res' =>
      cookie_free res'
      /\ Object.get "set-cookie" (ProxyRes.headers proxyRes') = None
      /\ Object.get "set-cookie2" (ProxyRes.headers proxyRes') = None
      /\ forall k, In k (map fst (ProxyRes.headers proxyRes')) -> no_cookie_name k
  | MediationThrew => True
  end.

(** The redirects the counter of the request still allows. *)
Definition redirects_left (req : Request) : nat :=
  let st := corsAnywhereRequestState req in
  Z.to_nat (maxRedirects st - match redirectCount_ st with Some c => c | None => 0 end).

Section Serving.
Context {RT : Runtime}.

(** The handler followed by the forwarding engine, for a request the
    handler admits. *)
Definition serve (options : corsAnywhere.t) (proxy : HttpProxy) (req : Request) : option Run :=
  match snd (handler options req) with
  | Proxied admitted => Some (proxyRequest proxy (enough_fuel admitted) 0 false admitted Res.fresh)
  | _ => None
  end.

(** The request the handler hands to [proxyRequest]. *)
Definition admitted_request (options : corsAnywhere.t) (req : Request) : Request :=
  match snd (handler options req) with
  | Proxied admitted => admitted
  | _ => req
  end.

End Serving.

(** A target that answers every request with a 302 to [http://example.com/]. *)
Definition redirect_to_self : HttpProxy :=
  mkProxy (fun _ _ => Responds (ProxyRes.mk 302 [("location", HStr "http://example.com/")]))
          (createServer_error_listeners None).

(** A target that answers 307 with a location and a cookie. *)
Definition temporary_redirect : ProxyRes.t :=
  ProxyRes.mk 307 [("location", HStr "http://example.com/next");
                   ("set-cookie", HArr ["id=1"])].

(** A target that answers 200 and sets cookies. *)
Definition sets_cookies : HttpProxy :=
  mkProxy (fun _ _ => Responds (ProxyRes.mk 200 [("content-type", HStr "text/html");
                                                 ("set-cookie", HArr ["id=1"; "t=2"]);
                                                 ("set-cookie2", HStr "old=1")]))
          (createServer_error_listeners None).

(** A target that cannot be reached, behind a proxy set up with or without
    [customListeners]. *)
Definition unreachable (customListeners : option CustomListeners) : HttpProxy :=
  mkProxy (fun _ _ => Fails "Error: connect ECONNREFUSED")
          (createServer_error_listeners customListeners).

Definition example_request : Request :=
  incoming "GET" "/example.com/" [("host", "proxy.test")].

(** Two clients of one server, and the answers of their targets. *)
Definition request_a : Request :=
  incoming "GET" "/a.example.com/" [("host", "proxy.test")].

Definition request_b : Request :=
  incoming "GET" "/b.example.org/" [("host", "proxy.test")].

Definition answer_with_cookie : ProxyRes.t :=
  ProxyRes.mk 200 [("content-type", HStr "text/html"); ("set-cookie", HArr ["session=1"])].

Definition plain_answer : ProxyRes.t :=
  ProxyRes.mk 200 [("content-type", HStr "text/plain")].

(** Both requests are admitted before either target answers; the target of
    the second answers first. *)
Definition overlapping : list Event :=
  [Arrives 0; Arrives 1; Answers 1 plain_answer; Answers 0 answer_with_cookie].

(** The first request is answered before the second arrives. *)
Definition one_after_the_other : list Event :=
  [Arrives 0; Answers 0 answer_with_cookie; Arrives 1; Answers 1 plain_answer].

(* ===================================================================== *)
(** ** Further vocabulary: what a match of the URL pattern looks like *)
(* ===================================================================== *)

(** No character of the string starts a path: the class [[^\/?]]. *)
Definition host_chars (s : string) : Prop :=
  forall c, In c (list_ascii_of_string s) -> is_path_start c = false.

Definition all_digits (s : string) : Prop :=
  forall c, In c (list_ascii_of_string s) -> Str.is_digit c = true.

(** The text of the optional port group: a colon and the port. *)
Definition port_text (p : option string) : string :=
  match p with
  | Some d => ":" ++ d
  | None => ""
  end.

(** The text of the optional first group: the scheme, if captured, and two
    slashes. *)
Definition scheme_text (s : string) (m : UrlMatch) : string :=
  match m_protocol m with
  | Some proto => proto ++ "//"
  | None => if (Str.startsWith "//" s) then "//" else ""
  end.

(** The string is empty or begins with a slash or a question mark: no host
    name can be matched at its start. *)
Definition lacks_host (s : string) : bool :=
  match s with
  | EmptyString => true
  | String c _ => is_path_start c
  end.
(** A host name as it is written in a target: not empty, and without
    slash, question mark or colon. *)
Definition plain_hostname (h : string) : bool :=
  (negb (String.eqb h "")
   && forallb (fun c => negb (is_path_start c || Ascii.eqb c ":"))
              (list_ascii_of_string h))%bool.

(** What the port group can hold: at most five digits. *)
Definition port_group (p : option string) : bool :=
  match p with
  | Some d => (Nat.leb (String.length d) 5
               && forallb Str.is_digit (list_ascii_of_string d))%bool
  | None => true
  end.

(** Lines 266-271 of [parseURL]: the string is parsed, and the result is
    returned if it has a host name. *)
Definition parsed_with_hostname {RT : Runtime} (req_url : string) : option Url.t :=
  let parsed := url_parse req_url in
  if truthy (Url.hostname parsed) then Some parsed else None.
(** The pairs of names of lines 60-67 of [withCORS]: the request header
    that is read, and the response header it is copied to. *)
Definition mirrored_headers : list (string * string) :=
  [("access-control-request-method", "access-control-allow-methods");
   ("access-control-request-headers", "access-control-allow-headers")].

(** The header object the handler gives to [res.writeHead] or to
    [showUsage], if it answers the request itself. *)
Definition reply_headers (o : Outcome) : option (Obj hval) :=
  match o with
  | Replied _ _ h _ => Some h
  | Usage _ h => Some h
  | _ => None
  end.
(** Lines 181-188 of [onProxyResponse]: for a redirect status with a
    non-empty [Location] header that [parseURL] accepts once resolved, the
    resolved header and the parsed location. *)
Definition redirect_target {RT : Runtime} (proxyRes : ProxyRes.t) (req : Request)
    : option (string * Url.t) :=
  match location (corsAnywhereRequestState req) with
  | None => None
  | Some loc =>
      if is_redirect_status (ProxyRes.statusCode proxyRes) then
        match Object.get "location" (ProxyRes.headers proxyRes) with
        | Some v =>
            if hval_truthy v then
              let locationHeader := url_resolve (Url.href loc) (hval_string v) in
              match parseURL locationHeader with
              | Some parsedLocation => Some (locationHeader, parsedLocation)
              | None => None
              end
            else None
        | None => None
        end
      else None
  end.

(** The response to the client as [onProxyResponse] leaves it. *)
Definition mediated_res (m : Mediated) : option Res.t :=
  match m with
  | Redirected _ res => Some res
  | Finalized _ _ res => Some res
  | MediationThrew => None
  end.
(** What a request that is sent again after a redirect looks like: a GET
    that announces an empty body. *)
Definition bodiless_get (req : Request) : Prop :=
  method req = "GET"
  /\ Object.get "content-length" (headers req) = Some "0"
  /\ Object.get "content-type" (headers req) = None.
(** ** The help file *)

(** [fs.readFile(path, 'utf8', callback)]: the text of the file, or [None]
    when the callback is given an error. *)
Definition FileSystem : Type := string -> option string.

(** The names a plain JavaScript object inherits from [Object.prototype].
    Looked up in the cache [help_text] they are found, and are no strings,
    although nothing was stored under them: [__proto__] is an object, the
    others are functions. *)
Definition inherited_names : list string :=
  ["constructor"; "__proto__"; "hasOwnProperty"; "isPrototypeOf";
   "propertyIsEnumerable"; "toLocaleString"; "toString"; "valueOf";
   "__defineGetter__"; "__defineSetter__"; "__lookupGetter__"; "__lookupSetter__"].

(** What a call of [showUsage] ends in: the cache as it is left and the
    response that was sent, or the exception of [response.end] when it is
    given a value that is neither a string nor a function. *)
Inductive UsageResult : Type :=
| UsageSent (help_text : Obj string) (response : Res.t)
| UsageThrew (response : Res.t).

(** [showUsage(help_file, headers, response)] (lines 14-32) together with
    the cache [help_text] of the module and the file system.  The callback
    of [readFile] calls [showUsage] again; [fuel] bounds these calls.  For
    a name inherited from [Object.prototype] the test of line 17 succeeds:
    [response.end] takes a function for its callback and ends the response
    without body, and raises an exception for the object under
    [__proto__]. *)
Fixpoint showUsage_run (fuel : nat) (fs : FileSystem) (help_text : Obj string)
    (help_file : string) (h : Obj hval) (response : Res.t) : option UsageResult :=
  match fuel with
  | O => None
  | S fuel =>
      let isHtml := Str.endsWith ".html" help_file in
      let h := Object.set "content-type"
                 (HStr (if isHtml then "text/html" else "text/plain")) h in
      if String.eqb help_file "__proto__" then
        Some (UsageThrew (Res.writeHead 200 None h response))
      else if Str.mem help_file inherited_names then
        Some (UsageSent help_text (Res.end_ EmptyString (Res.writeHead 200 None h response)))
      else
        match Object.get help_file help_text with
        | Some text =>
            Some (UsageSent help_text (Res.end_ text (Res.writeHead 200 None h response)))
        | None =>
            match fs help_file with
            | None =>
                Some (UsageSent help_text
                        (Res.end_ EmptyString (Res.writeHead 500 None h response)))
            | Some data =>
                showUsage_run fuel fs (Object.set help_file data help_text) help_file h
                  response
            end
        end
  end.

(** The text [showUsage] can send for a file: the cached one, else the one
    the file system gives. *)
Definition help_text_of (fs : FileSystem) (help_text : Obj string) (help_file : string)
    : option string :=
  match Object.get help_file help_text with
  | Some text => Some text
  | None => fs help_file
  end.

(* ===================================================================== *)
(** ** Exceptions of [url.parse] *)
(* ===================================================================== *)

(** The string [parseURL] hands to [url.parse] at line 266, when it gets
    that far (lines 245-265). *)
Definition parseURL_input (req_url : string) : option string :=
  let req_url := repair_single_slash req_url in
  match url_match req_url with
  | None => None
  | Some m =>
      match m_protocol m with
      | Some _ => Some req_url
      | None =>
          if has_scheme_ci req_url then None
          else
            let req_url :=
              if Str.startsWith "//" req_url then req_url else "//" ++ req_url in
            Some ((match m_port m with
                   | Some "443" => "https:"
                   | _ => "http:"
                   end) ++ req_url)
      end
  end.

(** What a call of the handler comes to: it returns, having made its hook
    calls and settled the request, or an exception escapes it. *)
Inductive Attempt : Type :=
| Completes (result : list Call * Outcome)
| Raises (input : string).
    (* url.parse raised an exception on this string *)

Section Raising.
Context {RT : Runtime}.

(** The strings on which [url.parse] raises an exception instead of
    returning.  Node does so for some host names and for a malformed
    percent-escape in the user-info part. *)
Variable url_parse_raises : string -> bool.

Variable options : corsAnywhere.t.

(** The handler together with the exceptions of [url.parse].  A preflight
    is answered before [parseURL] is called (lines 326-332).  For any other
    request [parseURL] is called at line 334, outside any [try]: when
    [url.parse] raises on the string it is handed at line 266, the
    exception escapes the handler before the hook of line 336 is called;
    otherwise the handler goes on as [handler] describes. *)
Definition handler_attempt (req : Request) : Attempt :=
  if String.eqb (method req) "OPTIONS" then Completes (handler options req)
  else
    match parseURL_input (Str.slice 1 (url req)) with
    | Some s => if url_parse_raises s then Raises s else Completes (handler options req)
    | None => Completes (handler options req)
    end.

End Raising.

(** A stand-in for the strings on which Node's [url.parse] raises, for
    evaluating concrete requests: a host label in Punycode form ([xn--])
    and a percent sign.  It raises on more strings than Node does. *)
Definition sample_url_parse_raises (s : string) : bool :=
  match String.index 0 "xn--" (Str.toLowerCase s), String.index 0 "%" s with
  | None, None => false
  | _, _ => true
  end.

(** A target that answers the first request with a 302 and every later one
    with a 307 that sets a cookie. *)
Definition redirect_then_temporary : HttpProxy :=
  mkProxy (fun n _ =>
             match n with
             | O => Responds (ProxyRes.mk 302 [("location", HStr "http://example.com/first")])
             | S _ => Responds temporary_redirect
             end)
          (createServer_error_listeners None).

(** A target that answers every request with that 307. *)
Definition temporary_at_once : HttpProxy :=
  mkProxy (fun _ _ => Responds temporary_redirect) (createServer_error_listeners None).

(* ===================================================================== *)
(** * Properties *)
(* ===================================================================== *)

Unset Implicit Arguments.

(** ** Objects *)

Section ObjectFacts.
Variable V : Type.
Implicit Types (o : Obj V) (k : string) (v : V).

Lemma get_set_same k v o : Object.get k (Object.set k v o) = Some v.
Proof.
  induction o as [|[k' v'] r IH]; simpl.
  - now rewrite String.eqb_refl.
  - destruct (String.eqb k k') eqn:E; simpl; rewrite E; auto.
Qed.

Lemma get_set_other k k' v o :
  k <> k' -> Object.get k (Object.set k' v o) = Object.get k o.
Proof.
  intros Hne. induction o as [|[k0 v0] r IH]; simpl.
  - destruct (String.eqb_spec k k'); congruence.
  - destruct (String.eqb_spec k' k0); simpl.
    + subst. destruct (String.eqb_spec k k0); congruence.
    + destruct (String.eqb_spec k k0); auto.
Qed.

Lemma get_delete_same k o : Object.get k (Object.delete k o) = None.
Proof.
  induction o as [|[k' v'] r IH]; simpl; auto.
  destruct (String.eqb k k') eqn:E; simpl; auto. now rewrite E.
Qed.

Lemma get_delete_other k k' o :
  k <> k' -> Object.get k (Object.delete k' o) = Object.get k o.
Proof.
  intros Hne. induction o as [|[k0 v0] r IH]; simpl; auto.
  destruct (String.eqb_spec k' k0); simpl.
  - subst. destruct (String.eqb_spec k k0); congruence.
  - destruct (String.eqb_spec k k0); auto.
Qed.

Lemma get_in_dom k o : Object.get k o <> None <-> In k (map fst o).
Proof.
  induction o as [|[k' v'] r IH]; simpl.
  - split; [congruence | tauto].
  - destruct (String.eqb_spec k k').
    + subst. split; [auto | congruence].
    + rewrite IH. split; [auto | intros [?|?]; congruence || auto].
Qed.

Lemma dom_set k v o x :
  In x (map fst (Object.set k v o)) <-> x = k \/ In x (map fst o).
Proof.
  induction o as [|[k' v'] r IH]; simpl.
  - intuition.
  - destruct (String.eqb_spec k k'); simpl.
    + subst. intuition.
    + rewrite IH. intuition.
Qed.

Lemma dom_delete k o x :
  In x (map fst (Object.delete k o)) <-> x <> k /\ In x (map fst o).
Proof.
  induction o as [|[k' v'] r IH]; simpl.
  - intuition.
  - destruct (String.eqb_spec k k'); simpl.
    + subst. rewrite IH. intuition. subst. tauto.
    + rewrite IH. intuition. subst. congruence.
Qed.

Lemma in_insert_index n k l p :
  In p (Object.insert_index n k l) <-> p = (n, k) \/ In p l.
Proof.
  induction l as [|[m k'] r IH]; simpl.
  - intuition.
  - destruct (n <? m)%N; simpl; [|rewrite IH]; intuition.
Qed.

Lemma in_index_keys o n k :
  In (n, k) (Object.index_keys o) -> In k (map fst o).
Proof.
  induction o as [|[k' v'] r IH]; simpl; auto.
  destruct (Object.array_index k'); auto.
  rewrite in_insert_index. intros [E|H]; [inversion E; auto | auto].
Qed.

Lemma in_named_keys o k : In k (Object.named_keys o) -> In k (map fst o).
Proof.
  induction o as [|[k' v'] r IH]; simpl; auto.
  destruct (Object.array_index k'); simpl; intuition.
Qed.

Lemma keys_in_dom o k : In k (Object.keys o) -> In k (map fst o).
Proof.
  unfold Object.keys. rewrite in_app_iff, in_map_iff.
  intros [[[n k'] [E H]]|H].
  - simpl in E. subst. eauto using in_index_keys.
  - now apply in_named_keys.
Qed.

Lemma index_keys_set k v o :
  Object.array_index k = None ->
  Object.index_keys (Object.set k v o) = Object.index_keys o.
Proof.
  intros Hk. induction o as [|[k' v'] r IH]; simpl.
  - now rewrite Hk.
  - destruct (String.eqb_spec k k'); simpl; auto.
    destruct (Object.array_index k'); now rewrite IH.
Qed.

Lemma named_keys_set k v o :
  Object.array_index k = None ->
  Object.named_keys (Object.set k v o) =
    if Object.hasOwnProperty k o then Object.named_keys o
    else (Object.named_keys o ++ [k])%list.
Proof.
  intros Hk. unfold Object.hasOwnProperty.
  induction o as [|[k' v'] r IH]; simpl.
  - now rewrite Hk.
  - destruct (String.eqb_spec k k'); simpl; auto.
    destruct (Object.array_index k'); rewrite IH;
      destruct (Object.get k r); reflexivity.
Qed.

(** Assigning to a key that is no array index leaves [Object.keys] alone
    when the key exists and appends the key otherwise. *)
Lemma keys_set k v o :
  Object.array_index k = None ->
  Object.keys (Object.set k v o) =
    if Object.hasOwnProperty k o then Object.keys o
    else (Object.keys o ++ [k])%list.
Proof.
  intros Hk. unfold Object.keys.
  rewrite index_keys_set, named_keys_set by assumption.
  destruct (Object.hasOwnProperty k o); auto using app_assoc.
Qed.

Lemma hasOwnProperty_dom k o :
  Object.hasOwnProperty k o = true <-> In k (map fst o).
Proof.
  rewrite <- get_in_dom. unfold Object.hasOwnProperty.
  destruct (Object.get k o); split; congruence.
Qed.

End ObjectFacts.

Lemma filter_all (A : Type) (f : A -> bool) (l : list A) :
  (forall x, In x l -> f x = true) -> filter f l = l.
Proof.
  induction l as [|a l IH]; simpl; intros H; auto.
  rewrite (H a) by auto. f_equal. auto.
Qed.

(** ** CORS header synthesis *)


Lemma mirror_request_header_dom from to hr x :
  In x (map fst (fst (mirror_request_header from to hr))) ->
  x = to \/ In x (map fst (fst hr)).
Proof.
  destruct hr as [h request]. unfold mirror_request_header.
  destruct (truthy _); auto.
  destruct (Object.get from (headers request)); simpl; auto.
  now rewrite dom_set.
Qed.

Lemma mirror_request_header_keeps from to hr x :
  In x (map fst (fst hr)) ->
  In x (map fst (fst (mirror_request_header from to hr))).
Proof.
  destruct hr as [h request]. unfold mirror_request_header.
  destruct (truthy _); auto.
  destruct (Object.get from (headers request)); simpl; auto.
  rewrite dom_set. auto.
Qed.

Lemma withCORS_allow_dom h request x :
  In x (map fst (fst (withCORS_allow h request))) ->
  In x cors_names \/ In x (map fst h).
Proof.
  unfold withCORS_allow. intros H.
  apply mirror_request_header_dom in H as [->|H]; [left; simpl; tauto|].
  apply mirror_request_header_dom in H as [->|H]; [left; simpl; tauto|].
  simpl in H.
  destruct (_ && _)%bool; repeat (rewrite dom_set in H); simpl; intuition.
Qed.

Lemma withCORS_allow_keeps h request x :
  In x (map fst h) -> In x (map fst (fst (withCORS_allow h request))).
Proof.
  unfold withCORS_allow. intros H.
  do 2 apply mirror_request_header_keeps. simpl.
  destruct (_ && _)%bool; repeat (rewrite dom_set); auto.
Qed.

Lemma withCORS_allow_origin h request :
  Object.get "access-control-allow-origin" (fst (withCORS_allow h request))
  = Some (HStr "*").
Proof.
  unfold withCORS_allow, mirror_request_header.
  repeat match goal with
         | |- context [if ?b then _ else _] => destruct b
         | |- context [match Object.get ?k (headers ?r) with _ => _ end] =>
             destruct (Object.get k (headers r))
         end; simpl;
    repeat (rewrite get_set_other by discriminate);
    apply get_set_same.
Qed.


(** C7 (as amended).  After [withCORS] returns, the header object has
    [access-control-allow-origin] equal to ["*"] and
    [access-control-allow-credentials] equal to ["true"], and
    [access-control-expose-headers] is the comma-joined list of the names
    that were present when the list was computed: the names of the returned
    object except [access-control-expose-headers] and
    [access-control-allow-credentials] themselves, unless the object passed
    in already had them. *)
Theorem withCORS_exposes_names_present_before (h : Obj hval) (request : Request) :
  let h' := fst (withCORS h request) in
  Object.get "access-control-allow-origin" h' = Some (HStr "*")
  /\ Object.get "access-control-allow-credentials" h' = Some (HStr "true")
  /\ Object.get "access-control-expose-headers" h'
     = Some (HStr (Str.join "," (filter (exposed h) (Object.keys h')))).
Proof.
  unfold withCORS.
  pose proof (withCORS_allow_origin h request) as Horigin.
  pose proof (withCORS_allow_dom h request) as Hdom.
  pose proof (withCORS_allow_keeps h request) as Hkeeps.
  destruct (withCORS_allow h request) as [h1 request1]. simpl in *.
  repeat split.
  - now repeat (rewrite get_set_other by discriminate).
  - apply get_set_same.
  - rewrite get_set_other by discriminate. rewrite get_set_same.
    do 3 f_equal.
    assert (Hin : forall x, In x (Object.keys h1) -> exposed h x = true).
    { intros x Hx. apply keys_in_dom, Hdom in Hx. unfold exposed.
      destruct Hx as [Hx|Hx].
      - simpl in Hx. decompose [or] Hx; subst; try tauto;
          apply orb_true_r.
      - apply hasOwnProperty_dom in Hx. now rewrite Hx. }
    assert (Hout : forall k, Object.hasOwnProperty k h1 = false ->
                             Object.hasOwnProperty k h = false).
    { intros k Hk. destruct (Object.hasOwnProperty k h) eqn:E; auto.
      apply hasOwnProperty_dom, Hkeeps, hasOwnProperty_dom in E. congruence. }
    rewrite !keys_set by reflexivity.
    set (v := HStr _).
    assert (Hc : Object.hasOwnProperty "access-control-allow-credentials"
                   (Object.set "access-control-expose-headers" v h1)
                 = Object.hasOwnProperty "access-control-allow-credentials" h1).
    { unfold Object.hasOwnProperty. now rewrite get_set_other by discriminate. }
    rewrite Hc.
    destruct (Object.hasOwnProperty "access-control-expose-headers" h1) eqn:He;
      destruct (Object.hasOwnProperty "access-control-allow-credentials" h1) eqn:Hcr;
      rewrite ?filter_app, (filter_all _ _ _ Hin); simpl; unfold exposed;
      rewrite ?(Hout _ He), ?(Hout _ Hcr); simpl;
      now rewrite ?app_nil_r.
Qed.

(** C7 fails as stated: on an empty header object and a plain GET request
    the exposed list is the single name [access-control-allow-origin],
    while the returned object has three names. *)
Lemma withCORS_expose_list_misses_later_names :
  let h' := fst (withCORS [] (incoming "GET" "/example.com" [])) in
  Object.get "access-control-expose-headers" h'
    = Some (HStr "access-control-allow-origin")
  /\ Object.keys h'
     = ["access-control-allow-origin"; "access-control-expose-headers";
        "access-control-allow-credentials"]
  /\ Object.get "access-control-expose-headers" h'
     <> Some (HStr (Str.join "," (Object.keys h'))).
Proof.
  repeat split. vm_compute. discriminate.
Qed.

(** ** URL extraction *)


(** C4 (as amended).  On the Node runtime, [parseURL] maps
    ["example.com/a?b"], ["//example.com/a"], ["http://example.com"] and
    ["http:/example.com"] to targets that are equal up to their path and
    have host name ["example.com"]; ["http://:1/"] yields [null]; and
    ["http:/x"], whose single slash is repaired like that of
    ["http:/example.com"], yields a target with host name ["x"]. *)
Theorem parseURL_examples :
  let example := (Some "http:", None, Some "example.com", None, Some "example.com") in
  option_map up_to_path (parseURL (RT := node) "example.com/a?b") = Some example
  /\ option_map up_to_path (parseURL (RT := node) "//example.com/a") = Some example
  /\ option_map up_to_path (parseURL (RT := node) "http://example.com") = Some example
  /\ option_map up_to_path (parseURL (RT := node) "http:/example.com") = Some example
  /\ parseURL (RT := node) "http://:1/" = None
  /\ option_map Url.hostname (parseURL (RT := node) "http:/x") = Some (Some "x").
Proof.
  repeat split; vm_compute; reflexivity.
Qed.

(** C4 fails as stated: ["http:/x"] does not yield [null]. *)
Lemma parseURL_single_slash_x_is_parsed :
  parseURL (RT := node) "http:/x" <> None.
Proof.
  vm_compute. discriminate.
Qed.

(** Forms the repair leaves alone are still refused: three slashes, and a
    scheme in upper case followed by one slash. *)
Example parseURL_ambiguous_scheme :
  parseURL (RT := node) "http:///" = None /\ parseURL (RT := node) "HTTP:/x" = None.
Proof.
  split; vm_compute; reflexivity.
Qed.

(** The repair step turns one slash after the scheme into two, whatever
    follows. *)
Lemma repair_single_slash_http (rest : string) :
  Str.startsWith "/" rest = false ->
  repair_single_slash ("http:/" ++ rest) = "http://" ++ rest.
Proof.
  intros H. unfold repair_single_slash, Str.strip_prefix, Str.startsWith in *.
  destruct rest as [|c r]; [reflexivity|].
  cbn in *. destruct r; cbn in *; rewrite H; reflexivity.
Qed.

(** ** The target blacklist *)

(** The condition under which lines 396-406 reject: every entry of the
    list, case-folded, is the host name itself. *)
Lemma endsWith_longer (c : ascii) (d : string) : Str.endsWith (String c d) d = false.
Proof.
  unfold Str.endsWith. cbv zeta.
  change (String.length (String c d)) with (S (String.length d)).
  now rewrite (proj2 (Nat.leb_gt _ _)) by lia.
Qed.

Lemma blacklist_some_callback_false (hostname domain : string) :
  blacklist_some_callback hostname domain = false
  <-> hostname = Str.toLowerCase domain.
Proof.
  unfold blacklist_some_callback.
  destruct (String.eqb_spec hostname (Str.toLowerCase domain)) as [E|E]; simpl.
  - split; auto. intros _. subst hostname. apply endsWith_longer.
  - split; [discriminate | congruence].
Qed.

Lemma blacklist_rejects_iff_all_equal (hostname : string) (l : list string) :
  existsb (blacklist_some_callback hostname) l = false
  <-> Forall (fun domain => hostname = Str.toLowerCase domain) l.
Proof.
  induction l as [|d l IH]; simpl.
  - split; auto.
  - rewrite orb_false_iff, IH, blacklist_some_callback_false.
    split; [intros [? ?]; auto | inversion 1; auto].
Qed.


(** C1 (the code at the failing inputs).  With [targetBlacklist] equal to
    [["evil.com"]] a request for [/evil.com/x] is answered 403 and a
    request for [/notevil.com/x] is proxied, but a request for
    [/sub.evil.com/x] is proxied as well; and once the list has a second
    entry, [/evil.com/x] itself is proxied. *)
Theorem targetBlacklist_lets_subdomain_through :
  let blacklist := with_targetBlacklist ["evil.com"] default_options in
  let two := with_targetBlacklist ["evil.com"; "bad.com"] default_options in
  snd (handler (RT := node) blacklist (incoming "GET" "/evil.com/x" [("host", "proxy.test")]))
    = Replied 403 (Some "Forbidden")
        (fst (withCORS [] (incoming "GET" "/evil.com/x" [("host", "proxy.test")])))
        ("The target URL hostname " ++ dquote ++ "evil.com" ++ dquote
           ++ " is not allowed by this proxy.")
  /\ is_proxied (snd (handler (RT := node) blacklist
                        (incoming "GET" "/notevil.com/x" [("host", "proxy.test")]))) = true
  /\ is_proxied (snd (handler (RT := node) blacklist
                        (incoming "GET" "/sub.evil.com/x" [("host", "proxy.test")]))) = true
  /\ is_proxied (snd (handler (RT := node) two
                        (incoming "GET" "/evil.com/x" [("host", "proxy.test")]))) = true.
Proof.
  repeat split; vm_compute; reflexivity.
Qed.

(** ** The request handler *)

Lemma mirror_request_header_request from to hr :
  let r := snd (mirror_request_header from to hr) in
  method r = method (snd hr) /\ url r = url (snd hr)
  /\ encrypted r = encrypted (snd hr)
  /\ corsAnywhereRequestState r = corsAnywhereRequestState (snd hr)
  /\ forall k, k <> from -> Object.get k (headers r) = Object.get k (headers (snd hr)).
Proof.
  destruct hr as [h request]. unfold mirror_request_header.
  destruct (truthy _); simpl; auto.
  destruct (Object.get from (headers request)); simpl; auto.
  repeat split; auto. intros k Hk. now apply get_delete_other.
Qed.

Lemma withCORS_request h request :
  let r := snd (withCORS h request) in
  method r = method request /\ url r = url request
  /\ encrypted r = encrypted request
  /\ corsAnywhereRequestState r = corsAnywhereRequestState request
  /\ forall k, k <> "access-control-request-method" ->
               k <> "access-control-request-headers" ->
               Object.get k (headers r) = Object.get k (headers request).
Proof.
  unfold withCORS, withCORS_allow.
  match goal with
  | |- context [mirror_request_header ?f2 ?t2 (mirror_request_header ?f1 ?t1 ?hr)] =>
      pose proof (mirror_request_header_request f1 t1 hr) as H1;
      pose proof (mirror_request_header_request f2 t2 (mirror_request_header f1 t1 hr)) as H2;
      destruct (mirror_request_header f2 t2 (mirror_request_header f1 t1 hr)) as [h2 r2];
      destruct (mirror_request_header f1 t1 hr) as [h1 r1]
  end.
  simpl in *.
  destruct H1 as (? & ? & ? & ? & G1), H2 as (? & ? & ? & ? & G2).
  repeat split; try congruence.
  intros k Hm Hh. now rewrite G2, G1.
Qed.

Section HandlerFacts.
Context {RT : Runtime}.
Variable options : corsAnywhere.t.

Lemma prepared_request (req : Request) :
  method (prepared options req) = method req
  /\ url (prepared options req) = url req
  /\ forall k, k <> "access-control-request-method" ->
               k <> "access-control-request-headers" ->
               Object.get k (headers (prepared options req)) = Object.get k (headers req).
Proof.
  unfold prepared.
  destruct (withCORS_request [] (with_state (initial_state options) req))
    as (Hm & Hu & _ & _ & Hh).
  auto.
Qed.

(** The handler in terms of the request the checks see. *)
Lemma handler_unfold (req : Request) :
  handler options req =
    let req' := prepared options req in
    let cors_headers := cors_headers_of options req in
    if String.eqb (method req) "OPTIONS" then ([], Replied 200 None cors_headers "")
    else
      let location := parseURL (Str.slice 1 (url req)) in
      if negb (hook_declines options req' location) then (hook_calls options location, Handled)
      else match location with
           | None =>
               if looks_like_missing_slash (url req) then
                 (hook_calls options location,
                  Replied 400 (Some "Missing slash") cors_headers
                    "The URL is invalid: two slashes are needed after the http(s):.")
               else (hook_calls options location,
                     showUsage (corsAnywhere.helpFile options) cors_headers)
           | Some l =>
               ((hook_calls options location ++ fst (target_checks options req' cors_headers l))%list,
                snd (target_checks options req' cors_headers l))
           end.
Proof.
  unfold handler, prepared, cors_headers_of, hook_calls, hook_declines.
  destruct (withCORS_request [] (with_state (initial_state options) req))
    as (Hm & Hu & _).
  destruct (withCORS [] (with_state (initial_state options) req)) as [c r].
  simpl in *. rewrite Hm, Hu.
  destruct (String.eqb (method req) "OPTIONS"); auto.
  destruct (corsAnywhere.handleInitialRequest options) as [hook|]; simpl.
  - destruct (hook r _); simpl; auto.
    destruct (parseURL _); auto. now destruct (target_checks _ _ _ _).
  - destruct (parseURL _); auto. now destruct (target_checks _ _ _ _).
Qed.

(** A preflight request is answered before the hook is looked at. *)
Lemma preflight_answered_first (req : Request) :
  method req = "OPTIONS" ->
  handler options req = ([], Replied 200 None (cors_headers_of options req) "").
Proof.
  intros H. rewrite handler_unfold. cbv zeta. now rewrite H.
Qed.

End HandlerFacts.

(** Where [url.parse] returns: a request other than a preflight that the
    configured [handleInitialRequest] hook takes is offered to the hook with
    the parsed target (or [null]) after the CORS headers were computed and
    the method was tested; no other hook is called and none of the built-in
    checks runs. *)
Lemma handler_offers_request_to_hook {RT : Runtime}
    (options : corsAnywhere.t) (req : Request) (hook : Request -> option Url.t -> bool) :
  method req <> "OPTIONS" ->
  corsAnywhere.handleInitialRequest options = Some hook ->
  hook (prepared options req) (parseURL (Str.slice 1 (url req))) = true ->
  handler options req
  = ([CallHandleInitialRequest (parseURL (Str.slice 1 (url req)))], Handled).
Proof.
  intros Hm Hh Ht. rewrite handler_unfold. cbv zeta.
  destruct (String.eqb_spec (method req) "OPTIONS"); [contradiction|].
  unfold hook_declines, hook_calls. rewrite Hh, Ht. reflexivity.
Qed.

(** C9 fails as stated: a preflight request is answered 200 although the
    hook would have taken it, and the hook is not called. *)
Lemma preflight_is_not_offered_to_hook :
  let req := incoming "OPTIONS" "/example.com/" [] in
  corsAnywhere.handleInitialRequest greedy_hook_options = Some (fun _ _ => true)
  /\ fst (handler (RT := node) greedy_hook_options req) = []
  /\ status_of (snd (handler (RT := node) greedy_hook_options req)) = Some 200
  /\ snd (handler (RT := node) greedy_hook_options req) <> Handled.
Proof.
  repeat split. vm_compute. discriminate.
Qed.

Section GateOrder.
Context {RT : Runtime}.
Variable options : corsAnywhere.t.

(** A request that gets as far as the check of the required headers is
    decided by that check and, after it, by the checks of lines 383-452. *)
Lemma handler_at_header_check (req : Request) (location : Url.t) :
  parseURL (Str.slice 1 (url req)) = Some location ->
  reaches_header_check options req location = true ->
  handler options req =
    let req' := prepared options req in
    let cors_headers := cors_headers_of options req in
    if hasRequiredHeaders options (headers req') then
      ((hook_calls options (Some location)
          ++ fst (policy_checks options req' cors_headers location))%list,
       snd (policy_checks options req' cors_headers location))
    else
      (hook_calls options (Some location),
       Replied 400 (Some "Header required") cors_headers
         ("Missing required request header. Must specify one of: "
            ++ Str.join "," (required_names options))).
Proof.
  intros Hparse Hreach. rewrite handler_unfold. cbv zeta.
  unfold reaches_header_check, target_is_proxyable in Hreach.
  apply andb_prop in Hreach as [Hreach Hsane].
  apply andb_prop in Hreach as [Hmethod Hhook].
  apply andb_prop in Hsane as [Hsane Hvalid].
  apply andb_prop in Hsane as [Hprobe Hport].
  rewrite (proj1 (negb_true_iff _) Hmethod), Hparse, Hhook. simpl negb. cbv iota.
  unfold target_checks.
  destruct (prepared_request options req) as (_ & Hurl & _). rewrite Hurl.
  rewrite (proj1 (negb_true_iff _) Hprobe), (proj1 (negb_true_iff _) Hport).
  rewrite <- negb_orb, Hvalid. simpl.
  destruct (hasRequiredHeaders options (headers (prepared options req))); simpl.
  - reflexivity.
  - now rewrite app_nil_r.
Qed.

End GateOrder.

(** C5 (as amended).  For every request other than a preflight that gets
    as far as the policy checks (the hook, if any, declined it; its target
    was parsed, is not the probe host, has a port in range and an accepted
    host name) and that violates both the required-header policy and the
    origin blacklist, the handler replies 400 [Header required] with the
    list of required names: the required-header check comes before the
    origin blacklist. *)
Theorem required_header_checked_before_origin_blacklist {RT : Runtime}
    (options : corsAnywhere.t) (req : Request) (location : Url.t) :
  parseURL (Str.slice 1 (url req)) = Some location ->
  reaches_header_check options req location = true ->
  hasRequiredHeaders options (headers (prepared options req)) = false ->
  Str.mem (origin_of (prepared options req)) (corsAnywhere.originBlacklist options) = true ->
  handler options req
  = (hook_calls options (Some location),
     Replied 400 (Some "Header required") (cors_headers_of options req)
       ("Missing required request header. Must specify one of: "
          ++ Str.join "," (required_names options))).
Proof.
  intros Hparse Hreach Hmissing _.
  rewrite (handler_at_header_check options req location Hparse Hreach).
  cbv zeta. now rewrite Hmissing.
Qed.

Lemma required_header_checked_before_origin_blacklist_witness :
  let req := incoming "GET" "/example.com/"
               [("host", "proxy.test"); ("origin", "http://bad.test")] in
  handler (RT := node) strict_options req
  = ([], Replied 400 (Some "Header required") (cors_headers_of strict_options req)
           "Missing required request header. Must specify one of: x-requested-with").
Proof.
  intros req.
  apply (@required_header_checked_before_origin_blacklist node strict_options req
           (Node.parse "http://example.com/")).
  - vm_compute. reflexivity.
  - vm_compute. reflexivity.
  - vm_compute. reflexivity.
  - vm_compute. reflexivity.
Defined.

(** C5 fails as stated: the probe path is answered 200 whatever the
    request lacks. *)
Lemma probe_is_answered_before_header_check :
  let req := incoming "GET" "/iscorsneeded"
               [("host", "proxy.test"); ("origin", "http://bad.test")] in
  method req <> "OPTIONS"
  /\ hasRequiredHeaders strict_options (headers (prepared strict_options req)) = false
  /\ Str.mem (origin_of (prepared strict_options req))
             (corsAnywhere.originBlacklist strict_options) = true
  /\ handler (RT := node) strict_options req
     = ([], Replied 200 None [("Content-Type", HStr "text/plain")] "no").
Proof.
  repeat split. vm_compute. discriminate.
Qed.

(** C10 (as amended).  For every request other than a preflight that
    carries no [Origin] header and gets as far as the origin checks (the
    hook, if any, declined it; its target was parsed, is not the probe host,
    has a port in range and an accepted host name; a required header is
    present), the checks use the empty string as the origin, and the whole
    result of the handler is this: the request is rejected with 403 as
    blacklisted exactly when the empty string is an entry of
    [originBlacklist]; otherwise it is rejected with 403 as not whitelisted
    when [originWhitelist] is non-empty and lacks the empty string;
    otherwise with 403 when a target list rejects the host name; otherwise
    a configured rate-limit checker is called with the empty string and
    with nothing else, and the request is answered 429 with the message the
    checker returned for the empty string, or, when that is empty or no
    checker is configured, handed to [proxyRequest].  The redirect of
    lines 427-436 never applies. *)
Theorem absent_origin_is_checked_as_empty_string {RT : Runtime}
    (options : corsAnywhere.t) (req : Request) (location : Url.t) :
  parseURL (Str.slice 1 (url req)) = Some location ->
  reaches_header_check options req location = true ->
  hasRequiredHeaders options (headers (prepared options req)) = true ->
  Object.get "origin" (headers req) = None ->
  let cors_headers := cors_headers_of options req in
  handler options req
  = if Str.mem "" (corsAnywhere.originBlacklist options) then
      (hook_calls options (Some location),
       Replied 403 (Some "Forbidden") cors_headers
         ("The origin " ++ dquote ++ "" ++ dquote
            ++ " was blacklisted by the operator of this proxy."))
    else if (negb (Nat.eqb (length (corsAnywhere.originWhitelist options)) 0)
             && negb (Str.mem "" (corsAnywhere.originWhitelist options)))%bool then
      (hook_calls options (Some location),
       Replied 403 (Some "Forbidden") cors_headers
         ("The origin " ++ dquote ++ "" ++ dquote
            ++ " was not whitelisted by the operator of this proxy."))
    else if target_lists_reject options location then
      (hook_calls options (Some location),
       Replied 403 (Some "Forbidden") cors_headers
         ("The target URL hostname " ++ dquote ++ or_empty (Url.hostname location)
            ++ dquote ++ " is not allowed by this proxy."))
    else
      match corsAnywhere.checkRateLimit options with
      | Some check =>
          ((hook_calls options (Some location) ++ [CallCheckRateLimit ""])%list,
           if truthy (check "") then
             Replied 429 (Some "Too Many Requests") cors_headers
               ("The origin " ++ dquote ++ "" ++ dquote ++ " has sent too many requests."
                  ++ newline ++ or_empty (check ""))
           else Proxied (hand_over options (prepared options req) location))
      | None =>
          (hook_calls options (Some location),
           Proxied (hand_over options (prepared options req) location))
      end.
Proof.
  intros Hparse Hreach Hrequired Horigin. cbv zeta.
  rewrite (handler_at_header_check options req location Hparse Hreach).
  cbv zeta. rewrite Hrequired.
  unfold policy_checks, target_lists_reject.
  destruct (prepared_request options req) as (_ & _ & Hget).
  rewrite (Hget "origin") by discriminate. rewrite Horigin.
  destruct (Str.mem "" (corsAnywhere.originBlacklist options)); cbn [fst snd].
  { now rewrite app_nil_r. }
  destruct (negb (Nat.eqb (length (corsAnywhere.originWhitelist options)) 0)
            && negb (Str.mem "" (corsAnywhere.originWhitelist options)))%bool;
    cbn [fst snd].
  { now rewrite app_nil_r. }
  destruct (Nat.ltb 0 (length (corsAnywhere.targetBlacklist options))
            && negb (existsb _ (corsAnywhere.targetBlacklist options)))%bool;
    cbn [fst snd orb].
  { now rewrite app_nil_r. }
  destruct (Nat.ltb 0 (length (corsAnywhere.targetWhitelist options))
            && negb (existsb _ (corsAnywhere.targetWhitelist options)))%bool;
    cbn [fst snd orb].
  { now rewrite app_nil_r. }
  change (String.eqb "" "") with true. cbn [negb andb].
  rewrite andb_false_r.
  destruct (corsAnywhere.checkRateLimit options) as [check|].
  - destruct (truthy (check "")); reflexivity.
  - cbn [truthy]. now rewrite app_nil_r.
Qed.

Lemma absent_origin_is_checked_as_empty_string_witness :
  handler (RT := node) ratelimit_options example_request
  = ([CallCheckRateLimit ""],
     Proxied (hand_over ratelimit_options (prepared ratelimit_options example_request)
                (Node.parse "http://example.com/"))).
Proof.
  apply (@absent_origin_is_checked_as_empty_string node ratelimit_options example_request
           (Node.parse "http://example.com/")).
  - vm_compute. reflexivity.
  - vm_compute. reflexivity.
  - vm_compute. reflexivity.
  - vm_compute. reflexivity.
Defined.

(** C10 fails as stated: without an [Origin] header and with a whitelist
    that lacks the empty string, the probe path is still answered 200, and
    the rate-limit checker is not called. *)
Lemma probe_is_answered_before_origin_checks :
  let req := incoming "GET" "/iscorsneeded" [("host", "proxy.test")] in
  method req <> "OPTIONS"
  /\ Object.get "origin" (headers req) = None
  /\ Str.mem "" (corsAnywhere.originWhitelist whitelist_options) = false
  /\ handler (RT := node) whitelist_options req
     = ([], Replied 200 None [("Content-Type", HStr "text/plain")] "no").
Proof.
  repeat split. vm_compute. discriminate.
Qed.

(** ** Response mediation *)

Lemma mirror_request_header_get from to hr k :
  k <> to ->
  Object.get k (fst (mirror_request_header from to hr)) = Object.get k (fst hr).
Proof.
  intros Hk. destruct hr as [h request]. unfold mirror_request_header.
  destruct (truthy _); auto.
  destruct (Object.get from (headers request)); simpl; auto.
  now apply get_set_other.
Qed.

(** [withCORS] leaves every header alone that is not one of the six it
    writes. *)
Lemma withCORS_get_other h request k :
  ~ In k cors_written ->
  Object.get k (fst (withCORS h request)) = Object.get k h.
Proof.
  intros Hk. unfold withCORS, withCORS_allow.
  match goal with
  | |- context [mirror_request_header ?f2 ?t2 (mirror_request_header ?f1 ?t1 ?hr)] =>
      pose proof (mirror_request_header_get f2 t2 (mirror_request_header f1 t1 hr) k) as H2;
      pose proof (mirror_request_header_get f1 t1 hr k) as H1;
      destruct (mirror_request_header f2 t2 (mirror_request_header f1 t1 hr)) as [h2 r2]
  end.
  simpl in *.
  assert (forall x, In x cors_written -> k <> x) as Hne by (intros x Hx ->; auto).
  rewrite !get_set_other by (apply Hne; simpl; tauto).
  rewrite H2, H1 by (apply Hne; simpl; tauto).
  destruct (_ && _)%bool; rewrite !get_set_other by (apply Hne; simpl; tauto);
    reflexivity.
Qed.

Lemma withCORS_dom h request x :
  In x (map fst (fst (withCORS h request))) -> In x cors_written \/ In x (map fst h).
Proof.
  unfold withCORS.
  pose proof (withCORS_allow_dom h request x) as H.
  destruct (withCORS_allow h request) as [h1 r1]. simpl in *.
  rewrite !dom_set. intros [->|[->|Hx]]; [simpl; tauto | simpl; tauto |].
  destruct (H Hx) as [Hc|Hc]; [|tauto].
  left. unfold cors_names in Hc. simpl in *. tauto.
Qed.

Lemma is_redirect_307_308 (statusCode : Z) :
  statusCode = 307 \/ statusCode = 308 ->
  is_redirect_status statusCode = true /\ is_followed_status statusCode = false.
Proof.
  intros [->| ->]; split; reflexivity.
Qed.

(** What the mediator itself does with a 307 or 308 (C3 as far as the
    mediator goes).  For every response of the target with status 307 or 308 whose
    [Location] header is present and, resolved against the current target,
    is accepted by [parseURL], the mediator does not re-issue the request,
    whatever the redirect counter: it returns true, leaving counter and
    target as they are, and the response it lets through has the same
    status and a [Location] header equal to the proxy's base URL, a slash
    and the resolved location. *)
Theorem status_307_308_never_followed {RT : Runtime}
    (proxyRes : ProxyRes.t) (req : Request) (res : Res.t)
    (loc parsedLocation : Url.t) (base : string) (v : hval) :
  ProxyRes.statusCode proxyRes = 307 \/ ProxyRes.statusCode proxyRes = 308 ->
  location (corsAnywhereRequestState req) = Some loc ->
  proxyBaseUrl (corsAnywhereRequestState req) = Some base ->
  Object.get "location" (ProxyRes.headers proxyRes) = Some v ->
  hval_truthy v = true ->
  parseURL (url_resolve (Url.href loc) (hval_string v)) = Some parsedLocation ->
  exists proxyRes' req' res',
    onProxyResponse proxyRes req res = Finalized proxyRes' req' res'
    /\ ProxyRes.statusCode proxyRes' = ProxyRes.statusCode proxyRes
    /\ Object.get "location" (ProxyRes.headers proxyRes')
       = Some (HStr (base ++ "/" ++ url_resolve (Url.href loc) (hval_string v)))
    /\ redirectCount_ (corsAnywhereRequestState req')
       = redirectCount_ (corsAnywhereRequestState req)
    /\ location (corsAnywhereRequestState req') = Some loc.
Proof.
  intros Hstatus Hloc Hbase Hheader Htruthy Hparsed.
  apply is_redirect_307_308 in Hstatus as [Hredirect Hfollowed].
  unfold onProxyResponse. rewrite Hloc, Hredirect, Hheader, Htruthy, Hparsed, Hfollowed.
  unfold finalize, rewrite_location. rewrite Hbase. simpl show.
  match goal with
  | |- context [withCORS ?h req] =>
      pose proof (withCORS_get_other h req "location") as Hget;
      destruct (withCORS_request h req) as (_ & _ & _ & Hstate & _);
      destruct (withCORS h req) as [h' req']
  end.
  simpl in *. do 3 eexists. split; [reflexivity|]. simpl.
  repeat split; try (rewrite Hstate; auto).
  rewrite Hget by (simpl; intuition discriminate).
  rewrite get_set_other by discriminate.
  rewrite !get_delete_other by discriminate.
  apply get_set_same.
Qed.

Lemma status_307_308_never_followed_witness :
  exists proxyRes' req' res',
    onProxyResponse (RT := node) temporary_redirect
      (admitted_request (RT := node) default_options example_request) Res.fresh
    = Finalized proxyRes' req' res'
    /\ ProxyRes.statusCode proxyRes' = 307
    /\ Object.get "location" (ProxyRes.headers proxyRes')
       = Some (HStr "http://proxy.test/http://example.com/next")
    /\ redirectCount_ (corsAnywhereRequestState req') = None
    /\ location (corsAnywhereRequestState req') = Some (Node.parse "http://example.com/").
Proof.
  apply (@status_307_308_never_followed node temporary_redirect
           (admitted_request (RT := node) default_options example_request) Res.fresh
           (Node.parse "http://example.com/") (Node.parse "http://example.com/next")
           "http://proxy.test" (HStr "http://example.com/next")).
  - left. reflexivity.
  - vm_compute. reflexivity.
  - vm_compute. reflexivity.
  - reflexivity.
  - reflexivity.
  - vm_compute. reflexivity.
Defined.

(** ** The fallback error listener *)

Lemma dom_in_keys (V : Type) (o : Obj V) (k : string) :
  In k (map fst o) -> In k (Object.keys o).
Proof.
  unfold Object.keys. rewrite in_app_iff.
  induction o as [|[k' v'] r IH]; simpl; [tauto|].
  intros [E|H].
  - subst k'. destruct (Object.array_index k) as [n|] eqn:Hk.
    + left. apply in_map_iff. exists (n, k). split; auto.
      apply in_insert_index. auto.
    + right. simpl. auto.
  - destruct (IH H) as [Hi|Hn]; destruct (Object.array_index k') as [n|].
    + left. apply in_map_iff in Hi as [p [E Hp]].
      apply in_map_iff. exists p. split; auto. apply in_insert_index. auto.
    + left. exact Hi.
    + right. exact Hn.
    + right. simpl. auto.
Qed.

(** Removing every header name the response reports leaves no header. *)
Lemma removeHeader_all (names : list string) (res : Res.t) :
  (forall k, In k names -> Str.toLowerCase k = k) ->
  (forall k, In k (map fst (Res.headers res)) -> In k names) ->
  fold_left (fun r name => Res.removeHeader name r) names res
  = Res.mk (Res.headersSent res) (Res.writableEnded res) (Res.statusCode res)
           (Res.statusMessage res) [] (Res.body res).
Proof.
  revert res. induction names as [|name names IH]; intros res Hlower Hall; simpl.
  - destruct res as [hs we sc sm h b]. simpl in *.
    destruct h as [|[k v] h]; [reflexivity|].
    exfalso. apply (Hall k). simpl. auto.
  - rewrite IH.
    + reflexivity.
    + intros k Hk. apply Hlower. simpl. auto.
    + unfold Res.removeHeader. simpl. intros k Hk.
      apply dom_delete in Hk as [Hne Hk].
      rewrite (Hlower name) in Hne by (simpl; auto).
      destruct (Hall k Hk) as [E|Hin]; [congruence | exact Hin].
Qed.

(** C8 (as amended).  When [createServer] is given no [customListeners],
    every error the proxy emits reaches the fallback listener, and that
    listener alone.  If the headers were already sent it ends the response
    unless it is ended, and writes no body; otherwise it removes every
    header set so far and replies 404 with the single header
    [Access-Control-Allow-Origin: *] and the body
    ["Not found because of proxy error: "] followed by the error.  The
    header names of the response are in lower case, as Node keeps them. *)
Theorem fallback_replies_404_or_ends (err : string) (req : Request) (res : Res.t) :
  lower_case_names (Res.headers res) ->
  let emitted := emit_error (createServer_error_listeners None) err req res in
  snd emitted = ErrorEmitted err
  /\ fst emitted
     = if Res.headersSent res then
         Res.mk true true (Res.statusCode res) (Res.statusMessage res)
                (Res.headers res) (Res.body res)
       else
         Res.mk true true 404 (Res.statusMessage res)
                [("access-control-allow-origin", ("Access-Control-Allow-Origin", HStr "*"))]
                (Res.body res ++ "Not found because of proxy error: " ++ err).
Proof.
  intros Hlower. simpl. split; [reflexivity|].
  unfold default_error_listener.
  destruct res as [hs we sc sm h b]. simpl in *.
  destruct hs.
  - destruct we; simpl; unfold Res.end_; simpl; [reflexivity|].
    f_equal. induction b; simpl; congruence.
  - unfold Res.getHeaderNames. simpl.
    rewrite removeHeader_all.
    + reflexivity.
    + intros k Hk. apply Hlower. now apply keys_in_dom.
    + intros k Hk. now apply dom_in_keys.
Qed.

Lemma fallback_replies_404_or_ends_witness :
  let held := Res.setHeader "X-Request-URL" (HStr "http://example.com/") Res.fresh in
  fst (emit_error (createServer_error_listeners None) "Error: connect ECONNREFUSED"
                  example_request held)
  = Res.mk true true 404 None
           [("access-control-allow-origin", ("Access-Control-Allow-Origin", HStr "*"))]
           "Not found because of proxy error: Error: connect ECONNREFUSED".
Proof.
  intros held.
  refine (proj2 (fallback_replies_404_or_ends "Error: connect ECONNREFUSED"
                   example_request held _)).
  intros k [E|[]]. now subst k.
Defined.

(** C8 fails as stated: with a [customListeners] option, here one that
    names no listener, the fallback is not installed; the failure of the
    exchange finds no listener, and the response is left without status
    404 and without any header. *)
Lemma custom_listeners_replace_fallback :
  let run := proxyRequest (RT := node) (unreachable (Some [])) 1 0 false
               (admitted_request (RT := node) default_options example_request) Res.fresh in
  error_listeners (unreachable (Some [])) = []
  /\ ending run = ErrorUnhandled "Error: connect ECONNREFUSED"
  /\ Res.statusCode (run_res run) = 200
  /\ Res.headersSent (run_res run) = false
  /\ Res.getHeader "Access-Control-Allow-Origin" (run_res run) = None.
Proof.
  repeat split.
Qed.

(** ** Cookies *)

Lemma cookie_free_get (res : Res.t) :
  cookie_free res <->
  Object.get "set-cookie" (Res.headers res) = None
  /\ Object.get "set-cookie2" (Res.headers res) = None.
Proof.
  unfold cookie_free, Res.getHeader.
  change (Str.toLowerCase "Set-Cookie") with "set-cookie".
  change (Str.toLowerCase "Set-Cookie2") with "set-cookie2".
  destruct (Object.get "set-cookie" (Res.headers res));
    destruct (Object.get "set-cookie2" (Res.headers res)); simpl;
    split; intros [? ?]; split; congruence.
Qed.

Lemma setHeader_cookie_free (name : string) (v : hval) (res : Res.t) :
  no_cookie_name name -> cookie_free res -> cookie_free (Res.setHeader name v res).
Proof.
  intros [H1 H2]. rewrite !cookie_free_get. unfold Res.setHeader. simpl.
  intros [G1 G2]. rewrite !get_set_other by congruence. auto.
Qed.

Lemma end_cookie_free (data : string) (res : Res.t) :
  cookie_free res -> cookie_free (Res.end_ data res).
Proof.
  rewrite !cookie_free_get. auto.
Qed.

Lemma end_after_redirect_cookie_free (nested : bool) (res : Res.t) :
  cookie_free res -> cookie_free (end_after_redirect nested res).
Proof.
  unfold end_after_redirect. destruct (_ && _)%bool; auto using end_cookie_free.
Qed.

Lemma setHeaders_cookie_free (h : Obj hval) (names : list string) (res : Res.t) :
  (forall k, In k names -> no_cookie_name k) ->
  cookie_free res ->
  cookie_free (fold_left (fun r k => match Object.get k h with
                                     | Some v => Res.setHeader k v r
                                     | None => r
                                     end) names res).
Proof.
  revert res. induction names as [|k names IH]; intros res Hnames Hres; simpl; auto.
  apply IH; [intros; apply Hnames; simpl; auto|].
  destruct (Object.get k h); auto.
  apply setHeader_cookie_free; auto. apply Hnames. simpl. auto.
Qed.

Lemma deliver_cookie_free (proxyRes : ProxyRes.t) (res : Res.t) :
  (forall k, In k (map fst (ProxyRes.headers proxyRes)) -> no_cookie_name k) ->
  cookie_free res -> cookie_free (deliver proxyRes res).
Proof.
  intros Hnames Hres. unfold deliver.
  set (copied := fold_left _ _ res).
  assert (Hcopied : cookie_free copied).
  { apply setHeaders_cookie_free; auto. intros k Hk. now apply Hnames, keys_in_dom. }
  assert (Hstatus : cookie_free
                      (Res.mk (Res.headersSent copied) (Res.writableEnded copied)
                              (ProxyRes.statusCode proxyRes) (Res.statusMessage copied)
                              (Res.headers copied) (Res.body copied))).
  { apply cookie_free_get. apply cookie_free_get in Hcopied. exact Hcopied. }
  destruct (Res.headersSent res);
    match goal with
    | |- cookie_free (if ?b then _ else _) => destruct b
    end; auto using end_cookie_free.
Qed.

Section MediationFacts.
Context {RT : Runtime}.

(** The headers [finalize] lets through have no cookie name, when those it
    starts from have none besides [set-cookie] and [set-cookie2]. *)
Lemma finalize_names (loc : Url.t) (proxyRes : ProxyRes.t) (req : Request) (res : Res.t) :
  (forall k, In k (map fst (ProxyRes.headers proxyRes)) ->
             k = "set-cookie" \/ k = "set-cookie2" \/ no_cookie_name k) ->
  match finalize loc proxyRes req res with
  | Finalized proxyRes' _ res' =>
      res' = res
      /\ Object.get "set-cookie" (ProxyRes.headers proxyRes') = None
      /\ Object.get "set-cookie2" (ProxyRes.headers proxyRes') = None
      /\ forall k, In k (map fst (ProxyRes.headers proxyRes')) -> no_cookie_name k
  | _ => False
  end.
Proof.
  intros Hnames. unfold finalize.
  match goal with
  | |- context [withCORS ?h req] =>
      pose proof (withCORS_get_other h req) as Hget;
      pose proof (withCORS_dom h req) as Hdom;
      destruct (withCORS h req) as [h' req']
  end.
  simpl in *. split; [reflexivity|]. split; [|split].
  - rewrite Hget by (simpl; intuition discriminate).
    rewrite get_set_other by discriminate.
    rewrite get_delete_other by discriminate. apply get_delete_same.
  - rewrite Hget by (simpl; intuition discriminate).
    rewrite get_set_other by discriminate. apply get_delete_same.
  - intros k Hk. destruct (Hdom k Hk) as [Hc|Hc].
    + simpl in Hc. decompose [or] Hc; subst; try tauto; split; discriminate.
    + apply dom_set in Hc as [->|Hc]; [split; discriminate|].
      apply dom_delete in Hc as [Hne2 Hc]. apply dom_delete in Hc as [Hne1 Hc].
      destruct (Hnames k Hc) as [?|[?|?]]; congruence || auto.
Qed.

Lemma lower_case_no_cookie (h : Obj hval) :
  lower_case_names h ->
  forall k, In k (map fst h) -> k = "set-cookie" \/ k = "set-cookie2" \/ no_cookie_name k.
Proof.
  intros Hlower k Hk. specialize (Hlower k Hk).
  destruct (String.eqb_spec k "set-cookie"); auto.
  destruct (String.eqb_spec k "set-cookie2"); auto.
  right. right. unfold no_cookie_name. rewrite Hlower. auto.
Qed.

Lemma redirect_header_name (n : Z) : no_cookie_name ("X-CORS-Redirect-" ++ Str.of_Z n).
Proof.
  split; simpl; discriminate.
Qed.

(** What [onProxyResponse] does to the response and to the headers of the
    target, as far as cookies go. *)
Lemma onProxyResponse_cookies (proxyRes : ProxyRes.t) (req : Request) (res : Res.t) :
  lower_case_names (ProxyRes.headers proxyRes) ->
  cookie_free res ->
  cookie_safe (onProxyResponse proxyRes req res).
Proof.
  intros Hlower Hres. unfold onProxyResponse.
  destruct (location (corsAnywhereRequestState req)) as [loc|]; [|exact I].
  set (res1 := if (_ && _)%bool then _ else res).
  assert (Hres1 : cookie_free res1).
  { subst res1. destruct (_ && _)%bool; auto.
    apply setHeader_cookie_free; auto. split; discriminate. }
  clearbody res1.
  assert (Hfinal : forall p r,
             (forall k, In k (map fst (ProxyRes.headers p)) ->
                        k = "set-cookie" \/ k = "set-cookie2" \/ no_cookie_name k) ->
             cookie_safe (finalize loc p r res1)).
  { intros p r Hn. pose proof (finalize_names loc p r res1 Hn) as H.
    destruct (finalize loc p r res1); try contradiction.
    destruct H as (-> & ? & ? & ?). simpl. auto. }
  assert (Hplain : forall r, cookie_safe (finalize loc proxyRes r res1)).
  { intros r. apply Hfinal. now apply lower_case_no_cookie. }
  assert (Hrewritten : forall r r' l,
             cookie_safe (finalize loc (rewrite_location r' l proxyRes) r res1)).
  { intros r r' l. apply Hfinal.
    unfold rewrite_location. simpl. intros k Hk.
    apply dom_set in Hk as [->|Hk]; [right; right; split; discriminate|].
    now apply lower_case_no_cookie with (h := ProxyRes.headers proxyRes). }
  destruct (is_redirect_status _); [|apply Hplain].
  destruct (Object.get "location" _) as [v|]; [|apply Hplain].
  destruct (hval_truthy v); [|apply Hplain].
  destruct (parseURL _) as [parsed|]; [|apply Hplain].
  destruct (is_followed_status _); [|apply Hrewritten].
  destruct (_ <=? _); [|apply Hrewritten].
  unfold cookie_safe. destruct (negb (Res.headersSent res1)); auto.
  apply setHeader_cookie_free; [apply redirect_header_name | exact Hres1].
Qed.

End MediationFacts.

Section EngineFacts.
Context {RT : Runtime}.
Variable proxy : HttpProxy.

(** No listener of ['error'] runs on the way to a response that is passed
    through, so only the mediator and http-proxy write to the response. *)
Lemma emit_error_not_passed (err : string) (req : Request) (res : Res.t) (p : ProxyRes.t) :
  snd (emit_error (error_listeners proxy) err req res) <> PassedThrough p.
Proof.
  unfold emit_error. destruct (error_listeners proxy); simpl; discriminate.
Qed.

(** Closes a case of the engine that ends in the ['error'] listeners. *)
Ltac error_ending :=
  match goal with
  | |- context [emit_error (error_listeners proxy) ?e ?r ?s] =>
      let H := fresh "Hemit" in
      pose proof (emit_error_not_passed e r s) as H;
      destruct (emit_error (error_listeners proxy) e r s); simpl in *;
      let E := fresh "Hend" in intros E; now elim (H _ E)
  end.

Lemma proxyRequest_cookies (fuel n : nat) (nested : bool) (req : Request) (res : Res.t)
    (proxyRes : ProxyRes.t) :
  (forall n out p, web proxy n out = Responds p -> lower_case_names (ProxyRes.headers p)) ->
  cookie_free res ->
  ending (proxyRequest proxy fuel n nested req res) = PassedThrough proxyRes ->
  cookie_free (run_res (proxyRequest proxy fuel n nested req res))
  /\ Object.get "set-cookie" (ProxyRes.headers proxyRes) = None
  /\ Object.get "set-cookie2" (ProxyRes.headers proxyRes) = None.
Proof.
  intros Hweb. revert n nested req res.
  induction fuel as [|fuel IH]; intros n nested req res Hres; simpl; [discriminate|].
  destruct (location (corsAnywhereRequestState req)) as [loc|]; [|discriminate].
  destruct (start_exchange req loc) as [out guarded|r err]; [|error_ending].
  destruct (web proxy n out) as [p|err|err] eqn:Hx.
  - pose proof (onProxyResponse_cookies p (out_request out) (end_after_redirect nested res)
                  (Hweb _ _ _ Hx) (end_after_redirect_cookie_free nested res Hres)) as Hsafe.
    destruct (onProxyResponse p (out_request out) (end_after_redirect nested res))
      as [r' s'|p' r' s'|]; simpl in *.
    + now apply IH.
    + destruct Hsafe as (Hs' & Hc1 & Hc2 & Hnames).
      intros [= <-]. split; [|auto].
      now apply deliver_cookie_free.
    + discriminate.
  - destruct guarded; [error_ending | simpl; discriminate].
  - error_ending.
Qed.

End EngineFacts.

(** For a request that is alone on the proxy: whatever the status of the
    responses of the target and however many redirects were followed, when
    a response is passed through to the client, neither the headers of that
    response as the mediator leaves them nor the headers of the response to
    the client contain [Set-Cookie] or [Set-Cookie2], in any letter case.
    The header names of the target's responses are in lower case, as Node
    delivers them, and the response to the client starts without cookies,
    as the handler leaves it. *)
Lemma lone_request_passes_no_cookie {RT : Runtime}
    (proxy : HttpProxy) (fuel n : nat) (nested : bool) (req : Request) (res : Res.t)
    (proxyRes : ProxyRes.t) :
  (forall n out p, web proxy n out = Responds p -> lower_case_names (ProxyRes.headers p)) ->
  cookie_free res ->
  ending (proxyRequest proxy fuel n nested req res) = PassedThrough proxyRes ->
  Res.getHeader "Set-Cookie" (run_res (proxyRequest proxy fuel n nested req res)) = None
  /\ Res.getHeader "Set-Cookie2" (run_res (proxyRequest proxy fuel n nested req res)) = None
  /\ Object.get "set-cookie" (ProxyRes.headers proxyRes) = None
  /\ Object.get "set-cookie2" (ProxyRes.headers proxyRes) = None.
Proof.
  intros Hweb Hres Hend.
  destruct (proxyRequest_cookies proxy fuel n nested req res proxyRes Hweb Hres Hend)
    as ([H1 H2] & H3 & H4).
  auto.
Qed.

Example lone_request_passes_no_cookie_example :
  let req := admitted_request (RT := node) default_options example_request in
  let run := proxyRequest (RT := node) sets_cookies 6 0 false req Res.fresh in
  let passed := match ending run with
                | PassedThrough p => p
                | _ => ProxyRes.mk 0 []
                end in
  Res.getHeader "Set-Cookie" (run_res run) = None
  /\ Res.getHeader "Set-Cookie2" (run_res run) = None
  /\ Object.get "set-cookie" (ProxyRes.headers passed) = None
  /\ Object.get "set-cookie2" (ProxyRes.headers passed) = None.
Proof.
  intros req run passed.
  apply (@lone_request_passes_no_cookie node sets_cookies 6 0 false req Res.fresh passed).
  - intros n out p H. inversion H. subst p. intros k Hk. simpl in Hk.
    destruct Hk as [<-|[<-|[<-|[]]]]; reflexivity.
  - split; reflexivity.
  - vm_compute. reflexivity.
Qed.

(** With one client the shared proxy does what [proxyRequest] describes. *)
Example one_client_on_shared_proxy :
  let admitted := admitted_request (RT := node) default_options request_a in
  Shared.response 0
    (serve_all (RT := node) [admitted] [Arrives 0; Answers 0 answer_with_cookie])
  = run_res (proxyRequest (RT := node)
               (mkProxy (fun _ _ => Responds answer_with_cookie)
                        (createServer_error_listeners None))
               6 0 false admitted Res.fresh).
Proof.
  vm_compute. reflexivity.
Qed.

(** Requests served one after the other are mediated each by its own
    listener. *)
Example requests_in_turn_pass_no_cookie :
  let served := serve_all (RT := node)
                  [admitted_request (RT := node) default_options request_a;
                   admitted_request (RT := node) default_options request_b]
                  one_after_the_other in
  Res.getHeader "Set-Cookie" (Shared.response 0 served) = None
  /\ Res.getHeader "Access-Control-Allow-Origin" (Shared.response 0 served)
     = Some (HStr "*").
Proof.
  split; vm_compute; reflexivity.
Qed.

(** C6 (the code at the failing input).  Two requests are admitted before
    either target answers, and the target of the second answers first.
    The ['proxyRes'] listeners of both requests, installed with
    [proxy.once] on the proxy they share, run for that first answer and
    are gone.  The answer to the first request then finds no listener: it
    reaches the client as the target sent it, with its [Set-Cookie] header
    and without [Access-Control-Allow-Origin]. *)
Theorem overlapping_requests_leak_cookie :
  let served := serve_all (RT := node)
                  [admitted_request (RT := node) default_options request_a;
                   admitted_request (RT := node) default_options request_b]
                  overlapping in
  Res.getHeader "Set-Cookie" (Shared.response 0 served) = Some (HArr ["session=1"])
  /\ Res.getHeader "Access-Control-Allow-Origin" (Shared.response 0 served) = None
  /\ Res.getHeader "X-Final-URL" (Shared.response 0 served) = None
  /\ Res.getHeader "X-Final-URL" (Shared.response 1 served)
     = Some (HStr "http://b.example.org/")
  /\ Shared.pending served = [].
Proof.
  repeat split; vm_compute; reflexivity.
Qed.

(** ** Redirects *)

Section RedirectFacts.
Context {RT : Runtime}.

(** Each redirect that is followed uses up one of the redirects the
    counter allows. *)
Lemma followed_redirect_uses_budget (p : ProxyRes.t) (r r' : Request) (s s' : Res.t) :
  onProxyResponse p r s = Redirected r' s' ->
  (redirects_left r' < redirects_left r)%nat.
Proof.
  unfold onProxyResponse, finalize.
  destruct (location (corsAnywhereRequestState r)) as [loc|]; [|discriminate].
  destruct (is_redirect_status _);
    [|destruct (withCORS _ _); discriminate].
  destruct (Object.get "location" _) as [v|];
    [|destruct (withCORS _ _); discriminate].
  destruct (hval_truthy v); [|destruct (withCORS _ _); discriminate].
  destruct (parseURL _) as [parsed|]; [|destruct (withCORS _ _); discriminate].
  destruct (is_followed_status _); [|destruct (withCORS _ _); discriminate].
  destruct (next_redirectCount _ <=? _) eqn:Hle;
    [|destruct (withCORS _ _); discriminate].
  intros H. inversion H. subst r'. clear H.
  apply Z.leb_le in Hle. unfold redirects_left. simpl.
  unfold next_redirectCount in *.
  destruct (redirectCount_ (corsAnywhereRequestState r)) as [c|];
    [destruct (Z.eqb_spec (c + 1) 0)|]; lia.
Qed.

(** Starting the exchange leaves counter and limit alone. *)
Lemma start_exchange_budget (req : Request) (loc : Url.t) (out : Outbound) (guarded : bool) :
  start_exchange req loc = Calls out guarded ->
  redirects_left (out_request out) = redirects_left req.
Proof.
  unfold start_exchange, outbound. simpl.
  destruct (truthy _); destruct (dnsLookup _) as [lookup|]; simpl;
    try destruct (lookup _); intros [= <- _]; reflexivity.
Qed.

Variable proxy : HttpProxy.

(** Closes a case of the engine that ends in the ['error'] listeners. *)
Ltac error_case :=
  unfold emit_error; destruct (error_listeners proxy); simpl;
  (split; [lia | intros; discriminate]).

(** The engine makes at most one exchange more than the counter allows
    redirects, whatever the target answers, and whatever fuel it is given;
    with more fuel than that it does not run out. *)
Lemma proxyRequest_exchanges (fuel n : nat) (nested : bool) (req : Request) (res : Res.t) :
  (length (exchanges (proxyRequest proxy fuel n nested req res)) <= S (redirects_left req))%nat
  /\ ((redirects_left req < fuel)%nat ->
      ending (proxyRequest proxy fuel n nested req res) <> OutOfFuel).
Proof.
  revert n nested req res.
  induction fuel as [|fuel IH]; intros n nested req res; simpl.
  { split; [lia | intros; lia]. }
  destruct (location (corsAnywhereRequestState req)) as [loc|];
    [|split; [simpl; lia | simpl; discriminate]].
  destruct (start_exchange req loc) as [out guarded|r err] eqn:Hstart; [|error_case].
  apply start_exchange_budget in Hstart.
  destruct (web proxy n out) as [p|err|err].
  - pose proof (followed_redirect_uses_budget p (out_request out)) as Hbudget.
    destruct (onProxyResponse p (out_request out) (end_after_redirect nested res))
      as [r' s'|p' r' s'|] eqn:Hm; simpl.
    + specialize (Hbudget r' _ s' Hm).
      destruct (IH (S n) true r' s') as [Hlen Hfuel].
      split; [lia | intros; apply Hfuel; lia].
    + split; [lia | discriminate].
    + split; [lia | discriminate].
  - destruct guarded; [error_case | simpl; split; [lia | discriminate]].
  - error_case.
Qed.

End RedirectFacts.

Section ServeFacts.
Context {RT : Runtime}.
Variable options : corsAnywhere.t.

(** The only request the handler hands to [proxyRequest] is the one built
    at lines 438-452. *)
Lemma handler_proxied (req admitted : Request) :
  snd (handler options req) = Proxied admitted ->
  exists location, admitted = hand_over options (prepared options req) location.
Proof.
  rewrite handler_unfold. cbv zeta.
  destruct (String.eqb (method req) "OPTIONS"); [discriminate|].
  destruct (negb (hook_declines _ _ _)); [discriminate|].
  destruct (parseURL _) as [location|].
  - simpl snd. unfold target_checks, policy_checks.
    repeat match goal with
           | |- context [if ?b then _ else _] => destruct b; simpl snd; try discriminate
           end.
    intros H. inversion H. eauto.
  - destruct (looks_like_missing_slash _); discriminate.
Qed.

Lemma admitted_state (req admitted : Request) :
  snd (handler options req) = Proxied admitted ->
  maxRedirects (corsAnywhereRequestState admitted) = corsAnywhere.maxRedirects options
  /\ redirectCount_ (corsAnywhereRequestState admitted) = None.
Proof.
  intros H. apply handler_proxied in H as [location ->].
  unfold hand_over, prepared. simpl.
  destruct (withCORS_request [] (with_state (initial_state options) req))
    as (_ & _ & _ & Hstate & _).
  rewrite Hstate. simpl. auto.
Qed.

(** The part of C2 that holds: for every admitted request and whatever the
    target answers, exchange after exchange, the engine comes to an end and
    has made at most [maxRedirects + 1] exchanges ([maxRedirects] being a
    count, that is, not negative). *)
Lemma redirect_following_terminates (proxy : HttpProxy) (req : Request) (run : Run) :
  0 <= corsAnywhere.maxRedirects options ->
  serve options proxy req = Some run ->
  Z.of_nat (length (exchanges run)) <= corsAnywhere.maxRedirects options + 1
  /\ ending run <> OutOfFuel.
Proof.
  intros Hmax. unfold serve.
  destruct (snd (handler options req)) as [| | |admitted] eqn:Hadmitted; try discriminate.
  intros H.
  assert (Hrun : run = proxyRequest proxy (enough_fuel admitted) 0 false admitted Res.fresh)
    by congruence.
  clear H. rewrite Hrun. clear Hrun.
  destruct (admitted_state req admitted Hadmitted) as [Hm Hc].
  destruct (proxyRequest_exchanges proxy (enough_fuel admitted) 0 false admitted Res.fresh)
    as [Hlen Hfuel].
  assert (Hleft : redirects_left admitted = Z.to_nat (corsAnywhere.maxRedirects options)).
  { unfold redirects_left. rewrite Hm, Hc. f_equal. lia. }
  split.
  - rewrite Hleft in Hlen. lia.
  - apply Hfuel. unfold enough_fuel, redirects_left. lia.
Qed.

End ServeFacts.

(** C2 (the code at the failing input).  With the default options
    ([maxRedirects] 5) and a target that answers every request with a 302
    to itself, six exchanges are made and the sixth response leaves the
    mediator with its [Location] pointing back at the proxy.  But the
    response to the client was ended when the first redirect was followed:
    it has status 200, the header [X-CORS-Redirect-1] and no
    [X-CORS-Redirect-2], and no [Location]. *)
Theorem redirect_loop_ends_client_response_at_first_hop :
  exists run passed,
    serve (RT := node) default_options redirect_to_self example_request = Some run
    /\ length (exchanges run) = 6%nat
    /\ ending run = PassedThrough passed
    /\ ProxyRes.statusCode passed = 302
    /\ Object.get "location" (ProxyRes.headers passed)
       = Some (HStr "http://proxy.test/http://example.com/")
    /\ Res.writableEnded (run_res run) = true
    /\ Res.statusCode (run_res run) = 200
    /\ Res.getHeader "X-CORS-Redirect-1" (run_res run) = Some (HStr "302 http://example.com/")
    /\ Res.getHeader "X-CORS-Redirect-2" (run_res run) = None
    /\ Res.getHeader "Location" (run_res run) = None.
Proof.
  eexists. eexists. split; [vm_compute; reflexivity|].
  repeat split.
Qed.

(** The response is ended by the listener of lines 108-119, not by the
    mediator: after the first redirect is followed the mediator has only
    set two headers. *)
Example first_redirect_is_followed :
  exists req' res',
    onProxyResponse (RT := node)
      (ProxyRes.mk 302 [("location", HStr "http://example.com/")])
      (admitted_request (RT := node) default_options example_request) Res.fresh
    = Redirected req' res'
    /\ Res.writableEnded res' = false
    /\ Res.writableEnded (end_after_redirect true res') = true.
Proof.
  eexists. eexists. split; [vm_compute; reflexivity|].
  split; reflexivity.
Qed.

(** * Further properties *)

(** ** Strings *)

Lemma prefix_split (p s : string) :
  String.prefix p s = true -> s = p ++ Str.slice (String.length p) s.
Proof.
  revert s. induction p as [|a p IH]; intros s.
  - reflexivity.
  - destruct s as [|b s]; simpl; [discriminate|].
    destruct (ascii_dec a b) as [->|]; [|discriminate].
    intros H. f_equal. now apply IH.
Qed.

Lemma prefix_app (p r : string) : String.prefix p (p ++ r) = true.
Proof.
  induction p as [|a p IH]; simpl.
  - now destruct r.
  - destruct (ascii_dec a a); [exact IH | congruence].
Qed.

Lemma slice_app (p r : string) : Str.slice (String.length p) (p ++ r) = r.
Proof.
  induction p as [|a p IH]; simpl; auto.
Qed.

Lemma strip_prefix_some (p s r : string) :
  Str.strip_prefix p s = Some r <-> s = p ++ r.
Proof.
  unfold Str.strip_prefix, Str.startsWith. split.
  - destruct (String.prefix p s) eqn:H; [|discriminate].
    intros [= <-]. now apply prefix_split.
  - intros ->. now rewrite prefix_app, slice_app.
Qed.

Lemma substring_slice (n : nat) (s : string) :
  s = substring 0 n s ++ Str.slice n s.
Proof.
  revert s. induction n as [|n IH]; intros [|c s]; simpl; auto.
  f_equal. apply IH.
Qed.

Lemma substring_length_le (n : nat) (s : string) :
  (String.length (substring 0 n s) <= n)%nat.
Proof.
  revert s. induction n as [|n IH]; intros [|c s]; simpl; auto with arith.
Qed.

Lemma toLowerCase_length (s : string) :
  String.length (Str.toLowerCase s) = String.length s.
Proof.
  induction s; simpl; auto.
Qed.

Lemma app_length_string (a b : string) :
  String.length (a ++ b) = (String.length a + String.length b)%nat.
Proof.
  induction a; simpl; auto.
Qed.

(** A case-insensitive prefix test that succeeds splits the string into
    the prefix as written and the rest. *)
Lemma startsWith_ci_split (p s : string) :
  Str.startsWith_ci p s = true ->
  Str.toLowerCase (substring 0 (String.length p) s) = p
  /\ s = substring 0 (String.length p) s ++ Str.slice (String.length p) s.
Proof.
  unfold Str.startsWith_ci. intros H. split; [|apply substring_slice].
  apply prefix_split in H.
  set (x := Str.toLowerCase (substring 0 (String.length p) s)) in *.
  assert (Hlen : (String.length x <= String.length p)%nat).
  { subst x. rewrite toLowerCase_length. apply substring_length_le. }
  rewrite H in Hlen. rewrite app_length_string in Hlen.
  destruct (Str.slice (String.length p) x) as [|c r] eqn:E.
  - rewrite H. clear. induction p; simpl; congruence.
  - simpl in Hlen. lia.
Qed.

Lemma lower_ascii_not_letter (c x : ascii) :
  Str.lower_ascii c = x ->
  (Nat.leb 97 (nat_of_ascii x) && Nat.leb (nat_of_ascii x) 122)%bool = false ->
  c = x.
Proof.
  destruct c as [[] [] [] [] [] [] [] []]; vm_compute; intros <-; vm_compute;
    intros; congruence.
Qed.

Lemma string_app_empty (s : string) : s ++ "" = s.
Proof.
  induction s; simpl; congruence.
Qed.

Lemma startsWith_lower_ci (p s : string) :
  Str.toLowerCase p = p -> Str.startsWith p s = true -> Str.startsWith_ci p s = true.
Proof.
  unfold Str.startsWith, Str.startsWith_ci. intros Hp H.
  apply prefix_split in H. rewrite H at 1.
  replace (substring 0 (String.length p) (p ++ Str.slice (String.length p) s)) with p.
  - rewrite Hp. rewrite <- (string_app_empty p) at 2. apply prefix_app.
  - clear. generalize (Str.slice (String.length p) s). intros r.
    induction p; simpl; [now destruct r | congruence].
Qed.

(** ** The URL pattern *)

Lemma take_digits_spec (n : nat) (s d rest : string) :
  take_digits n s = (d, rest) ->
  s = d ++ rest /\ all_digits d /\ (String.length d <= n)%nat.
Proof.
  revert s d rest. induction n as [|n IH]; intros s d rest; simpl.
  - destruct s; intros [= <- <-]; repeat split; auto; intros c [].
  - destruct s as [|c s]; [intros [= <- <-]; repeat split; auto with arith; intros c []|].
    destruct (Str.is_digit c) eqn:Hc.
    + destruct (take_digits n s) as [d' rest'] eqn:E.
      intros [= <- <-]. destruct (IH _ _ _ E) as (-> & Hd & Hl).
      repeat split; simpl; auto with arith.
      intros x [<-|Hx]; auto.
    + intros [= <- <-]. repeat split; auto with arith. intros x [].
Qed.

Lemma match_port_spec (s d rest : string) :
  match_port s = Some (d, rest) ->
  s = ":" ++ d ++ rest /\ all_digits d /\ (String.length d <= 5)%nat
  /\ at_path_or_end rest = true.
Proof.
  unfold match_port. destruct s as [|c s]; [discriminate|].
  destruct (Ascii.eqb_spec c ":") as [->|Hc].
  - destruct (take_digits 5 s) as [d' rest'] eqn:E.
    destruct (at_path_or_end rest') eqn:Hr; [|discriminate].
    intros [= <- <-]. destruct (take_digits_spec _ _ _ _ E) as (-> & Hd & Hl).
    auto.
  - destruct c as [[] [] [] [] [] [] [] []]; try discriminate. now elim Hc.
Qed.

Lemma match_host_tail_spec (s h rest : string) (p : option string) :
  match_host_tail s = Some (h, p, rest) ->
  s = h ++ port_text p ++ rest
  /\ host_chars h
  /\ (forall d, p = Some d -> all_digits d /\ (String.length d <= 5)%nat)
  /\ at_path_or_end rest = true.
Proof.
  revert h p rest. induction s as [|c s IH]; intros h p rest.
  - simpl. intros H. injection H as <- <- <-.
    split; [reflexivity|]. split; [intros c []|]. split; [discriminate | reflexivity].
  - cbn [match_host_tail].
    destruct (match_port (String c s)) as [[d r]|] eqn:Hport.
    + intros H. injection H as <- <- <-.
      destruct (match_port_spec _ _ _ Hport) as (Hs & Hd & Hl & Hr).
      split; [exact Hs|]. split; [intros c' []|].
      split; [intros d' H; injection H as <-; auto | exact Hr].
    + destruct (is_path_start c) eqn:Hc.
      * intros H. injection H as <- <- <-.
        split; [reflexivity|]. split; [intros c' []|].
        split; [discriminate | exact Hc].
      * destruct (match_host_tail s) as [[[h' p'] rest']|] eqn:E; [|discriminate].
        intros H. injection H as <- <- <-.
        destruct (IH _ _ _ eq_refl) as (Hs & Hh & Hp & Hr).
        split; [simpl; f_equal; exact Hs|].
        split; [intros x [<-|Hx]; auto|].
        split; [exact Hp | exact Hr].
Qed.

Lemma match_host_tail_total (s : string) : match_host_tail s <> None.
Proof.
  induction s as [|c s IH]; [discriminate|].
  cbn [match_host_tail].
  destruct (match_port (String c s)) as [[d r]|]; [discriminate|].
  destruct (is_path_start c); [discriminate|].
  destruct (match_host_tail s) as [[[h p] rest]|]; [discriminate | contradiction].
Qed.

Lemma match_host_none (proto : option string) (s : string) :
  match_host proto s = None <-> lacks_host s = true.
Proof.
  unfold match_host, lacks_host. destruct s as [|c s]; [tauto|].
  destruct (is_path_start c); [tauto|].
  pose proof (match_host_tail_total s) as H.
  destruct (match_host_tail s) as [[[h p] rest]|]; [|contradiction].
  split; discriminate.
Qed.

Lemma string_app_assoc (a b c : string) : (a ++ b) ++ c = a ++ b ++ c.
Proof.
  induction a; simpl; congruence.
Qed.

Lemma match_host_spec (proto : option string) (s : string) (m : UrlMatch) :
  match_host proto s = Some m ->
  m_protocol m = proto
  /\ s = m_host m ++ m_path m
  /\ m_host m = m_hostname m ++ port_text (m_port m)
  /\ m_hostname m <> ""
  /\ host_chars (m_hostname m)
  /\ (forall d, m_port m = Some d -> all_digits d /\ (String.length d <= 5)%nat)
  /\ at_path_or_end (m_path m) = true.
Proof.
  unfold match_host. destruct s as [|c s]; [discriminate|].
  destruct (is_path_start c) eqn:Hc; [discriminate|].
  destruct (match_host_tail s) as [[[h p] rest]|] eqn:E; [|discriminate].
  intros H. injection H as <-. simpl.
  apply match_host_tail_spec in E as (Hs & Hh & Hp & Hr).
  split; [reflexivity|].
  split.
  { rewrite Hs. destruct p; simpl; f_equal; rewrite ?string_app_assoc; reflexivity. }
  split.
  { destruct p; simpl; f_equal; rewrite ?string_app_empty; reflexivity. }
  split; [discriminate|].
  split; [intros x [<-|Hx]; auto|].
  split; [exact Hp | exact Hr].
Qed.

Lemma prefix_cons (a b : ascii) (p s : string) :
  String.prefix (String a p) (String b s)
  = if Ascii.eqb a b then String.prefix p s else false.
Proof.
  cbn [String.prefix].
  destruct (ascii_dec a b); destruct (Ascii.eqb_spec a b); congruence.
Qed.

Lemma lacks_host_not_slashes (s : string) :
  lacks_host s = false -> Str.startsWith "//" s = false.
Proof.
  unfold lacks_host, Str.startsWith. destruct s as [|c s]; [discriminate|].
  intros Hc. rewrite prefix_cons.
  destruct (Ascii.eqb_spec "/" c) as [<-|]; [discriminate Hc | reflexivity].
Qed.

Lemma match_host_not_slashes (s : string) (m : UrlMatch) :
  match_host None s = Some m -> Str.startsWith "//" s = false.
Proof.
  intros H. apply lacks_host_not_slashes.
  destruct (lacks_host s) eqn:E; [|reflexivity].
  apply (match_host_none None) in E. congruence.
Qed.

Lemma toLowerCase_cons (a : string) (x : ascii) (p : string) :
  Str.toLowerCase a = String x p ->
  exists c a', a = String c a' /\ Str.lower_ascii c = x /\ Str.toLowerCase a' = p.
Proof.
  destruct a as [|c a']; simpl; [discriminate|]. intros [= <- <-]. eauto.
Qed.

Lemma toLowerCase_nil (a : string) : Str.toLowerCase a = "" -> a = "".
Proof.
  destruct a; simpl; [reflexivity | discriminate].
Qed.

(** Peels the characters off a string whose lower-case form is known. *)
Ltac peel H :=
  repeat match type of H with
         | Str.toLowerCase ?a = String _ _ =>
             let c := fresh "c" in
             let a' := fresh "a" in
             let Hc := fresh "Hc" in
             apply toLowerCase_cons in H as (c & a' & -> & Hc & H)
         | Str.toLowerCase ?a = EmptyString => apply toLowerCase_nil in H; subst a
         end.

Lemma match_scheme_slashes_spec (s rest : string) (proto : option string) :
  match_scheme_slashes s = Some (proto, rest) ->
  s = or_empty proto ++ "//" ++ rest
  /\ match proto with
     | Some p => Str.toLowerCase p = "http:" \/ Str.toLowerCase p = "https:"
     | None => Str.startsWith "//" s = true
     end.
Proof.
  unfold match_scheme_slashes.
  destruct (Str.startsWith_ci "https://" s) eqn:H1.
  { intros H. injection H as <- <-. apply startsWith_ci_split in H1 as [Hl Hs].
    simpl String.length in *. rewrite Hs.
    generalize (Str.slice 8 s). intros r.
    remember (substring 0 8 s) as a eqn:Ha. clear Ha Hs.
    peel Hl.
    apply lower_ascii_not_letter in Hc5; [|reflexivity].
    apply lower_ascii_not_letter in Hc6; [|reflexivity].
    subst. simpl. rewrite Hc, Hc0, Hc1, Hc2, Hc3, Hc4. auto. }
  destruct (Str.startsWith_ci "http://" s) eqn:H2.
  { intros H. injection H as <- <-. apply startsWith_ci_split in H2 as [Hl Hs].
    simpl String.length in *. rewrite Hs.
    generalize (Str.slice 7 s). intros r.
    remember (substring 0 7 s) as a eqn:Ha. clear Ha Hs.
    peel Hl.
    apply lower_ascii_not_letter in Hc4; [|reflexivity].
    apply lower_ascii_not_letter in Hc5; [|reflexivity].
    subst. simpl. rewrite Hc, Hc0, Hc1, Hc2, Hc3. auto. }
  destruct (Str.startsWith "//" s) eqn:H3; [|discriminate].
  intros H. injection H as <- <-. split; [|reflexivity].
  apply prefix_split in H3. exact H3.
Qed.
(** ** The URL pattern of [parseURL] *)

Lemma lower_h_not_path_start (c : ascii) :
  Str.lower_ascii c = "h"%char -> is_path_start c = false.
Proof.
  destruct c as [[] [] [] [] [] [] [] []]; vm_compute; congruence.
Qed.

Lemma scheme_lacks_no_host (p r : string) :
  Str.toLowerCase p = "http:" \/ Str.toLowerCase p = "https:" ->
  lacks_host (p ++ r) = false.
Proof.
  intros [H|H]; apply toLowerCase_cons in H as (c & a & -> & Hc & _);
    simpl; now apply lower_h_not_path_start.
Qed.

Lemma match_scheme_slashes_none (s : string) :
  match_scheme_slashes s = None -> Str.startsWith "//" s = false.
Proof.
  unfold match_scheme_slashes.
  destruct (Str.startsWith_ci "https://" s); [discriminate|].
  destruct (Str.startsWith_ci "http://" s); [discriminate|].
  destruct (Str.startsWith "//" s); [discriminate | reflexivity].
Qed.

Lemma match_scheme_slashes_relative (s rest : string) :
  match_scheme_slashes s = Some (None, rest) ->
  rest = Str.slice 2 s /\ Str.startsWith "//" s = true.
Proof.
  unfold match_scheme_slashes.
  destruct (Str.startsWith_ci "https://" s); [discriminate|].
  destruct (Str.startsWith_ci "http://" s); [discriminate|].
  destruct (Str.startsWith "//" s); [|discriminate].
  intros [= <-]. auto.
Qed.

Lemma match_scheme_slashes_scheme (s p rest : string) :
  match_scheme_slashes s = Some (Some p, rest) ->
  Str.startsWith_ci "http://" s = true \/ Str.startsWith_ci "https://" s = true.
Proof.
  unfold match_scheme_slashes.
  destruct (Str.startsWith_ci "https://" s); [auto|].
  destruct (Str.startsWith_ci "http://" s); [auto|].
  destruct (Str.startsWith "//" s); discriminate.
Qed.

(** X1 (parseURL, the pattern at line 246).  Whenever the pattern matches,
    its groups cut the string into consecutive pieces: the optional scheme
    with its two slashes, the host, the path.  The host is the host name
    followed by the port group, if that took part; the host name is not
    empty and holds neither a slash nor a question mark; the port is at most
    five digits; the path is empty or begins with a slash or a question
    mark; a captured scheme is http: or https: in some letter case. *)
Theorem url_match_groups (s : string) (m : UrlMatch) :
  url_match s = Some m ->
  s = scheme_text s m ++ m_host m ++ m_path m
  /\ m_host m = m_hostname m ++ port_text (m_port m)
  /\ m_hostname m <> ""
  /\ host_chars (m_hostname m)
  /\ (forall d, m_port m = Some d -> all_digits d /\ (String.length d <= 5)%nat)
  /\ at_path_or_end (m_path m) = true
  /\ (forall p, m_protocol m = Some p ->
        Str.toLowerCase p = "http:" \/ Str.toLowerCase p = "https:").
Proof.
  unfold url_match.
  assert (bare : match_host None s = Some m ->
                 (match_scheme_slashes s = None
                  \/ exists p r, match_scheme_slashes s = Some (Some p, r)) ->
                 s = scheme_text s m ++ m_host m ++ m_path m
                 /\ m_host m = m_hostname m ++ port_text (m_port m)
                 /\ m_hostname m <> ""
                 /\ host_chars (m_hostname m)
                 /\ (forall d, m_port m = Some d -> all_digits d /\ (String.length d <= 5)%nat)
                 /\ at_path_or_end (m_path m) = true
                 /\ (forall p, m_protocol m = Some p ->
                       Str.toLowerCase p = "http:" \/ Str.toLowerCase p = "https:")).
  { intros H _. pose proof (match_host_not_slashes _ _ H) as Hn.
    apply match_host_spec in H as (Hp & Hs & Hh & Hne & Hc & Hd & Hr).
    unfold scheme_text. rewrite Hp, Hn. simpl.
    repeat (split; [assumption|]). intros p Habs. congruence. }
  destruct (match_scheme_slashes s) as [[proto rest]|] eqn:E; [|intros H; apply bare; auto].
  destruct (match_host proto rest) as [m'|] eqn:E'.
  - intros [= ->]. apply match_scheme_slashes_spec in E as [Hs Hproto].
    apply match_host_spec in E' as (Hp & Hr & Hh & Hne & Hc & Hd & Hpath).
    split.
    { unfold scheme_text. rewrite Hp. destruct proto as [p|].
      - rewrite Hs at 1. simpl. rewrite Hr, !string_app_assoc. reflexivity.
      - rewrite Hproto. rewrite Hs at 1. simpl. rewrite Hr. reflexivity. }
    repeat (split; [assumption|]).
    intros p Hm. rewrite Hp in Hm. rewrite Hm in Hproto. exact Hproto.
  - intros H. apply bare; [exact H|].
    destruct proto as [p|]; [right; eauto|].
    exfalso. apply match_scheme_slashes_relative in E as [-> Hs].
    apply match_host_none in E'.
    assert (Hl : lacks_host s = false).
    { destruct (lacks_host s) eqn:L; [|reflexivity].
      apply (match_host_none None) in L. congruence. }
    apply lacks_host_not_slashes in Hl. congruence.
Qed.

Lemma url_match_groups_witness :
  exists m, url_match "example.com:443/x?y" = Some m
            /\ m_hostname m = "example.com" /\ m_port m = Some "443"
            /\ "example.com:443/x?y" = scheme_text "example.com:443/x?y" m ++ m_host m ++ m_path m.
Proof.
  eexists. split; [reflexivity|]. split; [reflexivity|]. split; [reflexivity|].
  apply (url_match_groups "example.com:443/x?y"). reflexivity.
Defined.

(** X2 (parseURL, line 246 and the test at line 251).  The pattern fails
    exactly on the strings in which no host name can start: the empty
    string, a string that begins with a question mark, and a string that
    begins with a slash unless it begins with two slashes after which a
    host name starts. *)
Theorem url_match_fails_iff_no_host (s : string) :
  url_match s = None
  <-> lacks_host s = true
      /\ (Str.startsWith "//" s = true -> lacks_host (Str.slice 2 s) = true).
Proof.
  unfold url_match.
  destruct (match_scheme_slashes s) as [[proto rest]|] eqn:E.
  - pose proof (match_scheme_slashes_spec _ _ _ E) as [Hs Hproto].
    destruct (match_host proto rest) as [m|] eqn:E'.
    + split; [discriminate|]. intros [Hl Hrel]. exfalso.
      assert (Hrest : lacks_host rest = false).
      { destruct (lacks_host rest) eqn:L; [|reflexivity].
        apply (match_host_none proto) in L. congruence. }
      destruct proto as [p|].
      * rewrite Hs in Hl. simpl in Hl. rewrite scheme_lacks_no_host in Hl by assumption.
        discriminate.
      * apply match_scheme_slashes_relative in E as [-> Hstart].
        rewrite (Hrel Hstart) in Hrest. discriminate.
    + rewrite (match_host_none None). apply match_host_none in E'.
      split; [|tauto]. intros Hl. split; [exact Hl|]. intros Hstart.
      destruct proto as [p|].
      * rewrite Hs in Hl. simpl in Hl. rewrite scheme_lacks_no_host in Hl by assumption.
        discriminate.
      * apply match_scheme_slashes_relative in E as [-> _]. exact E'.
  - rewrite (match_host_none None). apply match_scheme_slashes_none in E.
    split; [|tauto]. intros Hl. split; [exact Hl|]. congruence.
Qed.
(** ** The repair of a single slash, and the scheme of the target *)

Lemma prefix_empty (r : string) : String.prefix "" r = true.
Proof.
  destruct r; reflexivity.
Qed.

Lemma startsWith_slash (r : string) : Str.startsWith "/" (String "/" r) = true.
Proof.
  unfold Str.startsWith. rewrite prefix_cons. simpl. apply prefix_empty.
Qed.

Lemma repair_single_slash_changes (s : string) :
  repair_single_slash s <> s ->
  exists sch r2, (sch = "" \/ sch = "s")
                 /\ s = "http" ++ sch ++ ":/" ++ r2
                 /\ Str.startsWith "/" r2 = false
                 /\ repair_single_slash s = "http" ++ sch ++ "://" ++ r2.
Proof.
  unfold repair_single_slash.
  destruct (Str.strip_prefix "http" s) as [r|] eqn:E; [|congruence].
  apply strip_prefix_some in E.
  destruct (Str.strip_prefix "s" r) as [r1|] eqn:E1.
  - apply strip_prefix_some in E1.
    destruct (Str.strip_prefix ":/" r1) as [r2|] eqn:E2; [|congruence].
    apply strip_prefix_some in E2.
    destruct (Str.startsWith "/" r2) eqn:E3; [congruence|].
    intros _. exists "s", r2. subst. auto.
  - destruct (Str.strip_prefix ":/" r) as [r2|] eqn:E2; [|congruence].
    apply strip_prefix_some in E2.
    destruct (Str.startsWith "/" r2) eqn:E3; [congruence|].
    intros _. exists "", r2. subst. auto.
Qed.

Lemma repair_single_slash_fixed (s : string) :
  (forall sch r2, (sch = "" \/ sch = "s") -> s = "http" ++ sch ++ ":/" ++ r2 ->
                  Str.startsWith "/" r2 = true) ->
  repair_single_slash s = s.
Proof.
  intros H. destruct (string_dec (repair_single_slash s) s) as [E|E]; [exact E|].
  apply repair_single_slash_changes in E as (sch & r2 & Hsch & Hs & Hr & _).
  rewrite (H sch r2 Hsch Hs) in Hr. discriminate.
Qed.

(** X3 (parseURL, line 245).  Giving a single slash its second slash back
    is idempotent: a repaired string is left as it is, so the repair of a
    target and of its rewritten form agree. *)
Theorem repair_single_slash_idempotent (s : string) :
  repair_single_slash (repair_single_slash s) = repair_single_slash s.
Proof.
  destruct (string_dec (repair_single_slash s) s) as [E|E]; [now rewrite E|].
  apply repair_single_slash_changes in E as (sch & r2 & Hsch & Hs & Hr & ->).
  apply repair_single_slash_fixed. intros sch' r2' Hsch' Heq.
  destruct Hsch as [->| ->]; destruct Hsch' as [->| ->]; simpl in Heq;
    inversion Heq; apply startsWith_slash.
Qed.

Lemma has_scheme_ci_repair (s : string) :
  has_scheme_ci s = false -> repair_single_slash s = s.
Proof.
  intros H. apply repair_single_slash_fixed. intros sch r2 [->| ->] ->;
    vm_compute in H; discriminate.
Qed.

Lemma scheme_repair (scheme rest : string) :
  Str.toLowerCase scheme = "http://" \/ Str.toLowerCase scheme = "https://" ->
  repair_single_slash (scheme ++ rest) = scheme ++ rest.
Proof.
  intros H. apply repair_single_slash_fixed. intros sch r2 Hsch Heq.
  destruct H as [H|H]; peel H; simpl in Heq.
  - apply lower_ascii_not_letter in Hc3; [|reflexivity].
    apply lower_ascii_not_letter in Hc5; [|reflexivity]. subst.
    destruct Hsch as [->| ->]; simpl in Heq; inversion Heq; apply startsWith_slash.
  - apply lower_ascii_not_letter in Hc4; [|reflexivity].
    apply lower_ascii_not_letter in Hc6; [|reflexivity]. subst.
    destruct Hsch as [->| ->]; simpl in Heq; inversion Heq; subst;
      apply startsWith_slash.
Qed.

Lemma substring_app (a r : string) : substring 0 (String.length a) (a ++ r) = a.
Proof.
  induction a; simpl; [now destruct r | congruence].
Qed.

Lemma prefix_refl (p : string) : String.prefix p p = true.
Proof.
  rewrite <- (string_app_empty p) at 2. apply prefix_app.
Qed.

Lemma startsWith_ci_app (a p rest : string) :
  Str.toLowerCase a = p -> Str.startsWith_ci p (a ++ rest) = true.
Proof.
  intros H. unfold Str.startsWith_ci.
  rewrite <- H, toLowerCase_length, substring_app. apply prefix_refl.
Qed.

Lemma toLowerCase_app_inv (p q a : string) :
  Str.toLowerCase a = p ++ q ->
  exists a1 a2, a = a1 ++ a2 /\ Str.toLowerCase a1 = p /\ Str.toLowerCase a2 = q.
Proof.
  revert a. induction p as [|x p IH]; intros a H.
  - exists "", a. auto.
  - simpl in H. apply toLowerCase_cons in H as (c & a' & -> & Hc & H).
    apply IH in H as (a1 & a2 & -> & H1 & H2).
    exists (String c a1), a2. simpl. rewrite Hc, H1. auto.
Qed.

Lemma startsWith_ci_weaken (p q s : string) :
  Str.startsWith_ci (p ++ q) s = true -> Str.startsWith_ci p s = true.
Proof.
  intros H. apply startsWith_ci_split in H as [Hl Hs].
  apply toLowerCase_app_inv in Hl as (a1 & a2 & Ha & H1 & H2).
  rewrite Hs, Ha, string_app_assoc. now apply startsWith_ci_app.
Qed.

Lemma scheme_match (scheme rest : string) :
  Str.toLowerCase scheme = "http://" \/ Str.toLowerCase scheme = "https://" ->
  exists p, match_scheme_slashes (scheme ++ rest) = Some (Some p, rest)
            /\ has_scheme_ci (scheme ++ rest) = true.
Proof.
  unfold match_scheme_slashes, has_scheme_ci. intros [H|H].
  - assert (Hlen : String.length scheme = 7%nat)
      by (rewrite <- toLowerCase_length, H; reflexivity).
    pose proof (startsWith_ci_app scheme _ rest H) as H7.
    assert (H8 : Str.startsWith_ci "https://" (scheme ++ rest) = false).
    { destruct (Str.startsWith_ci "https://" (scheme ++ rest)) eqn:E; [exfalso|reflexivity].
      apply startsWith_ci_split in E as [E _]. peel H. simpl in E.
      injection E as _ _ _ _ E _. congruence. }
    rewrite H8, H7. rewrite (startsWith_ci_weaken "http:" "//" _ H7).
    replace (Str.slice 7 (scheme ++ rest)) with rest
      by (rewrite <- Hlen; now rewrite slice_app).
    eauto.
  - assert (Hlen : String.length scheme = 8%nat)
      by (rewrite <- toLowerCase_length, H; reflexivity).
    pose proof (startsWith_ci_app scheme _ rest H) as H8.
    rewrite H8. rewrite (startsWith_ci_weaken "https:" "//" _ H8).
    replace (Str.slice 8 (scheme ++ rest)) with rest
      by (rewrite <- Hlen; now rewrite slice_app).
    rewrite orb_true_r. eauto.
Qed.
(** ** What [parseURL] hands to [url.parse] *)

Lemma path_start_not_digit (c : ascii) : is_path_start c = true -> Str.is_digit c = false.
Proof.
  unfold is_path_start. intros H. apply orb_true_iff in H as [H|H];
    apply Ascii.eqb_eq in H; subst; reflexivity.
Qed.

Lemma take_digits_complete (n : nat) (d rest : string) :
  forallb Str.is_digit (list_ascii_of_string d) = true ->
  (String.length d <= n)%nat ->
  at_path_or_end rest = true ->
  take_digits n (d ++ rest) = (d, rest).
Proof.
  revert n. induction d as [|c d IH]; intros n Hd Hn Hr.
  - simpl. destruct n; [now destruct rest|].
    destruct rest as [|c r]; [reflexivity|]. cbn [at_path_or_end take_digits] in *.
    now rewrite (path_start_not_digit c Hr).
  - cbn [list_ascii_of_string forallb String.length] in *.
    apply andb_true_iff in Hd as [Hc Hd].
    destruct n; [lia|]. cbn [append take_digits]. rewrite Hc, IH; auto. lia.
Qed.

Lemma match_port_other (c : ascii) (r : string) :
  c <> ":"%char -> match_port (String c r) = None.
Proof.
  intros H. unfold match_port.
  destruct c as [[] [] [] [] [] [] [] []]; try reflexivity. congruence.
Qed.

Lemma match_port_colon (r : string) :
  match_port (String ":" r)
  = let (d, rest) := take_digits 5 r in
    if at_path_or_end rest then Some (d, rest) else None.
Proof.
  reflexivity.
Qed.

Lemma match_host_tail_unfold (s : string) :
  match_host_tail s
  = match match_port s with
    | Some (p, rest) => Some (EmptyString, Some p, rest)
    | None =>
        match s with
        | EmptyString => Some (EmptyString, None, EmptyString)
        | String c r =>
            if is_path_start c then Some (EmptyString, None, s)
            else match match_host_tail r with
                 | Some (h, p, rest) => Some (String c h, p, rest)
                 | None => None
                 end
        end
    end.
Proof.
  destruct s; reflexivity.
Qed.

Lemma match_port_empty : match_port "" = None.
Proof.
  reflexivity.
Qed.

Lemma match_host_tail_complete (h path : string) (p : option string) :
  forallb (fun c => negb (is_path_start c || Ascii.eqb c ":")) (list_ascii_of_string h) = true ->
  port_group p = true ->
  at_path_or_end path = true ->
  match_host_tail (h ++ port_text p ++ path) = Some (h, p, path).
Proof.
  intros Hh Hp Hpath. induction h as [|c h IH].
  - simpl append. destruct p as [d|].
    + simpl in Hp. apply andb_true_iff in Hp as [Hlen Hd]. apply Nat.leb_le in Hlen.
      change (port_text (Some d) ++ path) with (String ":" (d ++ path)).
      rewrite match_host_tail_unfold, match_port_colon.
      rewrite (take_digits_complete 5 d path Hd Hlen Hpath), Hpath. reflexivity.
    + simpl. destruct path as [|c r]; [reflexivity|].
      cbn [at_path_or_end] in Hpath. rewrite match_host_tail_unfold, match_port_other.
      * now rewrite Hpath.
      * intros ->. discriminate.
  - simpl in Hh. apply andb_true_iff in Hh as [Hc Hh].
    apply negb_true_iff, orb_false_iff in Hc as [Hc1 Hc2].
    simpl append. rewrite match_host_tail_unfold, match_port_other.
    + rewrite Hc1, (IH Hh). reflexivity.
    + intros ->. discriminate.
Qed.

Lemma match_host_complete (proto : option string) (h path : string) (p : option string) :
  plain_hostname h = true ->
  port_group p = true ->
  at_path_or_end path = true ->
  exists m, match_host proto (h ++ port_text p ++ path) = Some m
            /\ m_protocol m = proto /\ m_hostname m = h /\ m_port m = p /\ m_path m = path.
Proof.
  unfold plain_hostname. intros Hh Hp Hpath.
  apply andb_true_iff in Hh as [Hne Hh].
  destruct h as [|c h]; [discriminate|].
  simpl in Hh. apply andb_true_iff in Hh as [Hc Hh].
  apply negb_true_iff, orb_false_iff in Hc as [Hc1 Hc2].
  simpl append. unfold match_host. rewrite Hc1.
  rewrite (match_host_tail_complete h path p Hh Hp Hpath).
  eexists. repeat split.
Qed.

Lemma plain_hostname_has_host (h r : string) :
  plain_hostname h = true -> lacks_host (h ++ r) = false.
Proof.
  unfold plain_hostname. intros Hh. apply andb_true_iff in Hh as [Hne Hh].
  destruct h as [|c h]; [discriminate|].
  simpl in *. apply andb_true_iff in Hh as [Hc _].
  now apply negb_true_iff, orb_false_iff in Hc as [Hc1 Hc2].
Qed.


Lemma scheme_choice (p : option string) :
  match p with
  | Some "443" => "https:"
  | _ => "http:"
  end = if String.eqb (or_empty p) "443" then "https:" else "http:".
Proof.
  destruct p as [[|c1 [|c2 [|c3 [|c4 d]]]]|]; try reflexivity;
    destruct c1 as [[] [] [] [] [] [] [] []]; try reflexivity;
    destruct c2 as [[] [] [] [] [] [] [] []]; try reflexivity;
    destruct c3 as [[] [] [] [] [] [] [] []]; reflexivity.
Qed.

(** X4 (parseURL, lines 254-271).  A target that [parseURL] accepts has a
    host name, and it is the result of [url.parse] on a string that begins
    with http:// or https:// (in some letter case): no other string is ever
    handed to [url.parse]. *)
Theorem parseURL_parses_absolute_http_url {RT : Runtime} (s : string) (u : Url.t) :
  parseURL s = Some u ->
  truthy (Url.hostname u) = true
  /\ exists r, u = url_parse r
               /\ (Str.startsWith_ci "http://" r = true
                   \/ Str.startsWith_ci "https://" r = true).
Proof.
  unfold parseURL. set (r0 := repair_single_slash s).
  destruct (url_match r0) as [m|] eqn:E; [|discriminate].
  assert (final : forall r,
             (Str.startsWith_ci "http://" r = true \/ Str.startsWith_ci "https://" r = true) ->
             (if truthy (Url.hostname (url_parse r)) then Some (url_parse r) else None) = Some u ->
             truthy (Url.hostname u) = true
             /\ exists r, u = url_parse r
                          /\ (Str.startsWith_ci "http://" r = true
                              \/ Str.startsWith_ci "https://" r = true)).
  { intros r Hr. destruct (truthy (Url.hostname (url_parse r))) eqn:T; [|discriminate].
    intros [= <-]. eauto. }
  destruct (m_protocol m) as [p|] eqn:P.
  - apply final. unfold url_match in E.
    destruct (match_scheme_slashes r0) as [[proto rest]|] eqn:S.
    + destruct (match_host proto rest) as [m'|] eqn:M.
      * injection E as ->. apply match_host_spec in M as (Hp & _).
        rewrite P in Hp. subst proto. eapply match_scheme_slashes_scheme; eauto.
      * apply match_host_spec in E as (Hp & _). congruence.
    + apply match_host_spec in E as (Hp & _). congruence.
  - destruct (has_scheme_ci r0); [discriminate|].
    apply final.
    assert (Hend : exists x, (if Str.startsWith "//" r0 then r0 else "//" ++ r0) = "//" ++ x).
    { destruct (Str.startsWith "//" r0) eqn:Hs; [|eauto].
      apply prefix_split in Hs. eauto. }
    destruct Hend as [x ->].
    rewrite scheme_choice. destruct (String.eqb (or_empty (m_port m)) "443").
    + right. apply (startsWith_ci_app "https://" "https://" x). reflexivity.
    + left. apply (startsWith_ci_app "http://" "http://" x). reflexivity.
Qed.

Lemma parseURL_parses_absolute_http_url_witness :
  truthy (Url.hostname (Node.parse "http://example.com/")) = true
  /\ exists r, Node.parse "http://example.com/" = url_parse (Runtime := node) r
               /\ (Str.startsWith_ci "http://" r = true
                   \/ Str.startsWith_ci "https://" r = true).
Proof.
  apply (@parseURL_parses_absolute_http_url node "example.com/"). vm_compute. reflexivity.
Defined.
Lemma has_scheme_ci_prefixes (s : string) :
  has_scheme_ci s = false ->
  Str.startsWith_ci "https://" s = false /\ Str.startsWith_ci "http://" s = false.
Proof.
  unfold has_scheme_ci. intros H. apply orb_false_iff in H as [H1 H2]. split.
  - destruct (Str.startsWith_ci "https://" s) eqn:E; [|reflexivity].
    apply (startsWith_ci_weaken "https:" "//") in E. congruence.
  - destruct (Str.startsWith_ci "http://" s) eqn:E; [|reflexivity].
    apply (startsWith_ci_weaken "http:" "//") in E. congruence.
Qed.

(** X5 (parseURL, lines 254-265).  A target written without scheme, as a
    host name, an optional port and a path, with or without two leading
    slashes, is parsed as the URL with the scheme put in front: https: when
    the port is 443, http: otherwise; the two slashes are added when they
    are missing and never doubled.  (A host name such as [http] followed
    by a port reads like a scheme and is excluded by the last premise.) *)
Theorem parseURL_infers_scheme {RT : Runtime} (slashes : bool) (h path : string)
    (p : option string) :
  plain_hostname h = true ->
  port_group p = true ->
  at_path_or_end path = true ->
  has_scheme_ci (h ++ port_text p ++ path) = false ->
  parseURL ((if slashes then "//" else "") ++ h ++ port_text p ++ path)
  = parsed_with_hostname
      ((if String.eqb (or_empty p) "443" then "https:" else "http:")
         ++ "//" ++ h ++ port_text p ++ path).
Proof.
  intros Hh Hp Hpath Hs. set (t := h ++ port_text p ++ path) in *.
  assert (Hhost : lacks_host t = false) by (apply plain_hostname_has_host; exact Hh).
  pose proof (lacks_host_not_slashes _ Hhost) as Hrel.
  unfold parseURL, parsed_with_hostname.
  destruct slashes.
  - change ("//" ++ t) with (String "/" (String "/" t)).
    assert (Hrep : repair_single_slash (String "/" (String "/" t)) = String "/" (String "/" t))
      by reflexivity.
    rewrite Hrep.
    assert (Hm : url_match (String "/" (String "/" t)) = match_host None t).
    { unfold url_match, match_scheme_slashes.
      assert (H1 : Str.startsWith_ci "https://" (String "/" (String "/" t)) = false)
        by (destruct t as [|? [|? [|? [|? [|? [|? ?]]]]]]; reflexivity).
      assert (H2 : Str.startsWith_ci "http://" (String "/" (String "/" t)) = false)
        by (destruct t as [|? [|? [|? [|? [|? ?]]]]]; reflexivity).
      assert (H3 : Str.startsWith "//" (String "/" (String "/" t)) = true).
      { unfold Str.startsWith. rewrite !prefix_cons. simpl. apply prefix_empty. }
      rewrite H1, H2, H3. simpl Str.slice.
      destruct (match_host_complete None h path p Hh Hp Hpath) as (m & Hm & _).
      fold t in Hm. rewrite Hm. reflexivity. }
    rewrite Hm.
    destruct (match_host_complete None h path p Hh Hp Hpath) as (m & Hm' & Hproto & _ & Hport & _).
    fold t in Hm'. rewrite Hm', Hproto, Hport.
    assert (H4 : has_scheme_ci (String "/" (String "/" t)) = false)
      by (unfold has_scheme_ci; destruct t as [|? [|? [|? [|? [|? ?]]]]]; reflexivity).
    assert (H3 : Str.startsWith "//" (String "/" (String "/" t)) = true).
    { unfold Str.startsWith. rewrite !prefix_cons. simpl. apply prefix_empty. }
    rewrite H4, H3, scheme_choice. reflexivity.
  - change ("" ++ t) with t. rewrite (has_scheme_ci_repair _ Hs).
    destruct (has_scheme_ci_prefixes _ Hs) as [H1 H2].
    assert (Hm : url_match t = match_host None t).
    { unfold url_match, match_scheme_slashes. rewrite H1, H2, Hrel. reflexivity. }
    rewrite Hm.
    destruct (match_host_complete None h path p Hh Hp Hpath) as (m & Hm' & Hproto & _ & Hport & _).
    fold t in Hm'. rewrite Hm', Hproto, Hport, Hs, Hrel, scheme_choice. reflexivity.
Qed.

Lemma parseURL_infers_scheme_witness :
  parseURL (RT := node) ("" ++ "example.com" ++ port_text (Some "443") ++ "/x")
  = parsed_with_hostname (RT := node)
      ((if String.eqb (or_empty (Some "443")) "443" then "https:" else "http:")
         ++ "//" ++ "example.com" ++ port_text (Some "443") ++ "/x").
Proof.
  apply (@parseURL_infers_scheme node false "example.com" "/x" (Some "443"));
    vm_compute; reflexivity.
Defined.

(** X6 (parseURL, lines 246-271).  A target that begins with http:// or
    https://, in any letter case, is handed to [url.parse] as it is; when
    nothing that can start a host name follows the two slashes, the target
    is rejected without being parsed. *)
Theorem parseURL_keeps_given_scheme {RT : Runtime} (scheme rest : string) :
  Str.toLowerCase scheme = "http://" \/ Str.toLowerCase scheme = "https://" ->
  parseURL (scheme ++ rest)
  = if lacks_host rest then None else parsed_with_hostname (scheme ++ rest).
Proof.
  intros H. unfold parseURL, parsed_with_hostname.
  rewrite (scheme_repair scheme rest H).
  destruct (scheme_match scheme rest H) as (p & Hm & Hs).
  unfold url_match. rewrite Hm.
  destruct (lacks_host rest) eqn:L.
  - apply (match_host_none (Some p)) in L. rewrite L.
    destruct (match_host None (scheme ++ rest)) as [m|] eqn:M; [|reflexivity].
    apply match_host_spec in M as (-> & _). now rewrite Hs.
  - destruct (match_host (Some p) rest) as [m|] eqn:M.
    + apply match_host_spec in M as (-> & _). reflexivity.
    + apply match_host_none in M. congruence.
Qed.

Lemma parseURL_keeps_given_scheme_witness :
  parseURL (RT := node) ("HTTPS://" ++ "example.com/x")
  = if lacks_host "example.com/x" then None
    else parsed_with_hostname (RT := node) ("HTTPS://" ++ "example.com/x").
Proof.
  apply (@parseURL_keeps_given_scheme node "HTTPS://" "example.com/x").
  right. reflexivity.
Defined.
(** ** More on the CORS headers *)

Lemma mirror_request_header_spec (from to : string) (hr : Obj hval * Request) :
  mirror_request_header from to hr
  = match Object.get from (headers (snd hr)) with
    | Some v => if String.eqb v "" then hr
                else (Object.set to (HStr v) (fst hr),
                      with_headers (Object.delete from (headers (snd hr))) (snd hr))
    | None => hr
    end.
Proof.
  destruct hr as [h request]. unfold mirror_request_header, truthy. cbn [fst snd].
  destruct (Object.get from (headers request)) as [v|]; [|reflexivity].
  destruct (String.eqb v ""); reflexivity.
Qed.

Lemma headers_with_headers (h : Obj string) (r : Request) : headers (with_headers h r) = h.
Proof.
  reflexivity.
Qed.

(** X7 (withCORS, lines 60-67).  A non-empty [access-control-request-method]
    or [access-control-request-headers] header of the request is copied to
    the matching [access-control-allow-*] response header and deleted from
    the request; when the request header is absent or empty, the response
    header keeps the value it had and the request header is left alone. *)
Theorem withCORS_moves_request_headers (h : Obj hval) (request : Request)
    (from to : string) :
  In (from, to) mirrored_headers ->
  let h' := fst (withCORS h request) in
  let request' := snd (withCORS h request) in
  if truthy (Object.get from (headers request))
  then Object.get to h' = option_map HStr (Object.get from (headers request))
       /\ Object.get from (headers request') = None
  else Object.get to h' = Object.get to h
       /\ Object.get from (headers request') = Object.get from (headers request).
Proof.
  intros Hin. cbv zeta. unfold withCORS, withCORS_allow.
  set (h0 := if (String.eqb (method request) "OPTIONS"
                 && negb (corsMaxAge (corsAnywhereRequestState request) =? 0))%bool
             then _ else _).
  assert (H0 : forall k, k <> "access-control-allow-origin" -> k <> "access-control-max-age" ->
                         Object.get k h0 = Object.get k h).
  { intros k K1 K2. subst h0. destruct (_ && _)%bool;
      rewrite ?get_set_other by assumption; reflexivity. }
  rewrite !mirror_request_header_spec. unfold truthy. cbn [fst snd].
  destruct Hin as [[= <- <-]|[[= <- <-]|[]]].
  - destruct (Object.get "access-control-request-method" (headers request)) as [v|] eqn:G1;
      try destruct (String.eqb v "") eqn:V1; cbn [fst snd negb];
      rewrite ?headers_with_headers, ?get_delete_other by discriminate;
      destruct (Object.get "access-control-request-headers" (headers request)) as [w|];
      try destruct (String.eqb w ""); cbn [fst snd option_map];
      rewrite ?headers_with_headers;
      rewrite ?get_set_other, ?get_delete_other, ?get_set_same, ?get_delete_same by discriminate;
      rewrite ?G1; split; auto; apply H0; discriminate.
  - destruct (Object.get "access-control-request-method" (headers request)) as [v|] eqn:G1;
      try destruct (String.eqb v "") eqn:V1; cbn [fst snd];
      rewrite ?headers_with_headers, ?get_delete_other by discriminate;
      destruct (Object.get "access-control-request-headers" (headers request)) as [w|] eqn:G2;
      try destruct (String.eqb w ""); cbn [fst snd option_map negb];
      rewrite ?headers_with_headers;
      rewrite ?get_set_other, ?get_delete_other, ?get_set_same, ?get_delete_same by discriminate;
      rewrite ?G1, ?G2; split; auto; apply H0; discriminate.
Qed.

Lemma withCORS_moves_request_headers_witness :
  let request := incoming "OPTIONS" "/example.com/"
                   [("access-control-request-method", "PUT")] in
  Object.get "access-control-allow-methods" (fst (withCORS [] request)) = Some (HStr "PUT")
  /\ Object.get "access-control-request-method" (headers (snd (withCORS [] request))) = None.
Proof.
  exact (withCORS_moves_request_headers []
           (incoming "OPTIONS" "/example.com/" [("access-control-request-method", "PUT")])
           "access-control-request-method" "access-control-allow-methods"
           (or_introl eq_refl)).
Defined.

Lemma withCORS_fixed_headers (h : Obj hval) (request : Request) :
  Object.get "access-control-allow-origin" (fst (withCORS h request)) = Some (HStr "*")
  /\ Object.get "access-control-allow-credentials" (fst (withCORS h request))
     = Some (HStr "true").
Proof.
  pose proof (withCORS_allow_origin h request) as H.
  unfold withCORS. destruct (withCORS_allow h request) as [h1 r1]. simpl in *.
  rewrite get_set_same, !get_set_other by discriminate. auto.
Qed.

Lemma withCORS_max_age (h : Obj hval) (request : Request) :
  Object.get "access-control-max-age" (fst (withCORS h request))
  = if (String.eqb (method request) "OPTIONS"
        && negb (corsMaxAge (corsAnywhereRequestState request) =? 0))%bool
    then Some (HNum (corsMaxAge (corsAnywhereRequestState request)))
    else Object.get "access-control-max-age" h.
Proof.
  unfold withCORS, withCORS_allow. rewrite !mirror_request_header_spec.
  destruct (Object.get "access-control-request-method" (headers (snd (_, request)))) as [v|];
    try destruct (String.eqb v ""); cbn [fst snd]; rewrite ?headers_with_headers;
    match goal with
    | |- context [Object.get "access-control-request-headers" ?o] =>
        destruct (Object.get "access-control-request-headers" o) as [w|]
    end;
    try destruct (String.eqb w ""); cbn [fst];
    rewrite ?get_set_other by discriminate;
    destruct (_ && _)%bool;
    rewrite ?get_set_same, ?get_set_other by discriminate; reflexivity.
Qed.

(** X8 (getHandler, lines 326-332; withCORS, lines 55-59).  Every OPTIONS
    request, whatever its URL and whatever the options, is answered 200
    with an empty body and without any hook being called; the reply allows
    every origin, and it carries [access-control-max-age] exactly when the
    [corsMaxAge] option is not zero, with that value. *)
Theorem preflight_reply {RT : Runtime} (options : corsAnywhere.t) (req : Request) :
  method req = "OPTIONS" ->
  exists h,
    handler options req = ([], Replied 200 None h "")
    /\ Object.get "access-control-allow-origin" h = Some (HStr "*")
    /\ Object.get "access-control-allow-credentials" h = Some (HStr "true")
    /\ Object.get "access-control-max-age" h
       = if corsAnywhere.corsMaxAge options =? 0 then None
         else Some (HNum (corsAnywhere.corsMaxAge options)).
Proof.
  intros Hm. exists (cors_headers_of options req).
  split; [now apply preflight_answered_first|].
  unfold cors_headers_of.
  destruct (withCORS_fixed_headers [] (with_state (initial_state options) req)) as [Ho Hc].
  repeat (split; [assumption|]).
  rewrite withCORS_max_age. cbn [method with_state corsAnywhereRequestState corsMaxAge initial_state].
  rewrite Hm. simpl. destruct (corsAnywhere.corsMaxAge options =? 0); reflexivity.
Qed.

Lemma preflight_reply_witness :
  exists h,
    handler (RT := node) strict_options (incoming "OPTIONS" "/?" []) = ([], Replied 200 None h "")
    /\ Object.get "access-control-allow-origin" h = Some (HStr "*")
    /\ Object.get "access-control-allow-credentials" h = Some (HStr "true")
    /\ Object.get "access-control-max-age" h
       = if corsAnywhere.corsMaxAge strict_options =? 0 then None
         else Some (HNum (corsAnywhere.corsMaxAge strict_options)).
Proof.
  apply (@preflight_reply node strict_options (incoming "OPTIONS" "/?" [])). reflexivity.
Defined.
(** ** What the handler admits and what it answers *)

Ltac split_ifs :=
  repeat match goal with
         | |- context [if ?b then _ else _] => destruct b eqn:?; cbn [fst snd]
         end.

Section AdmissionFacts.
Context {RT : Runtime}.
Variable options : corsAnywhere.t.

Lemma policy_checks_proxied (req : Request) (cors_headers : Obj hval) (location : Url.t)
    (admitted : Request) :
  snd (policy_checks options req cors_headers location) = Proxied admitted ->
  Str.mem (origin_of req) (corsAnywhere.originBlacklist options) = false
  /\ (corsAnywhere.originWhitelist options = []
      \/ Str.mem (origin_of req) (corsAnywhere.originWhitelist options) = true)
  /\ target_lists_reject options location = false
  /\ (forall check, corsAnywhere.checkRateLimit options = Some check ->
                    truthy (check (origin_of req)) = false)
  /\ admitted = hand_over options req location.
Proof.
  unfold policy_checks, target_lists_reject. fold (origin_of req).
  destruct (Str.mem (origin_of req) (corsAnywhere.originBlacklist options)); [discriminate|].
  destruct (corsAnywhere.originWhitelist options) as [|w ws] eqn:W.
  - cbn [length Nat.eqb negb andb].
    destruct (_ && _)%bool; [discriminate|].
    destruct (_ && _)%bool; [discriminate|].
    destruct (truthy _) eqn:T; [discriminate|].
    destruct (_ && _)%bool; [discriminate|].
    cbn [snd]. intros [= <-]. repeat split; auto.
    intros check Hc. rewrite Hc in T. exact T.
  - cbn [length Nat.eqb negb andb].
    destruct (Str.mem (origin_of req) (w :: ws)); [|discriminate]. cbn [negb].
    destruct (_ && _)%bool; [discriminate|].
    destruct (_ && _)%bool; [discriminate|].
    destruct (truthy _) eqn:T; [discriminate|].
    destruct (_ && _)%bool; [discriminate|].
    cbn [snd]. intros [= <-]. repeat split; auto.
    intros check Hc. rewrite Hc in T. exact T.
Qed.

Lemma handler_proxied_inv (req admitted : Request) :
  snd (handler options req) = Proxied admitted ->
  exists location,
    parseURL (Str.slice 1 (url req)) = Some location
    /\ reaches_header_check options req location = true
    /\ hasRequiredHeaders options (headers (prepared options req)) = true
    /\ snd (policy_checks options (prepared options req) (cors_headers_of options req) location)
       = Proxied admitted.
Proof.
  rewrite handler_unfold. cbv zeta. unfold reaches_header_check, target_is_proxyable.
  destruct (String.eqb (method req) "OPTIONS"); [discriminate|].
  destruct (hook_declines options (prepared options req) (parseURL (Str.slice 1 (url req))))
    eqn:Hhook; [|discriminate].
  cbn [negb]. destruct (parseURL (Str.slice 1 (url req))) as [location|];
    [|destruct (looks_like_missing_slash _); discriminate].
  cbn [snd]. unfold target_checks.
  destruct (prepared_request options req) as (_ & Hurl & _). rewrite Hurl.
  destruct (match Url.host location with Some h => String.eqb h "iscorsneeded" | None => false end)
    eqn:E1; [discriminate|].
  destruct (port_too_large location) eqn:E2; [discriminate|].
  destruct (has_explicit_scheme (url req)) eqn:E3; cbn [negb andb orb].
  - destruct (hasRequiredHeaders options (headers (prepared options req))); [|discriminate].
    cbn [negb]. intros H. exists location. rewrite Hhook, E1, E2. auto.
  - destruct (isValidHostName (or_empty (Url.hostname location))) eqn:E4; [|discriminate].
    destruct (hasRequiredHeaders options (headers (prepared options req))); [|discriminate].
    cbn [negb]. intros H. exists location. rewrite Hhook, E1, E2, E4. auto.
Qed.

End AdmissionFacts.

(** X9 (getHandler, lines 327-452).  The handler hands a request to
    [proxyRequest] only after every check has passed: the request is no
    preflight, the hook declined it, the target was parsed, is not the
    probe host, has a port in range and a valid host name or an explicit
    scheme, a required header is present, the origin is not blacklisted and
    is whitelisted if there is a whitelist, the target lists do not reject
    the host name, and the rate limiter returned nothing.  What is handed
    over is the request as lines 438-450 prepare it. *)
Theorem proxied_request_passed_every_check {RT : Runtime} (options : corsAnywhere.t)
    (req admitted : Request) :
  snd (handler options req) = Proxied admitted ->
  exists location,
    parseURL (Str.slice 1 (url req)) = Some location
    /\ reaches_header_check options req location = true
    /\ hasRequiredHeaders options (headers (prepared options req)) = true
    /\ Str.mem (origin_of (prepared options req)) (corsAnywhere.originBlacklist options) = false
    /\ (corsAnywhere.originWhitelist options = []
        \/ Str.mem (origin_of (prepared options req))
                   (corsAnywhere.originWhitelist options) = true)
    /\ target_lists_reject options location = false
    /\ (forall check, corsAnywhere.checkRateLimit options = Some check ->
                      truthy (check (origin_of (prepared options req))) = false)
    /\ admitted = hand_over options (prepared options req) location.
Proof.
  intros H. apply handler_proxied_inv in H as (location & Hp & Hr & Hh & H).
  apply policy_checks_proxied in H. exists location. tauto.
Qed.

Lemma proxied_request_passed_every_check_witness :
  exists location,
    parseURL (RT := node) (Str.slice 1 (url example_request)) = Some location
    /\ reaches_header_check (RT := node) whitelist_options
         (with_headers [("host", "proxy.test"); ("origin", "http://good.test")] example_request)
         location = true
    /\ target_lists_reject whitelist_options location = false.
Proof.
  destruct (@proxied_request_passed_every_check node whitelist_options
              (with_headers [("host", "proxy.test"); ("origin", "http://good.test")]
                 example_request)
              (admitted_request (RT := node) whitelist_options
                 (with_headers [("host", "proxy.test"); ("origin", "http://good.test")]
                    example_request)))
    as (location & H1 & H2 & _ & _ & _ & H3 & _).
  - vm_compute. reflexivity.
  - exists location. auto.
Defined.
(** X10 (getHandler, lines 326-436; showUsage, line 16).  Every answer the
    handler gives itself carries the CORS headers, with the one exception
    of the reply to the [iscorsneeded] probe, whose only header is
    [Content-Type: text/plain] and whose body is [no]. *)
Theorem replies_carry_cors_headers {RT : Runtime} (options : corsAnywhere.t) (req : Request)
    (h : Obj hval) :
  reply_headers (snd (handler options req)) = Some h ->
  snd (handler options req) = Replied 200 None [("Content-Type", HStr "text/plain")] "no"
  \/ (Object.get "access-control-allow-origin" h = Some (HStr "*")
      /\ Object.get "access-control-allow-credentials" h = Some (HStr "true")).
Proof.
  rewrite handler_unfold. cbv zeta.
  destruct (withCORS_fixed_headers [] (with_state (initial_state options) req)) as [Ho Hc].
  fold (cors_headers_of options req) in Ho, Hc.
  unfold target_checks, policy_checks, showUsage.
  split_ifs; try destruct (parseURL (Str.slice 1 (url req))) as [location|]; cbn [fst snd];
    split_ifs; cbn [reply_headers]; intros H; try discriminate H;
    injection H as <-; auto; right;
    rewrite ?get_set_other by discriminate; auto.
Qed.

Lemma replies_carry_cors_headers_witness :
  exists h,
    reply_headers (snd (handler (RT := node) strict_options example_request)) = Some h
    /\ Object.get "access-control-allow-origin" h = Some (HStr "*").
Proof.
  eexists. split; [reflexivity|].
  destruct (@replies_carry_cors_headers node strict_options example_request _ eq_refl)
    as [H|[H _]]; [discriminate H | exact H].
Defined.

(** X11 (getHandler, lines 370-375).  The handler answers 404 only for a
    target that was parsed, whose request URL does not begin with [/http:]
    or [/https:], and whose host name is neither accepted by the pattern of
    top-level domains nor an IP address: a target with an explicit scheme is
    never refused as an invalid host. *)
Theorem invalid_host_only_without_scheme {RT : Runtime} (options : corsAnywhere.t)
    (req : Request) :
  status_of (snd (handler options req)) = Some 404 ->
  has_explicit_scheme (url req) = false
  /\ exists location,
       parseURL (Str.slice 1 (url req)) = Some location
       /\ isValidHostName (or_empty (Url.hostname location)) = false.
Proof.
  rewrite handler_unfold. cbv zeta.
  destruct (prepared_request options req) as (_ & Hurl & _).
  unfold target_checks, policy_checks, showUsage. rewrite Hurl.
  destruct (String.eqb (method req) "OPTIONS"); [discriminate|].
  destruct (negb _); [discriminate|].
  destruct (parseURL (Str.slice 1 (url req))) as [location|];
    [|destruct (looks_like_missing_slash _); discriminate].
  cbn [snd].
  destruct (has_explicit_scheme (url req)) eqn:E;
    destruct (isValidHostName (or_empty (Url.hostname location))) eqn:V;
    cbn [negb andb]; split_ifs; cbn [status_of]; intros H; try discriminate H.
  eauto.
Qed.

Lemma invalid_host_only_without_scheme_witness :
  has_explicit_scheme (url (incoming "GET" "/favicon.ico" [])) = false
  /\ exists location,
       parseURL (RT := node) (Str.slice 1 (url (incoming "GET" "/favicon.ico" [])))
       = Some location
       /\ isValidHostName (RT := node) (or_empty (Url.hostname location)) = false.
Proof.
  apply (@invalid_host_only_without_scheme node default_options
           (incoming "GET" "/favicon.ico" [])).
  vm_compute. reflexivity.
Defined.

Lemma lacks_host_not_ci (x : ascii) (p t : string) :
  is_path_start x = false -> lacks_host t = true -> Str.startsWith_ci (String x p) t = false.
Proof.
  unfold lacks_host, Str.startsWith_ci. intros Hx Ht.
  destruct t as [|c t]; [reflexivity|].
  cbn [String.length substring Str.toLowerCase]. rewrite prefix_cons.
  destruct (Ascii.eqb_spec x (Str.lower_ascii c)) as [E|]; [|reflexivity].
  exfalso. unfold is_path_start in Ht. apply orb_true_iff in Ht as [H|H];
    apply Ascii.eqb_eq in H; subst c; subst x; discriminate.
Qed.

Lemma lacks_host_repair (t : string) : lacks_host t = true -> repair_single_slash t = t.
Proof.
  intros H. apply repair_single_slash_fixed. intros sch r2 _ ->. discriminate.
Qed.

(** X12 (getHandler, lines 334-351; parseURL, line 251).  A request
    (other than a preflight, and not taken by the hook) whose URL names no
    host after the first character is answered with the help file: the
    empty target, a target that begins with a question mark, or one that
    begins with a slash that is not the start of [//host].  No policy check
    is consulted. *)
Theorem target_without_host_shows_usage {RT : Runtime} (options : corsAnywhere.t)
    (req : Request) :
  method req <> "OPTIONS" ->
  hook_declines options (prepared options req) None = true ->
  lacks_host (Str.slice 1 (url req)) = true ->
  (Str.startsWith "//" (Str.slice 1 (url req)) = true ->
   lacks_host (Str.slice 2 (Str.slice 1 (url req))) = true) ->
  handler options req
  = (hook_calls options None,
     showUsage (corsAnywhere.helpFile options) (cors_headers_of options req)).
Proof.
  intros Hm Hhook Hl Hrel. rewrite handler_unfold. cbv zeta.
  destruct (String.eqb_spec (method req) "OPTIONS"); [contradiction|].
  assert (Hparse : parseURL (Str.slice 1 (url req)) = None).
  { unfold parseURL. rewrite (lacks_host_repair _ Hl).
    rewrite (proj2 (url_match_fails_iff_no_host _) (conj Hl Hrel)). reflexivity. }
  rewrite Hparse, Hhook. cbn [negb].
  assert (Hslash : looks_like_missing_slash (url req) = false).
  { unfold looks_like_missing_slash, Str.strip_prefix.
    destruct (Str.startsWith "/" (url req)); [|reflexivity].
    cbn [String.length].
    rewrite (lacks_host_not_ci "h" "ttp:/" _ eq_refl Hl).
    rewrite (lacks_host_not_ci "h" "ttps:/" _ eq_refl Hl). reflexivity. }
  rewrite Hslash. reflexivity.
Qed.

Lemma target_without_host_shows_usage_witness :
  handler (RT := node) strict_options (incoming "GET" "/?url=example.com" [])
  = (hook_calls strict_options None,
     showUsage (corsAnywhere.helpFile strict_options)
       (cors_headers_of strict_options (incoming "GET" "/?url=example.com" []))).
Proof.
  apply (@target_without_host_shows_usage node strict_options
           (incoming "GET" "/?url=example.com" [])).
  - discriminate.
  - reflexivity.
  - reflexivity.
  - discriminate.
Defined.
(** ** The target lists *)

Lemma endsWith_spec (suffix s : string) :
  Str.endsWith suffix s = true <-> exists pre, s = pre ++ suffix.
Proof.
  unfold Str.endsWith. cbv zeta. split.
  - intros H. apply andb_true_iff in H as [_ H]. apply String.eqb_eq in H.
    exists (substring 0 (String.length s - String.length suffix) s).
    rewrite <- H at 2. apply substring_slice.
  - intros [pre ->]. rewrite app_length_string. apply andb_true_iff. split.
    + apply Nat.leb_le. lia.
    + replace (String.length pre + String.length suffix - String.length suffix)%nat
        with (String.length pre) by lia.
      rewrite slice_app. apply String.eqb_refl.
Qed.

Lemma whitelist_some_callback_spec (hostname domain : string) :
  whitelist_some_callback hostname domain = true
  <-> hostname = Str.toLowerCase domain
      \/ exists sub, hostname = sub ++ "." ++ Str.toLowerCase domain.
Proof.
  unfold whitelist_some_callback. cbv zeta.
  rewrite orb_true_iff, String.eqb_eq, endsWith_spec. reflexivity.
Qed.

(** X13 (getHandler, lines 408-418).  With a target whitelist and no
    target blacklist, the lists let a host name pass exactly when, in lower
    case, it is an entry of the whitelist (in lower case) or ends with a dot
    followed by such an entry: the listed domains and their sub-domains. *)
Theorem targetWhitelist_admits_domains_and_subdomains (options : corsAnywhere.t)
    (location : Url.t) :
  corsAnywhere.targetBlacklist options = [] ->
  corsAnywhere.targetWhitelist options <> [] ->
  target_lists_reject options location = false
  <-> exists domain,
        In domain (corsAnywhere.targetWhitelist options)
        /\ (Str.toLowerCase (or_empty (Url.hostname location)) = Str.toLowerCase domain
            \/ exists sub, Str.toLowerCase (or_empty (Url.hostname location))
                           = sub ++ "." ++ Str.toLowerCase domain).
Proof.
  intros Hb Hw. unfold target_lists_reject. cbv zeta. rewrite Hb.
  destruct (corsAnywhere.targetWhitelist options) as [|w ws]; [contradiction|].
  cbn [length Nat.ltb Nat.leb andb orb].
  rewrite negb_false_iff, existsb_exists.
  split; intros (d & Hin & H); exists d; (split; [exact Hin|]);
    now apply whitelist_some_callback_spec.
Qed.

Lemma targetWhitelist_admits_domains_and_subdomains_witness :
  let options := corsAnywhere.mk None (fun _ => None) 5 [] ["Example.com"] [] [] None false
                   RequireFalsy [] [] 0 "/lib/help.txt" None in
  target_lists_reject options (Node.parse "http://api.EXAMPLE.com/") = false.
Proof.
  cbv zeta.
  apply (targetWhitelist_admits_domains_and_subdomains
           (corsAnywhere.mk None (fun _ => None) 5 [] ["Example.com"] [] [] None false
              RequireFalsy [] [] 0 "/lib/help.txt" None)
           (Node.parse "http://api.EXAMPLE.com/")).
  - reflexivity.
  - discriminate.
  - exists "Example.com". split; [left; reflexivity|]. right. exists "api". reflexivity.
Defined.

(** X14 (getHandler, lines 396-406).  A target blacklist that holds two
    entries which differ (in lower case) rejects no host name at all: the
    test of line 400 succeeds for every host name on the entry it is not
    equal to. *)
Theorem targetBlacklist_with_two_entries_blocks_nothing (options : corsAnywhere.t)
    (d1 d2 : string) (location : Url.t) :
  corsAnywhere.targetWhitelist options = [] ->
  In d1 (corsAnywhere.targetBlacklist options) ->
  In d2 (corsAnywhere.targetBlacklist options) ->
  Str.toLowerCase d1 <> Str.toLowerCase d2 ->
  target_lists_reject options location = false.
Proof.
  intros Hw H1 H2 Hne. unfold target_lists_reject. cbv zeta. rewrite Hw.
  cbn [length Nat.ltb Nat.leb andb]. rewrite orb_false_r.
  apply andb_false_iff. right. apply negb_false_iff.
  destruct (existsb _ _) eqn:E; [reflexivity|]. exfalso.
  apply blacklist_rejects_iff_all_equal in E. rewrite Forall_forall in E.
  apply Hne. rewrite <- (E d1 H1), <- (E d2 H2). reflexivity.
Qed.

Lemma targetBlacklist_with_two_entries_blocks_nothing_witness :
  target_lists_reject (with_targetBlacklist ["evil.com"; "bad.org"] default_options)
    (Node.parse "http://evil.com/") = false.
Proof.
  apply (targetBlacklist_with_two_entries_blocks_nothing
           (with_targetBlacklist ["evil.com"; "bad.org"] default_options)
           "evil.com" "bad.org").
  - reflexivity.
  - left. reflexivity.
  - right. left. reflexivity.
  - discriminate.
Defined.

(** ** The request that is handed over *)

Lemma mem_In (x : string) (l : list string) : Str.mem x l = true <-> In x l.
Proof.
  induction l as [|y l IH]; simpl; [split; [discriminate | tauto]|].
  rewrite orb_true_iff, String.eqb_eq, IH. split; intros [H|H]; auto.
Qed.

Lemma get_delete_all (V : Type) (names : list string) (o : Obj V) (k : string) :
  Object.get k (fold_left (fun h header => Object.delete header h) names o)
  = if Str.mem k names then None else Object.get k o.
Proof.
  revert o. induction names as [|n names IH]; intros o; [reflexivity|].
  cbn [fold_left Str.mem]. rewrite IH.
  destruct (String.eqb_spec k n) as [->|Hn]; cbn [orb].
  - rewrite get_delete_same. now destruct (Str.mem n names).
  - now rewrite get_delete_other.
Qed.

Lemma get_set_all (V : Type) (src : Obj V) (names : list string) (o : Obj V) (k : string) :
  Object.get k (fold_left (fun h header => match Object.get header src with
                                           | Some v => Object.set header v h
                                           | None => h
                                           end) names o)
  = if Str.mem k names
    then match Object.get k src with Some v => Some v | None => Object.get k o end
    else Object.get k o.
Proof.
  revert o. induction names as [|n names IH]; intros o; [reflexivity|].
  cbn [fold_left Str.mem]. rewrite IH.
  destruct (String.eqb_spec k n) as [->|Hn]; cbn [orb].
  - destruct (Object.get n src) as [v|] eqn:G.
    + rewrite get_set_same. now destruct (Str.mem n names).
    + now destruct (Str.mem n names).
  - destruct (Object.get n src) as [v|]; [rewrite get_set_other by assumption|]; reflexivity.
Qed.

(** X15 (getHandler, lines 441-447).  The headers of the request that is
    handed to [proxyRequest]: a name the [setHeaders] option holds has the
    value given there, also when [removeHeaders] lists it; any other name
    that [removeHeaders] lists is absent; every other header is the
    client's. *)
Theorem hand_over_headers {RT : Runtime} (options : corsAnywhere.t) (req : Request)
    (location : Url.t) (k : string) :
  Object.get k (headers (hand_over options req location))
  = match Object.get k (corsAnywhere.setHeaders options) with
    | Some v => Some v
    | None => if Str.mem k (corsAnywhere.removeHeaders options) then None
              else Object.get k (headers req)
    end.
Proof.
  unfold hand_over. cbv zeta. cbn [headers with_state with_headers].
  rewrite get_set_all, get_delete_all.
  destruct (Object.get k (corsAnywhere.setHeaders options)) as [v|] eqn:G.
  - assert (Hin : In k (Object.keys (corsAnywhere.setHeaders options))).
    { apply dom_in_keys. apply get_in_dom. congruence. }
    apply mem_In in Hin. now rewrite Hin.
  - now destruct (Str.mem k (Object.keys (corsAnywhere.setHeaders options))).
Qed.
(** ** The redirect to the target itself *)

Lemma same_origin_spec (origin href : string) :
  same_origin origin href = true <-> exists rest, href = origin ++ "/" ++ rest.
Proof.
  unfold same_origin, Str.startsWith. split.
  - intros H. apply andb_true_iff in H as [Hc Hp]. apply prefix_split in Hp.
    destruct (Str.slice (String.length origin) href) as [|c rest]; [discriminate|].
    apply Ascii.eqb_eq in Hc. subst c. exists rest. exact Hp.
  - intros [rest ->]. rewrite slice_app, prefix_app. reflexivity.
Qed.

(** X16 (getHandler, lines 427-436).  The handler answers 301 only when
    the [redirectSameOrigin] option is set and the URL of the target is the
    origin of the request, which is not empty, followed by a slash and the
    rest; the reply then points at the target itself, varies on the origin,
    is marked private, has no body and still carries the CORS headers. *)
Theorem same_origin_request_is_redirected {RT : Runtime} (options : corsAnywhere.t)
    (req : Request) (reason : option string) (h : Obj hval) (body : string) :
  snd (handler options req) = Replied 301 reason h body ->
  corsAnywhere.redirectSameOrigin options = true
  /\ body = ""
  /\ exists location rest,
       parseURL (Str.slice 1 (url req)) = Some location
       /\ origin_of (prepared options req) <> ""
       /\ Url.href location = origin_of (prepared options req) ++ "/" ++ rest
       /\ Object.get "location" h = Some (HStr (Url.href location))
       /\ Object.get "vary" h = Some (HStr "origin")
       /\ Object.get "cache-control" h = Some (HStr "private")
       /\ Object.get "access-control-allow-origin" h = Some (HStr "*").
Proof.
  rewrite handler_unfold. cbv zeta.
  destruct (withCORS_fixed_headers [] (with_state (initial_state options) req)) as [Ho _].
  fold (cors_headers_of options req) in Ho.
  destruct (String.eqb (method req) "OPTIONS"); [discriminate|].
  destruct (negb _); [discriminate|].
  destruct (parseURL (Str.slice 1 (url req))) as [location|];
    [|destruct (looks_like_missing_slash _); discriminate].
  cbn [snd]. unfold target_checks, policy_checks.
  fold (origin_of (prepared options req)).
  repeat match goal with
         | |- context [if ?b then _ else _] =>
             lazymatch b with
             | (corsAnywhere.redirectSameOrigin options && _ && _)%bool => fail
             | _ => destruct b; cbn [snd]; try discriminate
             end
         end.
  all: destruct (corsAnywhere.redirectSameOrigin options); [|discriminate..].
  all: destruct (String.eqb_spec (origin_of (prepared options req)) ""); [discriminate..|].
  all: destruct (same_origin (origin_of (prepared options req)) (Url.href location)) eqn:S;
    [|discriminate..].
  all: cbn [negb andb snd]; intros [= <- <- <-];
    apply same_origin_spec in S as [rest S];
    (split; [reflexivity|]); (split; [reflexivity|]); exists location, rest;
    repeat split; try assumption;
    repeat first [rewrite get_set_same | rewrite get_set_other by discriminate];
    auto.
Qed.

Lemma same_origin_request_is_redirected_witness :
  let options := corsAnywhere.mk None (fun _ => None) 5 [] [] [] [] None true
                   RequireFalsy [] [] 0 "/lib/help.txt" None in
  let req := incoming "GET" "/http://example.com/page" [("origin", "http://example.com")] in
  corsAnywhere.redirectSameOrigin options = true
  /\ "" = ""
  /\ exists location rest,
       parseURL (RT := node) (Str.slice 1 (url req)) = Some location
       /\ origin_of (prepared options req) <> ""
       /\ Url.href location = origin_of (prepared options req) ++ "/" ++ rest
       /\ Object.get "location"
            (Object.set "location" (HStr "http://example.com/page")
               (Object.set "cache-control" (HStr "private")
                  (Object.set "vary" (HStr "origin") (cors_headers_of options req))))
          = Some (HStr (Url.href location))
       /\ Object.get "vary"
            (Object.set "location" (HStr "http://example.com/page")
               (Object.set "cache-control" (HStr "private")
                  (Object.set "vary" (HStr "origin") (cors_headers_of options req))))
          = Some (HStr "origin")
       /\ Object.get "cache-control"
            (Object.set "location" (HStr "http://example.com/page")
               (Object.set "cache-control" (HStr "private")
                  (Object.set "vary" (HStr "origin") (cors_headers_of options req))))
          = Some (HStr "private")
       /\ Object.get "access-control-allow-origin"
            (Object.set "location" (HStr "http://example.com/page")
               (Object.set "cache-control" (HStr "private")
                  (Object.set "vary" (HStr "origin") (cors_headers_of options req))))
          = Some (HStr "*").
Proof.
  cbv zeta.
  apply (@same_origin_request_is_redirected node
           (corsAnywhere.mk None (fun _ => None) 5 [] [] [] [] None true
              RequireFalsy [] [] 0 "/lib/help.txt" None)
           (incoming "GET" "/http://example.com/page" [("origin", "http://example.com")])
           (Some "Please use a direct request")).
  vm_compute. reflexivity.
Defined.

(** ** The required headers *)

(** X17 (getHandler, lines 301-316).  What the [requireHeader] option asks
    of the headers of a request: a non-empty string asks for the header of
    that name in lower case; a non-empty array asks for one of its names,
    in lower case, to be present; everything else (a falsy value, an empty
    array, a value that is neither string nor array) asks for nothing. *)
Theorem hasRequiredHeaders_spec {RT : Runtime} (options : corsAnywhere.t) (h : Obj string) :
  hasRequiredHeaders options h = true
  <-> match corsAnywhere.requireHeader options with
      | RequireString name => name = "" \/ In (Str.toLowerCase name) (map fst h)
      | RequireArray names =>
          names = [] \/ exists name, In name names /\ In (Str.toLowerCase name) (map fst h)
      | RequireFalsy | RequireOther => True
      end.
Proof.
  unfold hasRequiredHeaders, normalize_requireHeader.
  destruct (corsAnywhere.requireHeader options) as [|name|names|]; try tauto.
  - destruct (String.eqb_spec name ""); [tauto|].
    cbn [existsb]. rewrite orb_false_r, hasOwnProperty_dom. tauto.
  - destruct names as [|n names]; [tauto|].
    rewrite existsb_exists. split.
    + intros (x & Hin & Hx). right. apply in_map_iff in Hin as (name & <- & Hin).
      apply hasOwnProperty_dom in Hx. eauto.
    + intros [H|(name & Hin & Hx)]; [discriminate|].
      exists (Str.toLowerCase name). split; [now apply in_map|].
      now apply hasOwnProperty_dom.
Qed.
(** ** More on the mediation of responses *)

(** X18 (onProxyResponse, lines 181-206).  A redirect is followed only when
    the status is 301, 302 or 303, the [Location] header resolves to a
    target that [parseURL] accepts, and the incremented redirect counter
    does not exceed [maxRedirects].  The request that is then sent again is
    a GET with [content-length: 0] and without [content-type], aimed at the
    parsed location; its other headers are unchanged. *)
Theorem followed_redirect_is_reissued_as_get {RT : Runtime} (proxyRes : ProxyRes.t)
    (req req' : Request) (res res' : Res.t) :
  onProxyResponse proxyRes req res = Redirected req' res' ->
  is_followed_status (ProxyRes.statusCode proxyRes) = true
  /\ (exists locationHeader,
        redirect_target proxyRes req
        = option_map (pair locationHeader) (location (corsAnywhereRequestState req'))
        /\ location (corsAnywhereRequestState req') <> None)
  /\ redirectCount_ (corsAnywhereRequestState req')
     = Some (next_redirectCount (redirectCount_ (corsAnywhereRequestState req)))
  /\ next_redirectCount (redirectCount_ (corsAnywhereRequestState req))
     <= maxRedirects (corsAnywhereRequestState req)
  /\ method req' = "GET"
  /\ Object.get "content-length" (headers req') = Some "0"
  /\ Object.get "content-type" (headers req') = None
  /\ forall k, k <> "content-length" -> k <> "content-type" ->
               Object.get k (headers req') = Object.get k (headers req).
Proof.
  unfold onProxyResponse, redirect_target, finalize.
  destruct (location (corsAnywhereRequestState req)) as [loc|]; [|discriminate].
  cbv zeta.
  destruct (is_redirect_status _);
    [|destruct (withCORS _ _); discriminate].
  destruct (Object.get "location" _) as [v|];
    [|destruct (withCORS _ _); discriminate].
  destruct (hval_truthy v);
    [|destruct (withCORS _ _); discriminate].
  destruct (parseURL _) as [parsed|];
    [|destruct (withCORS _ _); discriminate].
  destruct (is_followed_status _);
    [|destruct (withCORS _ _); discriminate].
  destruct (_ <=? _) eqn:Hle;
    [|destruct (withCORS _ _); discriminate].
  intros [= <- _]. apply Z.leb_le in Hle.
  split; [reflexivity|]. split.
  { eexists. split; [reflexivity|]. discriminate. }
  split; [reflexivity|]. split; [exact Hle|]. split; [reflexivity|].
  cbn [headers with_location with_state with_headers with_method with_redirectCount].
  split; [rewrite get_delete_other by discriminate; apply get_set_same|].
  split; [apply get_delete_same|].
  intros k K1 K2. rewrite get_delete_other, get_set_other by assumption. reflexivity.
Qed.

Lemma followed_redirect_is_reissued_as_get_witness :
  let req := admitted_request (RT := node) default_options
               (incoming "POST" "/example.com/" [("host", "proxy.test");
                                                 ("content-type", "text/plain")]) in
  let answer := ProxyRes.mk 303 [("location", HStr "/next")] in
  match onProxyResponse (RT := node) answer req Res.fresh with
  | Redirected req' _ =>
      method req' = "GET"
      /\ Object.get "content-type" (headers req') = None
      /\ option_map Url.href (location (corsAnywhereRequestState req'))
         = Some "http://example.com/next"
  | _ => False
  end.
Proof.
  cbv zeta.
  destruct (onProxyResponse (RT := node) (ProxyRes.mk 303 [("location", HStr "/next")])
              (admitted_request (RT := node) default_options
                 (incoming "POST" "/example.com/" [("host", "proxy.test");
                                                   ("content-type", "text/plain")]))
              Res.fresh) as [req' res'| |] eqn:E; try (vm_compute in E; discriminate E).
  destruct (followed_redirect_is_reissued_as_get _ _ _ _ _ E)
    as (_ & _ & _ & _ & Hm & _ & Ht & _).
  split; [exact Hm|]. split; [exact Ht|].
  vm_compute in E. injection E as <- _. reflexivity.
Defined.
Lemma finalize_spec {RT : Runtime} (loc : Url.t) (p : ProxyRes.t) (req : Request) (res : Res.t) :
  exists p' req',
    finalize loc p req res = Finalized p' req' res
    /\ ProxyRes.statusCode p' = ProxyRes.statusCode p
    /\ Object.get "set-cookie" (ProxyRes.headers p') = None
    /\ Object.get "set-cookie2" (ProxyRes.headers p') = None
    /\ Object.get "x-final-url" (ProxyRes.headers p') = Some (HStr (Url.href loc))
    /\ Object.get "access-control-allow-origin" (ProxyRes.headers p') = Some (HStr "*")
    /\ (forall k, ~ In k cors_written -> k <> "set-cookie" -> k <> "set-cookie2" ->
                  k <> "x-final-url" ->
                  Object.get k (ProxyRes.headers p') = Object.get k (ProxyRes.headers p))
    /\ method req' = method req
    /\ corsAnywhereRequestState req' = corsAnywhereRequestState req.
Proof.
  unfold finalize.
  set (h := Object.set "x-final-url" _ _).
  pose proof (withCORS_get_other h req) as Hother.
  destruct (withCORS_fixed_headers h req) as [Ho _].
  destruct (withCORS_request h req) as (Hm & _ & _ & Hs & _).
  destruct (withCORS h req) as [h' req']. cbn [fst snd] in *.
  exists (with_proxyRes_headers h' p), req'. split; [reflexivity|].
  cbn [with_proxyRes_headers ProxyRes.statusCode ProxyRes.headers].
  split; [reflexivity|].
  split.
  { rewrite Hother by (simpl; intuition discriminate). subst h.
    rewrite get_set_other by discriminate.
    rewrite get_delete_other by discriminate. apply get_delete_same. }
  split.
  { rewrite Hother by (simpl; intuition discriminate). subst h.
    rewrite get_set_other by discriminate. apply get_delete_same. }
  split.
  { rewrite Hother by (simpl; intuition discriminate). subst h. apply get_set_same. }
  split; [exact Ho|].
  split; [|auto].
  intros k K1 K2 K3 K4. rewrite Hother by assumption. subst h.
  rewrite get_set_other, !get_delete_other by assumption. reflexivity.
Qed.

(** X19 (onProxyResponse, lines 216-224).  Whenever the mediator lets a
    response of the target through, the status code is the target's, the
    headers [set-cookie] and [set-cookie2] are gone, [x-final-url] holds
    the URL of the target the response came from, every origin is allowed,
    and every header other than these, [location] and the names [withCORS]
    writes is passed on as the target sent it. *)
Theorem mediated_response_headers {RT : Runtime} (proxyRes proxyRes' : ProxyRes.t)
    (req req' : Request) (res res' : Res.t) :
  onProxyResponse proxyRes req res = Finalized proxyRes' req' res' ->
  ProxyRes.statusCode proxyRes' = ProxyRes.statusCode proxyRes
  /\ Object.get "set-cookie" (ProxyRes.headers proxyRes') = None
  /\ Object.get "set-cookie2" (ProxyRes.headers proxyRes') = None
  /\ option_map (fun loc => HStr (Url.href loc)) (location (corsAnywhereRequestState req))
     = Object.get "x-final-url" (ProxyRes.headers proxyRes')
  /\ Object.get "access-control-allow-origin" (ProxyRes.headers proxyRes') = Some (HStr "*")
  /\ forall k, ~ In k cors_written -> k <> "set-cookie" -> k <> "set-cookie2" ->
               k <> "x-final-url" -> k <> "location" ->
               Object.get k (ProxyRes.headers proxyRes')
               = Object.get k (ProxyRes.headers proxyRes).
Proof.
  unfold onProxyResponse.
  destruct (location (corsAnywhereRequestState req)) as [loc|]; [|discriminate].
  cbv zeta. set (res1 := if (_ && _)%bool then _ else res). clearbody res1.
  assert (plain : forall r,
             finalize loc proxyRes r res1 = Finalized proxyRes' req' res' ->
             ProxyRes.statusCode proxyRes' = ProxyRes.statusCode proxyRes
             /\ Object.get "set-cookie" (ProxyRes.headers proxyRes') = None
             /\ Object.get "set-cookie2" (ProxyRes.headers proxyRes') = None
             /\ option_map (fun loc => HStr (Url.href loc)) (Some loc)
                = Object.get "x-final-url" (ProxyRes.headers proxyRes')
             /\ Object.get "access-control-allow-origin" (ProxyRes.headers proxyRes')
                = Some (HStr "*")
             /\ forall k, ~ In k cors_written -> k <> "set-cookie" -> k <> "set-cookie2" ->
                          k <> "x-final-url" -> k <> "location" ->
                          Object.get k (ProxyRes.headers proxyRes')
                          = Object.get k (ProxyRes.headers proxyRes)).
  { intros r H.
    destruct (finalize_spec loc proxyRes r res1)
      as (p' & r' & E & Hs & H1 & H2 & H3 & H4 & H5 & _).
    rewrite E in H. injection H as <- _ _. cbn [option_map]. auto 10. }
  assert (rewritten : forall r r' l,
             finalize loc (rewrite_location r' l proxyRes) r res1
             = Finalized proxyRes' req' res' ->
             ProxyRes.statusCode proxyRes' = ProxyRes.statusCode proxyRes
             /\ Object.get "set-cookie" (ProxyRes.headers proxyRes') = None
             /\ Object.get "set-cookie2" (ProxyRes.headers proxyRes') = None
             /\ option_map (fun loc => HStr (Url.href loc)) (Some loc)
                = Object.get "x-final-url" (ProxyRes.headers proxyRes')
             /\ Object.get "access-control-allow-origin" (ProxyRes.headers proxyRes')
                = Some (HStr "*")
             /\ forall k, ~ In k cors_written -> k <> "set-cookie" -> k <> "set-cookie2" ->
                          k <> "x-final-url" -> k <> "location" ->
                          Object.get k (ProxyRes.headers proxyRes')
                          = Object.get k (ProxyRes.headers proxyRes)).
  { intros r r' l H.
    destruct (finalize_spec loc (rewrite_location r' l proxyRes) r res1)
      as (p' & r'' & E & Hs & H1 & H2 & H3 & H4 & H5 & _).
    rewrite E in H. injection H as <- _ _. cbn [option_map].
    repeat (split; [first [assumption | symmetry; assumption]|]).
    intros k K1 K2 K3 K4 K5. rewrite H5 by assumption.
    unfold rewrite_location. cbn [with_proxyRes_headers ProxyRes.headers].
    now rewrite get_set_other. }
  destruct (is_redirect_status _); [|apply plain].
  destruct (Object.get "location" _) as [v|]; [|apply plain].
  destruct (hval_truthy v); [|apply plain].
  destruct (parseURL _) as [parsed|]; [|apply plain].
  destruct (is_followed_status _); [|apply rewritten].
  destruct (_ <=? _); [discriminate|apply rewritten].
Qed.

Lemma mediated_response_headers_witness :
  match onProxyResponse (RT := node) temporary_redirect
          (admitted_request (RT := node) default_options example_request) Res.fresh with
  | Finalized proxyRes' _ _ =>
      ProxyRes.statusCode proxyRes' = 307
      /\ Object.get "set-cookie" (ProxyRes.headers proxyRes') = None
  | _ => False
  end.
Proof.
  destruct (onProxyResponse (RT := node) temporary_redirect
              (admitted_request (RT := node) default_options example_request) Res.fresh)
    as [| proxyRes' req' res' |] eqn:E; try (vm_compute in E; discriminate E).
  destruct (mediated_response_headers _ _ _ _ _ _ E) as (Hs & Hc & _).
  split; [exact Hs | exact Hc].
Defined.




Lemma getHeader_setHeader_other (name name' : string) (v : hval) (r : Res.t) :
  Str.toLowerCase name <> Str.toLowerCase name' ->
  Res.getHeader name (Res.setHeader name' v r) = Res.getHeader name r.
Proof.
  intros H. unfold Res.getHeader, Res.setHeader. cbn [Res.headers].
  now rewrite get_set_other.
Qed.

Lemma getHeader_setHeader_same (name name' : string) (v : hval) (r : Res.t) :
  Str.toLowerCase name = Str.toLowerCase name' ->
  Res.getHeader name (Res.setHeader name' v r) = Some v.
Proof.
  intros H. unfold Res.getHeader, Res.setHeader. cbn [Res.headers].
  now rewrite H, get_set_same.
Qed.

(** X22 (onProxyResponse, lines 173-178 and 193-195).  The mediator sets
    [x-request-url] to the URL of the target only while no redirect has
    been counted and the headers of the response are not sent; on every
    later response of a redirect chain it leaves the header as it is, so
    the header names the target the client asked for. *)
Theorem x_request_url_names_the_first_target {RT : Runtime} (proxyRes : ProxyRes.t)
    (req : Request) (res res' : Res.t) (loc : Url.t) :
  location (corsAnywhereRequestState req) = Some loc ->
  mediated_res (onProxyResponse proxyRes req res) = Some res' ->
  Res.getHeader "x-request-url" res'
  = if (negb (Res.headersSent res)
        && no_redirect_yet (redirectCount_ (corsAnywhereRequestState req)))%bool
    then Some (HStr (Url.href loc))
    else Res.getHeader "x-request-url" res.
Proof.
  unfold onProxyResponse. intros L. rewrite L. cbv zeta.
  set (res1 := if (_ && _)%bool then _ else res).
  assert (H1 : Res.getHeader "x-request-url" res1
               = if (negb (Res.headersSent res)
                     && no_redirect_yet (redirectCount_ (corsAnywhereRequestState req)))%bool
                 then Some (HStr (Url.href loc))
                 else Res.getHeader "x-request-url" res).
  { subst res1. destruct (_ && _)%bool; [|reflexivity].
    now apply getHeader_setHeader_same. }
  clearbody res1.
  assert (plain : forall p r,
             mediated_res (finalize loc p r res1) = Some res' ->
             Res.getHeader "x-request-url" res'
             = if (negb (Res.headersSent res)
                   && no_redirect_yet (redirectCount_ (corsAnywhereRequestState req)))%bool
               then Some (HStr (Url.href loc))
               else Res.getHeader "x-request-url" res).
  { intros p r. destruct (finalize_spec loc p r res1) as (p' & r' & E & _).
    rewrite E. cbn [mediated_res]. intros [= <-]. exact H1. }
  destruct (is_redirect_status _); [|apply plain].
  destruct (Object.get "location" _) as [v|]; [|apply plain].
  destruct (hval_truthy v); [|apply plain].
  destruct (parseURL _) as [parsed|]; [|apply plain].
  destruct (is_followed_status _); [|apply plain].
  destruct (_ <=? _); [|apply plain].
  cbn [mediated_res]. intros [= <-].
  destruct (negb (Res.headersSent res1)); [|exact H1].
  rewrite getHeader_setHeader_other; [exact H1|]. simpl. discriminate.
Qed.

Lemma x_request_url_names_the_first_target_witness :
  option_map (Res.getHeader "x-request-url")
    (mediated_res
       (onProxyResponse (RT := node) plain_answer
          (admitted_request (RT := node) default_options example_request) Res.fresh))
  = Some (Some (HStr "http://example.com/")).
Proof.
  destruct (mediated_res
              (onProxyResponse (RT := node) plain_answer
                 (admitted_request (RT := node) default_options example_request) Res.fresh))
    as [res'|] eqn:E; [|vm_compute in E; discriminate E].
  cbn [option_map].
  rewrite (@x_request_url_names_the_first_target node plain_answer
             (admitted_request (RT := node) default_options example_request)
             Res.fresh res' (Node.parse "http://example.com/")).
  - reflexivity.
  - vm_compute. reflexivity.
  - exact E.
Defined.

(** ** More on the forwarding engine *)

Section EngineFacts.
Context {RT : Runtime}.
Variable proxy : HttpProxy.

Lemma start_exchange_request (req : Request) (loc : Url.t) (out : Outbound) (guarded : bool) :
  start_exchange req loc = Calls out guarded ->
  method (out_request out) = method req /\ headers (out_request out) = headers req.
Proof.
  unfold start_exchange, outbound. cbv zeta.
  destruct (dnsLookup (corsAnywhereRequestState req)) as [lookup|].
  - destruct (truthy _); cbn [out_target out_request];
      destruct (lookup _); intros H; inversion H; subst; auto.
  - destruct (truthy _); intros H; inversion H; subst; auto.
Qed.

Lemma redirected_is_bodiless_get (p : ProxyRes.t) (req req' : Request) (res res' : Res.t) :
  onProxyResponse p req res = Redirected req' res' -> bodiless_get req'.
Proof.
  unfold onProxyResponse, finalize.
  destruct (location (corsAnywhereRequestState req)) as [loc|]; [|discriminate].
  cbv zeta.
  destruct (is_redirect_status _); [|destruct (withCORS _ _); discriminate].
  destruct (Object.get "location" _) as [v|]; [|destruct (withCORS _ _); discriminate].
  destruct (hval_truthy v); [|destruct (withCORS _ _); discriminate].
  destruct (parseURL _) as [parsed|]; [|destruct (withCORS _ _); discriminate].
  destruct (is_followed_status _); [|destruct (withCORS _ _); discriminate].
  destruct (_ <=? _); [|destruct (withCORS _ _); discriminate].
  intros [= <- _]. unfold bodiless_get.
  cbn [method headers with_location with_state with_headers with_method].
  split; [reflexivity|].
  split; [rewrite get_delete_other by discriminate; apply get_set_same | apply get_delete_same].
Qed.

Lemma proxyRequest_bodiless (fuel n : nat) (nested : bool) (req : Request) (res : Res.t) :
  bodiless_get req ->
  Forall (fun out => bodiless_get (out_request out))
         (exchanges (proxyRequest proxy fuel n nested req res)).
Proof.
  revert n nested req res. induction fuel as [|fuel IH]; intros n nested req res Hreq;
    [constructor|].
  cbn [proxyRequest].
  destruct (location (corsAnywhereRequestState req)) as [loc|]; [|constructor].
  destruct (start_exchange req loc) as [out guarded|req1 err] eqn:S.
  - apply start_exchange_request in S as [Sm Sh].
    assert (Hout : bodiless_get (out_request out)).
    { unfold bodiless_get in *. rewrite Sm, Sh. exact Hreq. }
    destruct (web proxy n out) as [p|err|err].
    + destruct (onProxyResponse p (out_request out) (end_after_redirect nested res))
        as [req' res'| |] eqn:M; cbn [exchanges]; try (constructor; [exact Hout | constructor]).
      constructor; [exact Hout|]. apply IH. eapply redirected_is_bodiless_get; eauto.
    + destruct guarded; [destruct (emit_error _ _ _ _)|]; cbn [exchanges];
        (constructor; [exact Hout | constructor]).
    + destruct (emit_error _ _ _ _); cbn [exchanges]; (constructor; [exact Hout | constructor]).
  - destruct (emit_error _ _ _ _). constructor.
Qed.

End EngineFacts.

(** X23 (proxyRequest and onProxyResponse, lines 197-205).  Whatever the
    method of the client's request, every exchange after the first, that
    is, every request sent to follow a redirect, is a GET with
    [content-length: 0] and without [content-type]. *)
Theorem redirects_are_followed_with_get {RT : Runtime} (proxy : HttpProxy) (fuel n : nat)
    (nested : bool) (req : Request) (res : Res.t) :
  Forall (fun out => bodiless_get (out_request out))
         (tl (exchanges (proxyRequest proxy fuel n nested req res))).
Proof.
  destruct fuel as [|fuel]; [constructor|].
  cbn [proxyRequest].
  destruct (location (corsAnywhereRequestState req)) as [loc|]; [|constructor].
  destruct (start_exchange req loc) as [out guarded|req1 err].
  - destruct (web proxy n out) as [p|err|err].
    + destruct (onProxyResponse p (out_request out) (end_after_redirect nested res))
        as [req' res'| |] eqn:M; cbn [exchanges tl]; try constructor.
      apply proxyRequest_bodiless. eapply redirected_is_bodiless_get; eauto.
    + destruct guarded; [destruct (emit_error _ _ _ _)|]; constructor.
    + destruct (emit_error _ _ _ _); constructor.
  - destruct (emit_error _ _ _ _). constructor.
Qed.
(** ** Failures before and after the exchange *)

Lemma admitted_lookup {RT : Runtime} (options : corsAnywhere.t) (req : Request)
    (loc : Url.t) :
  dnsLookup (corsAnywhereRequestState (hand_over options (prepared options req) loc))
  = corsAnywhere.dnsLookup options
  /\ location (corsAnywhereRequestState (hand_over options (prepared options req) loc))
     = Some loc.
Proof.
  unfold hand_over, prepared. cbv zeta.
  destruct (withCORS_request [] (with_state (initial_state options) req))
    as (_ & _ & _ & Hstate & _).
  cbn [corsAnywhereRequestState with_state dnsLookup location]. rewrite Hstate.
  split; reflexivity.
Qed.

Lemma proxyRequest_lookup_fails {RT : Runtime} (proxy : HttpProxy) (fuel n : nat)
    (nested : bool) (req : Request) (res : Res.t) (loc : Url.t) (lookup : string -> Lookup)
    (err : string) :
  location (corsAnywhereRequestState req) = Some loc ->
  dnsLookup (corsAnywhereRequestState req) = Some lookup ->
  (forall name, lookup name = LookupError err) ->
  proxyRequest proxy (S fuel) n nested req res
  = mkRun [] (fst (emit_error (error_listeners proxy) err (out_request (outbound req loc))
                     (end_after_redirect nested res)))
          (snd (emit_error (error_listeners proxy) err (out_request (outbound req loc))
                  (end_after_redirect nested res))).
Proof.
  intros Hloc Hdns Hfail. cbn [proxyRequest]. rewrite Hloc.
  unfold start_exchange. rewrite Hdns. cbv zeta. rewrite Hfail.
  now destruct (emit_error _ _ _ _).
Qed.

(** X24 (proxyRequest, lines 128-135; createServer, lines 490-512).  When
    the configured [dnsLookup] reports an error, an admitted request is not
    sent anywhere: the error is emitted on the proxy, and with the fallback
    listener of [createServer] the client receives a 404 that allows every
    origin and names the error. *)
Theorem failing_lookup_is_answered_404 {RT : Runtime} (options : corsAnywhere.t)
    (target : nat -> Outbound -> Exchange) (req : Request) (run : Run)
    (lookup : string -> Lookup) (err : string) :
  corsAnywhere.dnsLookup options = Some lookup ->
  (forall name, lookup name = LookupError err) ->
  serve options (mkProxy target (createServer_error_listeners None)) req = Some run ->
  exchanges run = []
  /\ ending run = ErrorEmitted err
  /\ Res.statusCode (run_res run) = 404
  /\ Res.body (run_res run) = "Not found because of proxy error: " ++ err
  /\ Res.getHeader "Access-Control-Allow-Origin" (run_res run) = Some (HStr "*")
  /\ Res.writableEnded (run_res run) = true.
Proof.
  intros Hdns Hfail. unfold serve.
  destruct (snd (handler options req)) as [| | |admitted] eqn:Hadmitted; try discriminate.
  apply handler_proxied in Hadmitted as [loc ->].
  destruct (admitted_lookup options req loc) as [Hl Hloc].
  rewrite Hdns in Hl. intros H.
  assert (Hrun : run = proxyRequest (mkProxy target (createServer_error_listeners None))
                         (enough_fuel (hand_over options (prepared options req) loc)) 0 false
                         (hand_over options (prepared options req) loc) Res.fresh)
    by congruence.
  clear H. rewrite Hrun. unfold enough_fuel. cbv zeta.
  rewrite (proxyRequest_lookup_fails _ _ _ _ _ _ loc lookup err Hloc Hl Hfail).
  cbn. repeat split.
Qed.

Lemma failing_lookup_is_answered_404_witness :
  let options := corsAnywhere.mk None (fun _ => None) 5 [] [] [] [] None false
                   RequireFalsy [] [] 0 "/lib/help.txt"
                   (Some (fun _ => LookupError "ENOTFOUND")) in
  exists run,
    serve (RT := node) options (unreachable None) example_request = Some run
    /\ exchanges run = []
    /\ Res.statusCode (run_res run) = 404.
Proof.
  cbv zeta. eexists. split; [reflexivity|].
  destruct (@failing_lookup_is_answered_404 node
              (corsAnywhere.mk None (fun _ => None) 5 [] [] [] [] None false
                 RequireFalsy [] [] 0 "/lib/help.txt"
                 (Some (fun _ => LookupError "ENOTFOUND")))
              (fun _ _ => Fails "Error: connect ECONNREFUSED") example_request _
              (fun _ => LookupError "ENOTFOUND") "ENOTFOUND" eq_refl (fun _ => eq_refl) eq_refl)
    as (H1 & _ & H2 & _).
  split; [exact H1 | exact H2].
Defined.

Lemma no_error_listener (listeners : CustomListeners) :
  Object.get "error" listeners = None ->
  createServer_error_listeners (Some listeners) = [].
Proof.
  intros H. unfold createServer_error_listeners.
  induction (Object.keys listeners) as [|event l IH]; [reflexivity|].
  cbn [fold_right]. rewrite IH.
  destruct (String.eqb_spec event "error") as [->|]; [now rewrite H | reflexivity].
Qed.

(** X25 (createServer, lines 484-488; proxyRequest).  When the
    [customListeners] option is given and holds no listener for [error],
    the fallback is not installed either: a target that cannot be reached
    leaves the response to the client untouched, neither written nor
    ended, and the error has no listener. *)
Theorem custom_listeners_without_error_leave_client_waiting {RT : Runtime}
    (listeners : CustomListeners) (target : nat -> Outbound -> Exchange) (fuel n : nat)
    (req : Request) (res : Res.t) (loc : Url.t) (err : string) :
  Object.get "error" listeners = None ->
  location (corsAnywhereRequestState req) = Some loc ->
  dnsLookup (corsAnywhereRequestState req) = None ->
  target n (outbound req loc) = Fails err ->
  proxyRequest (mkProxy target (createServer_error_listeners (Some listeners))) (S fuel) n false
    req res
  = mkRun [outbound req loc] res (ErrorUnhandled err).
Proof.
  intros Hl Hloc Hdns Hweb. cbn [proxyRequest]. rewrite Hloc.
  unfold start_exchange. rewrite Hdns. cbv zeta. cbn [web]. rewrite Hweb.
  cbn [error_listeners]. rewrite (no_error_listener listeners Hl). reflexivity.
Qed.

Lemma custom_listeners_without_error_leave_client_waiting_witness :
  proxyRequest (RT := node)
    (mkProxy (fun _ _ => Fails "Error: connect ECONNREFUSED")
       (createServer_error_listeners (Some [("proxyReq", fun _ _ r => r)])))
    1 0 false (admitted_request (RT := node) default_options example_request) Res.fresh
  = mkRun [outbound (admitted_request (RT := node) default_options example_request)
             (Node.parse "http://example.com/")]
          Res.fresh (ErrorUnhandled "Error: connect ECONNREFUSED").
Proof.
  apply (@custom_listeners_without_error_leave_client_waiting node
           [("proxyReq", fun _ _ r => r)] (fun _ _ => Fails "Error: connect ECONNREFUSED")
           0 0 (admitted_request (RT := node) default_options example_request) Res.fresh
           (Node.parse "http://example.com/") "Error: connect ECONNREFUSED").
  - reflexivity.
  - vm_compute. reflexivity.
  - reflexivity.
  - reflexivity.
Defined.

(** ** The handler and the engine together *)

(** X26 (getHandler, proxyRequest, onProxyResponse lines 218-219).  For a
    request that is alone on the proxy, from the handler to the end of the
    redirect chain: when a response of the target is passed through to the
    client, neither its headers as the mediator leaves them nor the
    response to the client carry [Set-Cookie] or [Set-Cookie2].  The
    header names of the target's responses are in lower case, as Node
    delivers them. *)
Theorem served_response_carries_no_cookie {RT : Runtime} (options : corsAnywhere.t)
    (proxy : HttpProxy) (req : Request) (run : Run) (proxyRes : ProxyRes.t) :
  (forall n out p, web proxy n out = Responds p -> lower_case_names (ProxyRes.headers p)) ->
  serve options proxy req = Some run ->
  ending run = PassedThrough proxyRes ->
  Res.getHeader "Set-Cookie" (run_res run) = None
  /\ Res.getHeader "Set-Cookie2" (run_res run) = None
  /\ Object.get "set-cookie" (ProxyRes.headers proxyRes) = None
  /\ Object.get "set-cookie2" (ProxyRes.headers proxyRes) = None.
Proof.
  intros Hweb. unfold serve.
  destruct (snd (handler options req)) as [| | |admitted]; try discriminate.
  intros [= <-] Hend.
  destruct (proxyRequest_cookies proxy (enough_fuel admitted) 0 false admitted Res.fresh
              proxyRes Hweb) as ([H1 H2] & H3 & H4); auto.
  split; reflexivity.
Qed.

Lemma served_response_carries_no_cookie_witness :
  match serve (RT := node) default_options sets_cookies example_request with
  | Some run =>
      match ending run with
      | PassedThrough proxyRes =>
          Res.getHeader "Set-Cookie" (run_res run) = None
          /\ Object.get "set-cookie" (ProxyRes.headers proxyRes) = None
      | _ => False
      end
  | None => False
  end.
Proof.
  destruct (serve (RT := node) default_options sets_cookies example_request) as [run|] eqn:S;
    [|vm_compute in S; discriminate S].
  assert (Hp : exists p, ending run = PassedThrough p).
  { pose proof S as S'. vm_compute in S'. injection S' as <-. eexists. reflexivity. }
  destruct Hp as [p Hp]. rewrite Hp.
  destruct (@served_response_carries_no_cookie node default_options sets_cookies
              example_request run p) as (H1 & _ & H3 & _).
  - intros n out q H. inversion H. subst q. intros k Hk. simpl in Hk.
    destruct Hk as [<-|[<-|[<-|[]]]]; reflexivity.
  - exact S.
  - exact Hp.
  - split; [exact H1 | exact H3].
Defined.

(** The engine comes to an end for the request of the redirect loop. *)
Lemma redirect_following_terminates_witness :
  exists run,
    serve (RT := node) default_options redirect_to_self example_request = Some run
    /\ Z.of_nat (length (exchanges run)) <= corsAnywhere.maxRedirects default_options + 1
    /\ ending run <> OutOfFuel.
Proof.
  eexists. split; [reflexivity|].
  apply (@redirect_following_terminates node default_options redirect_to_self example_request).
  - discriminate.
  - reflexivity.
Defined.
(** ** The help file *)

Lemma fold_setHeader_get (h : Obj hval) (names : list string) (r : Res.t) (k : string) :
  (forall n, In n names -> Str.toLowerCase n = n) ->
  Object.get k (Res.headers (fold_left (fun r k => match Object.get k h with
                                                   | Some v => Res.setHeader k v r
                                                   | None => r
                                                   end) names r))
  = if Str.mem k names
    then match Object.get k h with
         | Some v => Some (k, v)
         | None => Object.get k (Res.headers r)
         end
    else Object.get k (Res.headers r).
Proof.
  revert r. induction names as [|n names IH]; intros r Hlow; [reflexivity|].
  cbn [fold_left Str.mem]. rewrite IH by (intros; apply Hlow; now right).
  assert (Hn : Str.toLowerCase n = n) by (apply Hlow; now left).
  destruct (String.eqb_spec k n) as [->|Hk]; cbn [orb].
  - destruct (Object.get n h) as [v|] eqn:G.
    + unfold Res.setHeader. cbn [Res.headers]. rewrite Hn, get_set_same.
      now destruct (Str.mem n names).
    + now destruct (Str.mem n names).
  - destruct (Object.get n h) as [v|]; [|reflexivity].
    unfold Res.setHeader. cbn [Res.headers]. rewrite Hn, get_set_other by assumption.
    reflexivity.
Qed.

Lemma writeHead_getHeader (status : Z) (reason : option string) (h : Obj hval) (r : Res.t)
    (k : string) :
  lower_case_names h ->
  Res.getHeader k (Res.writeHead status reason h r)
  = match Object.get (Str.toLowerCase k) h with
    | Some v => Some v
    | None => Res.getHeader k r
    end.
Proof.
  intros Hlow. unfold Res.getHeader, Res.writeHead. cbv zeta. cbn [Res.headers].
  rewrite fold_setHeader_get by (intros n Hn; apply Hlow; now apply keys_in_dom).
  destruct (Object.get (Str.toLowerCase k) h) as [v|] eqn:G.
  - assert (Hin : In (Str.toLowerCase k) (Object.keys h)).
    { apply dom_in_keys. apply get_in_dom. congruence. }
    apply mem_In in Hin. now rewrite Hin.
  - now destruct (Str.mem _ _).
Qed.

Lemma writeHead_body (status : Z) (reason : option string) (h : Obj hval) (r : Res.t) :
  Res.body (Res.writeHead status reason h r) = Res.body r.
Proof.
  unfold Res.writeHead. cbv zeta. cbn [Res.body].
  generalize (Object.keys h). intros names. revert r.
  induction names as [|n names IH]; intros r; [reflexivity|].
  cbn [fold_left]. rewrite IH. now destruct (Object.get n h).
Qed.

Lemma usage_body (status : Z) (text : string) (h : Obj hval) (r : Res.t) :
  Res.body (Res.end_ text (Res.writeHead status None h r)) = Res.body r ++ text.
Proof.
  unfold Res.end_. cbn [Res.body]. now rewrite writeHead_body.
Qed.

Lemma not_inherited_not_proto (help_file : string) :
  Str.mem help_file inherited_names = false -> String.eqb help_file "__proto__" = false.
Proof.
  intros H. destruct (String.eqb_spec help_file "__proto__") as [->|]; [discriminate H|reflexivity].
Qed.

Lemma lower_case_names_set (h : Obj hval) (k : string) (v : hval) :
  Str.toLowerCase k = k -> lower_case_names h -> lower_case_names (Object.set k v h).
Proof.
  intros Hk Hh x Hx. apply dom_set in Hx as [->|Hx]; auto.
Qed.

(** X27 (showUsage, lines 14-32).  For a help file whose name is no
    property of [Object.prototype], [showUsage] ends after at most one read
    of the file: the response is ended with status 200 and the text, which
    comes from the cache if the file was read before and is cached
    otherwise, or with status 500 and no body when the read fails, in which
    case nothing is cached.  The content type is [text/html] for a name
    ending in [.html] and [text/plain] otherwise. *)
Theorem showUsage_ends_after_one_read (fuel : nat) (fs : FileSystem) (help_text : Obj string)
    (help_file : string) (h : Obj hval) (response : Res.t) :
  Str.mem help_file inherited_names = false ->
  lower_case_names h ->
  exists help_text' response',
    showUsage_run (S (S fuel)) fs help_text help_file h response
    = Some (UsageSent help_text' response')
    /\ Res.writableEnded response' = true
    /\ Res.getHeader "content-type" response'
       = Some (HStr (if Str.endsWith ".html" help_file then "text/html" else "text/plain"))
    /\ match help_text_of fs help_text help_file with
       | Some text =>
           Res.statusCode response' = 200
           /\ Res.body response' = Res.body response ++ text
           /\ Object.get help_file help_text' = Some text
       | None =>
           Res.statusCode response' = 500
           /\ Res.body response' = Res.body response
           /\ help_text' = help_text
       end.
Proof.
  intros Hname Hlow. unfold help_text_of.
  set (ct := HStr (if Str.endsWith ".html" help_file then "text/html" else "text/plain")).
  assert (Hct : forall status body h0,
             lower_case_names h0 ->
             Res.getHeader "content-type"
               (Res.end_ body (Res.writeHead status None (Object.set "content-type" ct h0)
                                 response))
             = Some ct).
  { intros status body h0 H0. unfold Res.end_, Res.getHeader. cbn [Res.headers].
    change (option_map snd (Object.get (Str.toLowerCase "content-type")
                              (Res.headers (Res.writeHead status None
                                              (Object.set "content-type" ct h0) response))))
      with (Res.getHeader "content-type"
              (Res.writeHead status None (Object.set "content-type" ct h0) response)).
    rewrite writeHead_getHeader by (apply lower_case_names_set; [reflexivity | exact H0]).
    change (Str.toLowerCase "content-type") with "content-type".
    now rewrite get_set_same. }
  cbn [showUsage_run]. rewrite (not_inherited_not_proto _ Hname), Hname. fold ct.
  destruct (Object.get help_file help_text) as [text|] eqn:G.
  - do 2 eexists. split; [reflexivity|]. split; [reflexivity|].
    split; [apply Hct; exact Hlow|].
    split; [reflexivity|]. split; [apply usage_body | exact G].
  - destruct (fs help_file) as [data|] eqn:F.
    + rewrite get_set_same.
      do 2 eexists. split; [reflexivity|]. split; [reflexivity|].
      split.
      { apply Hct. apply lower_case_names_set; [reflexivity | exact Hlow]. }
      split; [reflexivity|]. split; [apply usage_body | apply get_set_same].
    + do 2 eexists. split; [reflexivity|]. split; [reflexivity|].
      split; [apply Hct; exact Hlow|].
      split; [reflexivity|]. split; [|reflexivity].
      rewrite usage_body. apply string_app_empty.
Qed.

Lemma showUsage_ends_after_one_read_witness :
  exists help_text' response',
    showUsage_run 2 (fun _ => Some "usage") [] "/lib/help.txt" [] Res.fresh
    = Some (UsageSent help_text' response')
    /\ Res.statusCode response' = 200
    /\ Res.body response' = "usage"
    /\ Object.get "/lib/help.txt" help_text' = Some "usage".
Proof.
  destruct (showUsage_ends_after_one_read 0 (fun _ => Some "usage") [] "/lib/help.txt" []
              Res.fresh eq_refl) as (c & r & E & _ & _ & H); [intros k []|].
  exists c, r. split; [exact E|]. exact H.
Defined.

(** X28 (showUsage, lines 17-19 and 27).  Once a help file has been sent
    with status 200, its text is served from the cache: every later call
    for the same file sends that text with status 200 and leaves the cache
    as it is, whatever the file system holds by then. *)
Theorem showUsage_serves_cached_text (fuel fuel' : nat) (fs fs' : FileSystem)
    (help_text help_text' : Obj string) (help_file : string) (h h' : Obj hval)
    (response response' later : Res.t) :
  showUsage_run fuel fs help_text help_file h response = Some (UsageSent help_text' response') ->
  Res.statusCode response' = 200 ->
  exists text later',
    Res.body response' = Res.body response ++ text
    /\ showUsage_run (S fuel') fs' help_text' help_file h' later
       = Some (UsageSent help_text' later')
    /\ Res.statusCode later' = 200
    /\ Res.body later' = Res.body later ++ text.
Proof.
  revert help_text h. induction fuel as [|fuel IH]; intros help_text h H Hs; [discriminate|].
  cbn [showUsage_run] in H.
  destruct (String.eqb help_file "__proto__") eqn:Hproto; [discriminate|].
  destruct (Str.mem help_file inherited_names) eqn:Hname.
  { injection H as <- <-. exists "". eexists. split; [apply usage_body|].
    cbn [showUsage_run]. rewrite Hproto, Hname. split; [reflexivity|].
    split; [reflexivity | apply usage_body]. }
  destruct (Object.get help_file help_text) as [text|] eqn:G.
  - injection H as <- <-. exists text. eexists. split; [apply usage_body|].
    cbn [showUsage_run]. rewrite Hproto, Hname, G. split; [reflexivity|].
    split; [reflexivity | apply usage_body].
  - destruct (fs help_file) as [data|].
    + exact (IH _ _ H Hs).
    + injection H as <- <-. discriminate.
Qed.

Lemma showUsage_serves_cached_text_witness :
  exists text later',
    Res.body (Res.end_ "usage"
                (Res.writeHead 200 None [("content-type", HStr "text/plain")] Res.fresh))
    = Res.body Res.fresh ++ text
    /\ showUsage_run 1 (fun _ => None) [("/lib/help.txt", "usage")] "/lib/help.txt" []
         Res.fresh
       = Some (UsageSent [("/lib/help.txt", "usage")] later')
    /\ Res.statusCode later' = 200
    /\ Res.body later' = Res.body Res.fresh ++ text.
Proof.
  apply (showUsage_serves_cached_text 2 0 (fun _ => Some "usage") (fun _ => None) []
           [("/lib/help.txt", "usage")] "/lib/help.txt" [] [] Res.fresh).
  - vm_compute. reflexivity.
  - reflexivity.
Defined.
Lemma repair_single_slash_https (rest : string) :
  Str.startsWith "/" rest = false ->
  repair_single_slash ("https:/" ++ rest) = "https://" ++ rest.
Proof.
  intros H. unfold repair_single_slash, Str.strip_prefix, Str.startsWith in *.
  destruct rest as [|c r]; [reflexivity|].
  cbn in *. destruct r; cbn in *; rewrite H; reflexivity.
Qed.

(** X30 (parseURL, line 245).  A target whose scheme, written in lower
    case, is followed by one slash only is read as if both slashes were
    there. *)
Theorem parseURL_single_slash_is_repaired {RT : Runtime} (scheme rest : string) :
  scheme = "http" \/ scheme = "https" ->
  Str.startsWith "/" rest = false ->
  parseURL (scheme ++ ":/" ++ rest) = parseURL (scheme ++ "://" ++ rest).
Proof.
  intros Hs Hrest. unfold parseURL.
  assert (H1 : repair_single_slash (scheme ++ ":/" ++ rest) = scheme ++ "://" ++ rest).
  { destruct Hs as [->| ->].
    - now apply repair_single_slash_http.
    - now apply repair_single_slash_https. }
  assert (H2 : repair_single_slash (scheme ++ "://" ++ rest) = scheme ++ "://" ++ rest).
  { destruct Hs as [->| ->].
    - apply (scheme_repair "http://" rest). now left.
    - apply (scheme_repair "https://" rest). now right. }
  rewrite H1, H2. reflexivity.
Qed.

Lemma parseURL_single_slash_is_repaired_witness :
  parseURL (RT := node) ("https" ++ ":/" ++ "example.com/x")
  = parseURL (RT := node) ("https" ++ "://" ++ "example.com/x").
Proof.
  apply (@parseURL_single_slash_is_repaired node "https" "example.com/x").
  - now right.
  - reflexivity.
Defined.
(** ** The hook and the exceptions of [url.parse] *)

(** [parseURL] is [url.parse] on the string of line 266, with the test of
    the host name that follows. *)
Lemma parseURL_by_input {RT : Runtime} (req_url : string) :
  parseURL req_url
  = match parseURL_input req_url with
    | Some s => parsed_with_hostname s
    | None => None
    end.
Proof.
  unfold parseURL, parseURL_input, parsed_with_hostname. cbv zeta.
  destruct (url_match (repair_single_slash req_url)) as [m|]; [|reflexivity].
  destruct (m_protocol m); [reflexivity|].
  destruct (has_scheme_ci (repair_single_slash req_url)); reflexivity.
Qed.

(** C9 (as amended).  For every request other than a preflight, on whose
    target [url.parse] does not raise an exception, and on which the
    configured [handleInitialRequest] hook returns a truthy value: the
    handler returns, the hook is called with the parsed target (or [null])
    after the CORS headers were computed and the method was tested, and
    before every other built-in check; no other hook is called and none of
    those checks runs. *)
Theorem hook_precedes_checks_unless_preflight_or_exception {RT : Runtime}
    (url_parse_raises : string -> bool) (options : corsAnywhere.t) (req : Request)
    (hook : Request -> option Url.t -> bool) :
  method req <> "OPTIONS" ->
  (forall s, parseURL_input (Str.slice 1 (url req)) = Some s -> url_parse_raises s = false) ->
  corsAnywhere.handleInitialRequest options = Some hook ->
  hook (prepared options req) (parseURL (Str.slice 1 (url req))) = true ->
  handler_attempt url_parse_raises options req
  = Completes ([CallHandleInitialRequest (parseURL (Str.slice 1 (url req)))], Handled).
Proof.
  intros Hm Hreturns Hh Ht. unfold handler_attempt.
  destruct (String.eqb_spec (method req) "OPTIONS"); [contradiction|].
  rewrite (handler_offers_request_to_hook options req hook Hm Hh Ht).
  destruct (parseURL_input (Str.slice 1 (url req))) as [s|] eqn:E; [|reflexivity].
  now rewrite (Hreturns s eq_refl).
Qed.

Lemma hook_precedes_checks_unless_preflight_or_exception_witness :
  handler_attempt (RT := node) sample_url_parse_raises greedy_hook_options
    (incoming "GET" "/example.com/" [])
  = Completes ([CallHandleInitialRequest (parseURL (RT := node) "example.com/")], Handled).
Proof.
  apply (@hook_precedes_checks_unless_preflight_or_exception node sample_url_parse_raises
           greedy_hook_options (incoming "GET" "/example.com/" []) (fun _ _ => true)).
  - discriminate.
  - intros s H. vm_compute in H. injection H as <-. reflexivity.
  - reflexivity.
  - reflexivity.
Defined.

(** Where [url.parse] raises, the exception escapes the handler and the
    hook is not called, although it would have taken the request. *)
Example exception_of_url_parse_precedes_hook :
  handler_attempt (RT := node) sample_url_parse_raises greedy_hook_options
    (incoming "GET" "/xn--a.com/" [])
  = Raises "http://xn--a.com/".
Proof.
  reflexivity.
Qed.

(** ** A 307 after a followed redirect *)

(** C3 (the code at the failing input).  A target answers the first
    request with a 302 and the second with a 307.  The 302 is followed;
    the 307 is not: two exchanges are made, and the mediator finalizes the
    307 (cookies removed, [x-final-url] and CORS headers added, [Location]
    pointing back at the proxy) and returns true.  But the response to the
    client was ended when the 302 was followed: the client has an ended
    200 without [Location] and without CORS headers, and never receives
    the 307.  When the same 307 is the first response, the client does
    receive it, finalized. *)
Theorem temporary_redirect_after_followed_redirect_is_lost :
  exists run passed first,
    serve (RT := node) default_options redirect_then_temporary example_request = Some run
    /\ length (exchanges run) = 2%nat
    /\ ending run = PassedThrough passed
    /\ ProxyRes.statusCode passed = 307
    /\ Object.get "location" (ProxyRes.headers passed)
       = Some (HStr "http://proxy.test/http://example.com/next")
    /\ Object.get "set-cookie" (ProxyRes.headers passed) = None
    /\ Object.get "x-final-url" (ProxyRes.headers passed)
       = Some (HStr "http://example.com/first")
    /\ Object.get "access-control-allow-origin" (ProxyRes.headers passed) = Some (HStr "*")
    /\ Res.writableEnded (run_res run) = true
    /\ Res.statusCode (run_res run) = 200
    /\ Res.getHeader "Location" (run_res run) = None
    /\ Res.getHeader "Access-Control-Allow-Origin" (run_res run) = None
    /\ serve (RT := node) default_options temporary_at_once example_request = Some first
    /\ length (exchanges first) = 1%nat
    /\ Res.statusCode (run_res first) = 307
    /\ Res.getHeader "Location" (run_res first)
       = Some (HStr "http://proxy.test/http://example.com/next")
    /\ Res.getHeader "Set-Cookie" (run_res first) = None
    /\ Res.getHeader "Access-Control-Allow-Origin" (run_res first) = Some (HStr "*").
Proof.
  eexists. eexists. eexists. split; [vm_compute; reflexivity|].
  do 11 (split; [reflexivity|]).
  split; [vm_compute; reflexivity|].
  repeat split.
Qed.
